(** * Fold evaluation and bootstrap scoring of the ebola predictor

    A shallow embedding of [utils/aggregated_scores.py] (Brier score,
    percentile bootstrap, pooled scoring loop) and of the per-fold averages
    of [eval.py], followed by the properties of the evaluation engine.

    Conventions of the embedding:
    - The values of the scores, their sums and their averages are exact
      rationals ([Q]).  The error rate and the positions that the bootstrap
      reads in the sorted scores are computed as the program computes them,
      in binary64 floats rounded to nearest ([round64], [float_mul],
      [float_sub]).  Integer labels are [Z].
    - A Python call either returns or raises: [result A] carries the value or
      the class name of the exception.
    - numpy arrays, pandas columns and Python lists are Rocq lists.
    - Code of numpy, pandas and scikit-learn is not part of the repository:
      what the program needs of it is written out next to its use, or taken
      as a parameter of the section that embeds the caller. *)

From Stdlib Require Import ZArith QArith Qround Qpower Qabs Lia Lqa Ascii String Sorted
  Permutation.
From stdpp Require Import base option list sorting strings pretty gmap.

Local Open Scope Z_scope.

(** ** Python runtime *)

Module Py.

(** The outcome of a Python call: a value, or an exception named by its class. *)
Inductive result (A : Type) : Type :=
| Return (a : A)
| Raise (cls : string).
Arguments Return {A} a.
Arguments Raise {A} cls.

#[export] Instance result_ret : MRet result := fun A a => Return a.
#[export] Instance result_bind : MBind result := fun A B f m =>
  match m with
  | Return a => f a
  | Raise cls => Raise cls
  end.

Definition IndexError : string := "IndexError".
Definition ValueError : string := "ValueError".
Definition TypeError : string := "TypeError".
Definition KeyError : string := "KeyError".
Definition ZeroDivisionError : string := "ZeroDivisionError".
Definition OverflowError : string := "OverflowError".

Definition raises {A} (r : result A) : Prop := exists cls, r = Raise cls.

(** What a script leaves behind outside its own variables: the commands it
    ran through [os.system], and how many random generators it has asked the
    operating system to seed. *)
Record World : Type := {
  commands : list string;
  generators : nat
}.

(** A statement of the script: it runs in a world, changes it, and returns
    or raises; the world is kept when it raises. *)
Definition IO (A : Type) : Type := World -> result A * World.

#[export] Instance IO_ret : MRet IO := fun A a w => (Return a, w).
#[export] Instance IO_bind : MBind IO := fun A B f m w =>
  match m w with
  | (Return a, w') => f a w'
  | (Raise cls, w') => (Raise cls, w')
  end.

(** A computation without effects, as a statement. *)
Definition pure {A} (r : result A) : IO A := fun w => (r, w).

(** The world once one more command has run. *)
Definition after_command (cmd : string) (w : World) : World :=
  {| commands := commands w ++ [cmd]; generators := generators w |}.

(** [os.system(cmd)] *)
Definition os_system (cmd : string) : IO unit := fun w =>
  (Return tt, after_command cmd w).

(** [len(x)] as a Python integer. *)
Definition len {A} (l : list A) : Z := Z.of_nat (length l).

(** [int(x)] on a float: truncation toward zero. *)
Definition py_int (x : Q) : Z := Z.quot (Qnum x) (Zpos (Qden x)).

(** *** Floats

    A Python float is an IEEE 754 binary64 number: a finite number, given
    here by its value, an infinity or NaN.  An operation on finite numbers
    gives the float that is nearest to the exact result, the one with the
    even significand when two are as near. *)

(** 2 to the power [e], for any integer [e]. *)
Definition pow2 (e : Z) : Q := (2 ^ e)%Q.

(** The exponent [k] of a positive number: [2^k <= q < 2^(k+1)]. *)
Definition ilog2 (q : Q) : Z :=
  let k := Z.log2 (Qnum q) - Z.log2 (Zpos (Qden q)) in
  if Qle_bool (pow2 k) q then k else k - 1.

(** The nearest integer, the even one of two that are as near. *)
Definition round_half_even (q : Q) : Z :=
  let f := Qfloor q in
  match (q - inject_Z f ?= 1 # 2)%Q with
  | Lt => f
  | Gt => f + 1
  | Eq => if Z.even f then f else f + 1
  end.

(** The exponent of the last of the 53 bits of a positive number; it is
    not less than -1074, the exponent of the smallest float. *)
Definition exponent64 (q : Q) : Z := Z.max (ilog2 q - 52) (-1074).

(** The nearest multiple of [2 ^ exponent64 q] to a positive number. *)
Definition round64_pos (q : Q) : Q :=
  (inject_Z (round_half_even (q / pow2 (exponent64 q))) * pow2 (exponent64 q))%Q.

(** The nearest float to a number, were the exponents not bounded above. *)
Definition round64_value (q : Q) : Q :=
  match Qnum q with
  | Z0 => 0%Q
  | Zpos _ => round64_pos q
  | Zneg _ => (- round64_pos (- q))%Q
  end.

Inductive float : Type :=
| Finite (q : Q)
| Infinite (negative : bool)
| NaN.

Definition is_negative (q : Q) : bool := Qnum q <? 0.
Definition is_zero (q : Q) : bool := Qnum q =? 0.

(** The float of an exact result: an infinity from [2^1024] on. *)
Definition round64 (q : Q) : float :=
  let v := round64_value q in
  if Qle_bool (pow2 1024) (Qabs v) then Infinite (is_negative q) else Finite v.

(** The float that the arithmetic makes of an integer operand.  The
    operands here are lengths of lists, far below [2^1024], from where on
    Python raises [OverflowError] instead of giving an infinity. *)
Definition float_of_int (n : Z) : float := round64 (inject_Z n).

(** [a * b] on floats. *)
Definition float_mul (a b : float) : float :=
  match a, b with
  | NaN, _ | _, NaN => NaN
  | Finite x, Finite y => round64 (x * y)
  | Infinite s, Finite y | Finite y, Infinite s =>
      if is_zero y then NaN else Infinite (xorb s (is_negative y))
  | Infinite s, Infinite t => Infinite (xorb s t)
  end.

(** [a - b] on floats. *)
Definition float_sub (a b : float) : float :=
  match a, b with
  | NaN, _ | _, NaN => NaN
  | Finite x, Finite y => round64 (x - y)
  | Infinite s, Finite _ => Infinite s
  | Finite _, Infinite t => Infinite (negb t)
  | Infinite s, Infinite t => if Bool.eqb s t then NaN else Infinite s
  end.

(** 2^-53, the distance from 1.0 to the float before it. *)
Definition ulp_below_one : Q := 1 # 9007199254740992.

(** [int(x)] on a float: [OverflowError] on an infinity, [ValueError] on
    NaN. *)
Definition float_int (x : float) : result Z :=
  match x with
  | Finite q => Return (py_int q)
  | Infinite _ => Raise OverflowError
  | NaN => Raise ValueError
  end.

(** [a[i]] on a list or a one-dimensional array: a negative index counts
    from the end, anything outside [-len, len) raises [IndexError]. *)
Definition getitem {A} (a : list A) (i : Z) : result A :=
  let j := if i <? 0 then len a + i else i in
  if j <? 0 then Raise IndexError
  else match a !! Z.to_nat j with
       | Some x => Return x
       | None => Raise IndexError
       end.

(** [a[indices]] with an integer array: one element per index. *)
Fixpoint take_indices {A} (a : list A) (indices : list Z) : result (list A) :=
  match indices with
  | [] => Return []
  | i :: rest =>
      x ← getitem a i;
      xs ← take_indices a rest;
      Return (x :: xs)
  end.

(** [d[k]] on a dict: [KeyError] when the key is absent. *)
Definition dict_get {V} (d : gmap string V) (k : string) : result V :=
  match d !! k with
  | Some v => Return v
  | None => Raise KeyError
  end.

(** [[d[k] for k in ks]] *)
Fixpoint dict_get_all {V} (d : gmap string V) (ks : list string) : result (list V) :=
  match ks with
  | [] => Return []
  | k :: rest =>
      v ← dict_get d k;
      vs ← dict_get_all d rest;
      Return (v :: vs)
  end.

(** *** Strings *)

(** [s.find(sub)] from position [i] on: the index of the first occurrence,
    or -1. *)
Fixpoint find_from (sub s : string) (i : Z) : Z :=
  if String.prefix sub s then i
  else match s with
       | EmptyString => -1
       | String _ s' => find_from sub s' (i + 1)
       end.

Definition find (s sub : string) : Z := find_from sub s 0.

(** [sub in s] for two strings. *)
Definition contains (s sub : string) : bool := 0 <=? find s sub.

(** Slice bounds as Python clamps them: a negative bound counts from the
    end, and the result is cut to [0, len]. *)
Definition clamp (n : Z) (i : Z) : Z :=
  let j := if i <? 0 then n + i else i in
  Z.max 0 (Z.min n j).

(** [s[start:stop]] *)
Definition slice (s : string) (start stop : Z) : string :=
  let n := Z.of_nat (String.length s) in
  let a := clamp n start in
  let b := clamp n stop in
  String.substring (Z.to_nat a) (Z.to_nat (b - a)) s.

(** [s.split(sep)] for a one-character separator: the pieces between the
    separators, empty pieces kept. *)
Fixpoint split_aux (sep : ascii) (s : string) (cur : string) : list string :=
  match s with
  | EmptyString => [cur]
  | String c s' =>
      if Ascii.eqb c sep then cur :: split_aux sep s' EmptyString
      else split_aux sep s' (cur +:+ String c EmptyString)
  end.

Definition split (s : string) (sep : ascii) : list string :=
  split_aux sep s EmptyString.

(** The characters that [strip] removes: space, tab, line feed, vertical
    tab, form feed and carriage return. *)
Definition is_space (c : ascii) : bool :=
  let n := nat_of_ascii c in
  (n =? 32)%nat || ((9 <=? n)%nat && (n <=? 13)%nat).

Fixpoint lstrip (s : string) : string :=
  match s with
  | EmptyString => EmptyString
  | String c s' => if is_space c then lstrip s' else s
  end.

Fixpoint rstrip (s : string) : string :=
  match s with
  | EmptyString => EmptyString
  | String c s' =>
      match rstrip s' with
      | EmptyString => if is_space c then EmptyString else String c EmptyString
      | rest => String c rest
      end
  end.

(** [s.strip()] *)
Definition strip (s : string) : string := lstrip (rstrip s).

(** [s.split(sep, 1)] for a one-character separator: the text before the
    first separator and the text after it, or the whole text alone. *)
Fixpoint split_once_aux (sep : ascii) (s : string) (cur : string) : list string :=
  match s with
  | EmptyString => [cur]
  | String c s' =>
      if Ascii.eqb c sep then [cur; s']
      else split_once_aux sep s' (cur +:+ String c EmptyString)
  end.

Definition split_once (s : string) (sep : ascii) : list string :=
  split_once_aux sep s EmptyString.

(** [x in l] for a list of strings. *)
Definition in_list (x : string) (l : list string) : bool :=
  existsb (String.eqb x) l.

(** [os.path.split(p)[1]]: what follows the last separator. *)
Definition path_tail (p : string) : string :=
  List.last (split p "/"%char) EmptyString.

End Py.
Import Py.

(** ** numpy on one-dimensional arrays *)

Module Np.

#[export] Instance Qle_dec (x y : Q) : Decision (x <= y)%Q.
Proof.
  destruct (Qlt_le_dec y x) as [H | H].
  - right. apply Qlt_not_le. exact H.
  - left. exact H.
Defined.

(** [a.sort()]: ascending. *)
Definition sort (a : list Q) : list Q := merge_sort Qle a.

(** [np.unique(a)] on integers: the distinct values, ascending. *)
Definition unique (a : list Z) : list Z := merge_sort Z.le (remove_dups a).

(** [len(np.unique(a))] for any element type: the number of distinct values. *)
Definition n_unique {A} `{EqDecision A} (a : list A) : nat :=
  length (remove_dups a).

Definition Qltb (x y : Q) : bool := negb (Qle_bool y x).

Definition sumQ (a : list Q) : Q := foldr Qplus 0%Q a.

(** [a.max()] and [a.min()]: an empty array has no maximum. *)
Definition maxZ (a : list Z) : result Z :=
  match a with
  | [] => Raise ValueError
  | x :: rest => Return (foldr Z.max x rest)
  end.

Definition Qmax (x y : Q) : Q := if Qle_bool x y then y else x.
Definition Qmin (x y : Q) : Q := if Qle_bool x y then x else y.

Definition maxQ (a : list Q) : result Q :=
  match a with
  | [] => Raise ValueError
  | x :: rest => Return (foldr Qmax x rest)
  end.

Definition minQ (a : list Q) : result Q :=
  match a with
  | [] => Raise ValueError
  | x :: rest => Return (foldr Qmin x rest)
  end.

(** [np.average(a, weights=w)]: the mean without weights; with weights the
    shapes must agree and the weights must not sum to zero. *)
Definition average (a : list Q) (weights : option (list Q)) : result Q :=
  match weights with
  | None => Return (sumQ a / inject_Z (len a))%Q
  | Some w =>
      if negb (length a =? length w)%nat then Raise TypeError
      else if Qeq_bool (sumQ w) 0 then Raise ZeroDivisionError
      else Return (sumQ (zip_with Qmult a w) / sumQ w)%Q
  end.

(** A generator of [np.random]: [random_integers g low high size] draws
    [size] integers and leaves the generator in its next state. *)
Class RandomState (G : Type) : Type :=
  random_integers : G -> Z -> Z -> nat -> list Z * G.

(** [rng.random_integers(low, high, size)] as a call: numpy refuses an empty
    range with a [ValueError] before it draws anything. *)
Definition draw_integers {G} `{RandomState G} (rng : G) (low high : Z)
    (size : nat) : result (list Z * G) :=
  if high <? low then Raise ValueError
  else Return (random_integers rng low high size).

(** What numpy promises of the draws: [size] of them, each in [low, high]. *)
Class RandomStateOk (G : Type) `{RandomState G} : Prop :=
  random_integers_range :
    forall (g : G) (low high : Z) (size : nat),
      low <= high ->
      length (random_integers g low high size).1 = size /\
      Forall (fun i => low <= i <= high) (random_integers g low high size).1.

(** A generator that replays a tape of raw numbers, folding each into
    [low, high]; an exhausted tape yields [low]. *)
Fixpoint replay (tape : list Z) (low high : Z) (size : nat) : list Z * list Z :=
  match size with
  | O => ([], tape)
  | S n =>
      let raw := match tape with [] => 0 | r :: _ => r end in
      let '(rest, tape') := replay (tail tape) low high n in
      ((low + raw mod (high - low + 1)) :: rest, tape')
  end.

#[export] Instance tape_RandomState : RandomState (list Z) := replay.

End Np.

(** ** utils/aggregated_scores.py *)

Module AggregatedScores.
Import Np.

(** What [_num_samples] looks at in its argument. *)
Inductive ArrayLike : Type :=
| Estimator                  (** an object with a [fit] attribute *)
| Scalar                     (** no [__len__], no [shape], no [__array__] *)
| Shaped (shape : list nat)  (** an array, or what [np.asarray] makes of an
                                 object that has [__array__] alone *)
| Sized (n : nat).           (** a sequence without a [shape] *)

Definition _num_samples (x : ArrayLike) : result nat :=
  match x with
  | Estimator => Raise TypeError
  | Scalar => Raise TypeError
  | Shaped [] => Raise TypeError
  | Shaped (n :: _) => Return n
  | Sized n => Return n
  end.

(** [[_num_samples(X) for X in arrays if X is not None]] *)
Fixpoint num_samples_of (arrays : list (option ArrayLike)) : result (list nat) :=
  match arrays with
  | [] => Return []
  | None :: rest => num_samples_of rest
  | Some X :: rest =>
      n ← _num_samples X;
      ns ← num_samples_of rest;
      Return (n :: ns)
  end.

(** [check_consistent_length]: more than one distinct length is a
    [ValueError]. *)
Definition check_consistent_length (arrays : list (option ArrayLike)) : result unit :=
  num_samples ← num_samples_of arrays;
  let uniques := remove_dups num_samples in
  if (1 <? length uniques)%nat then Raise ValueError else Return tt.

(** A one-dimensional array, as [check_consistent_length] sees it. *)
Definition array_1d {A} (a : list A) : option ArrayLike := Some (Shaped [length a]).

(** Modelled from the spec: scikit-learn's [label_binarize] is not part of
    the repository.  For the two sorted classes [labels] its single output
    column is the "binarized true label": 1 where the label is the second
    (larger) class, 0 elsewhere. *)
Definition label_binarize_column (y_true labels : list Z) : list Z :=
  match labels !! 1%nat with
  | Some positive => map (fun v => if v =? positive then 1 else 0) y_true
  | None => map (fun _ => 0) y_true
  end.

Definition _check_binary_probabilistic_predictions
    (y_true : list Z) (y_prob : list Q) : result (list Z) :=
  _ ← check_consistent_length [array_1d y_true; array_1d y_prob];
  let labels := unique y_true in
  if negb (length labels =? 2)%nat then Raise ValueError
  else
    hi ← maxQ y_prob;
    if Qltb 1 hi then Raise ValueError
    else
      lo ← minQ y_prob;
      if Qltb lo 0 then Raise ValueError
      else Return (label_binarize_column y_true labels).

(** [(y_true - y_prob) ** 2], element by element. *)
Definition squared_differences (y_true : list Z) (y_prob : list Q) : list Q :=
  zip_with (fun t q => (inject_Z t - q) * (inject_Z t - q))%Q y_true y_prob.

Definition brier_score_loss (y_true : list Z) (y_prob : list Q)
    (sample_weight : option (list Q)) (pos_label : option Z) : result Q :=
  pos_label ← match pos_label with
              | None => maxZ y_true
              | Some l => Return l
              end;
  let y_true := map (fun v => if v =? pos_label then 1 else 0) y_true in
  y_true ← _check_binary_probabilistic_predictions y_true y_prob;
  average (squared_differences y_true y_prob) sample_weight.

Section Bootstrap.
Context {G : Type} `{RandomState G}.
Context {A B : Type} `{EqDecision A}.
Variable score_fun : list A -> list B -> result Q.
Variable y_true : list A.
Variable y_pred : list B.

(** The body of [for i in range(n_bootstraps)], with the generator and the
    scores collected so far carried along. *)
Fixpoint bootstrap_loop (n_bootstraps : nat) (rng : G)
    (bootstrapped_scores : list Q) : result (list Q) :=
  match n_bootstraps with
  | O => Return bootstrapped_scores
  | S remaining =>
      '(indices, rng) ← draw_integers rng 0 (len y_pred - 1) (length y_pred);
      resampled_true ← take_indices y_true indices;
      if (n_unique resampled_true <? 2)%nat
      then bootstrap_loop remaining rng bootstrapped_scores
      else
        resampled_pred ← take_indices y_pred indices;
        score ← score_fun resampled_true resampled_pred;
        bootstrap_loop remaining rng (bootstrapped_scores ++ [score])
  end.

(** [rng] is the generator that [np.random.RandomState()] creates at the
    start of the call; the two bounds are returned as a pair.  [pvalue] is a
    finite float, given by its value; [pvalue * len(sorted_scores)] and
    [(1 - pvalue) * len(sorted_scores)] are float operations. *)
Definition score_bootstrap (pvalue : Q) (iter : Z) (rng : G) : result (Q * Q) :=
  bootstrapped_scores ← bootstrap_loop (Z.to_nat iter) rng [];
  let sorted_scores := sort bootstrapped_scores in
  lower ← float_int (float_mul (Finite pvalue) (float_of_int (len sorted_scores)));
  confidence_lower ← getitem sorted_scores lower;
  upper ← float_int (float_mul (float_sub (Finite 1) (Finite pvalue))
                       (float_of_int (len sorted_scores)));
  confidence_upper ← getitem sorted_scores upper;
  Return (confidence_lower, confidence_upper).
End Bootstrap.

(** The metrics that the script imports from scikit-learn. *)
Record Sklearn : Type := {
  precision_score : list Z -> list Z -> result Q;
  recall_score : list Z -> list Z -> result Q;
  f1_score : list Z -> list Z -> result Q;
  roc_auc_score : list Z -> list Q -> result Q
}.

(** The command line after [parser.parse_args()]. *)
Record Args : Type := {
  index_mode : string;
  base_dir : string;
  scores : list string;
  f1_min : Q;
  extra_tests : list string;
  excluded_predictors : list string;
  confidence : Q;
  iterations : Z;
  bootstrap : bool
}.

(** [1.0 - args.confidence[0] / 100.0], two float operations; on a finite
    confidence neither overflows. *)
Definition pvalue (args : Args) : Q :=
  round64_value (1 - round64_value (confidence args / 100)).

(** The defaults of the parser: [-s], [-f1], [-extra], [-x], [-c], [-i]. *)
Definition default_args : Args := {|
  index_mode := "PRED";
  base_dir := "./";
  scores := split "precision,recall,f1,brier,auc" ","%char;
  f1_min := 0.9%Q;
  extra_tests := split "" ","%char;
  excluded_predictors := split "lreg,scikit_randf" ","%char;
  confidence := 95%Q;
  iterations := 1000;
  bootstrap := false
|}.

(** A line of the ranking file after [split], [parts[1]] to [parts[5]], the
    two numbers already read by [float]. *)
Record RankLine : Type := {
  mdl_str : string;
  pred : string;
  vars : string;
  f1_mean : Q;
  f1_std : Q
}.

(** One cell of the score table: the bare score, or [lo,score,hi] in
    bootstrap mode (the three-decimal formatting is left out). *)
Inductive Cell : Type :=
| Point (score : Q)
| Interval (lo score hi : Q).

(** [score_line]: the acronym, the variable labels, then one cell per score. *)
Record ScoreLine : Type := {
  acronym : string;
  variables : list string;
  cells : list Cell
}.

(** [pb = np.array([int(0.5 < x) for x in p])] *)
Definition binarize (p : list Q) : list Z :=
  map (fun x => if Qltb 0.5 x then 1 else 0) p.

(** The search for the index name in imputation mode: [idx] keeps the name
    on which the loop breaks, or the last name tried. *)
Fixpoint find_index (index_names : list string) (mdl_str : string)
    (idx : string) : string :=
  match index_names with
  | [] => idx
  | name :: rest =>
      if contains mdl_str name then name else find_index rest mdl_str name
  end.

(** [missing] after the loop over [extra_tests]. *)
Definition extra_missing (extra_tests : list string) (mdl_str : string) : bool :=
  let path_pieces := split mdl_str "/"%char in
  existsb (fun ex => negb (in_list ex path_pieces)) extra_tests.

(** One round of the loop over the lines of [./data/alias.txt]:
    [var_labels[parts[0]] = parts[1]], the right-hand side first. *)
Definition alias_line (var_labels : gmap string string) (line : string)
    : result (gmap string string) :=
  let line := strip line in
  let parts := split_once line " "%char in
  label ← getitem parts 1;
  name ← getitem parts 0;
  Return (<[name := label]> var_labels).

(** The loop that fills [var_labels]. *)
Fixpoint load_alias (lines : list string) (var_labels : gmap string string)
    : result (gmap string string) :=
  match lines with
  | [] => Return var_labels
  | line :: rest =>
      var_labels ← alias_line var_labels line;
      load_alias rest var_labels
  end.

(** What the loop over the lines of the options file fills. *)
Record Index : Type := {
  index_names : list string;
  index_labels : gmap string string;
  index_acron : gmap string string
}.

(** One round of that loop: the name is appended, then the label and the
    acronym are stored under it. *)
Definition options_line (index : Index) (line : string) : result Index :=
  let line := strip line in
  let parts := split line ","%char in
  name ← getitem parts 0;
  let index_names := index_names index ++ [name] in
  label ← getitem parts 1;
  let index_labels := <[name := label]> (index_labels index) in
  acron ← getitem parts 2;
  Return {| index_names := index_names;
            index_labels := index_labels;
            index_acron := <[name := acron]> (index_acron index) |}.

Fixpoint load_options (lines : list string) (index : Index) : result Index :=
  match lines with
  | [] => Return index
  | line :: rest =>
      index ← options_line index line;
      load_options rest index
  end.

Definition no_index : Index :=
  {| index_names := []; index_labels := ∅; index_acron := ∅ |}.

Section Main.
Context {G : Type} `{RandomState G}.
Variable sklearn : Sklearn.
(** The rows [(Y, P)] that [pd.read_csv] finds in [./out/predictions.csv]
    once the given [utils/aggregate.py] command has run. *)
Variable aggregate : string -> list (Z * Q).
(** The generator that the [n]-th call of [np.random.RandomState()] gets
    from the operating system. *)
Variable os_random : nat -> G.
Variable args : Args.
Variable var_labels : gmap string string.
Variable index_names : list string.
Variable index_acron : gmap string string.

(** [np.random.RandomState()] *)
Definition new_RandomState : IO G := fun w =>
  (Return (os_random (generators w)),
   {| commands := commands w; generators := S (generators w) |}).

(** [score_bootstrap] as a statement: it seeds its own generator. *)
Definition bootstrap_call {B} (score_fun : list Z -> list B -> result Q)
    (y_true : list Z) (y_pred : list B) (pvalue : Q) (iter : Z) : IO (Q * Q) :=
  rng ← new_RandomState;
  pure (score_bootstrap score_fun y_true y_pred pvalue iter rng).

Definition precision_bootstrap := bootstrap_call (precision_score sklearn).
Definition recall_bootstrap := bootstrap_call (recall_score sklearn).
Definition f1_bootstrap := bootstrap_call (f1_score sklearn).
Definition brier_bootstrap :=
  bootstrap_call (fun y_true y_prob => brier_score_loss y_true y_prob None None).
Definition roc_bootstrap := bootstrap_call (roc_auc_score sklearn).

(** The shape shared by the five branches: the score on the data as read,
    then, in bootstrap mode, the interval around it. *)
Definition score_cell (point : result Q) (interval : IO (Q * Q)) : IO Cell :=
  score ← pure point;
  if bootstrap args then
    '(lo, hi) ← interval;
    mret (Interval lo score hi)
  else mret (Point score).

(** One round of [for score in scores]; a name that is none of the five
    adds nothing. *)
Definition score_branch (score : string) (y : list Z) (p : list Q)
    (pb : list Z) : IO (option Cell) :=
  if String.eqb score "precision" then
    c ← score_cell (precision_score sklearn y pb)
          (precision_bootstrap y pb (pvalue args) (iterations args));
    mret (Some c)
  else if String.eqb score "recall" then
    c ← score_cell (recall_score sklearn y pb)
          (recall_bootstrap y pb (pvalue args) (iterations args));
    mret (Some c)
  else if String.eqb score "f1" then
    c ← score_cell (f1_score sklearn y pb)
          (f1_bootstrap y pb (pvalue args) (iterations args));
    mret (Some c)
  else if String.eqb score "brier" then
    c ← score_cell (brier_score_loss y p None None)
          (brier_bootstrap y p (pvalue args) (iterations args));
    mret (Some c)
  else if String.eqb score "auc" then
    c ← score_cell (roc_auc_score sklearn y p)
          (roc_bootstrap y p (pvalue args) (iterations args));
    mret (Some c)
  else mret None.

Fixpoint score_loop (scores : list string) (y : list Z) (p : list Q)
    (pb : list Z) (cells : list Cell) : IO (list Cell) :=
  match scores with
  | [] => mret cells
  | score :: rest =>
      c ← score_branch score y p pb;
      score_loop rest y p pb (cells ++ option_list c)
  end.

(** The command that pools the predictions of a model and a predictor. *)
Definition aggregate_command (line : RankLine) : string :=
  "python utils/aggregate.py -B " +:+ base_dir args
    +:+ " -N " +:+ path_tail (mdl_str line) +:+ " -p " +:+ pred line.

(** The body of [for line in lines]: the [score_lines] so far go in and
    come out; [continue] returns them unchanged. *)
Definition rank_line (line : RankLine) (score_lines : list ScoreLine)
    : IO (list ScoreLine) :=
  if in_list (pred line) (excluded_predictors args) then mret score_lines
  else
    let idx := if String.eqb (index_mode args) "PRED" then pred line
               else find_index index_names (mdl_str line) "" in
    if negb (in_list idx index_names) then mret score_lines
    else if match extra_tests args with [] => false | _ => true end
            && extra_missing (extra_tests args) (mdl_str line)
    then mret score_lines
    else
      let vlist := split (vars line) ","%char in
      if Qle_bool (f1_min args) (f1_mean line) then
        _ ← os_system (aggregate_command line);
        let df := aggregate (aggregate_command line) in
        let y := df.*1 in
        let p := df.*2 in
        if len y =? 0 then mret score_lines
        else
          let pb := binarize p in
          acron ← pure (dict_get index_acron idx);
          labels ← pure (dict_get_all var_labels vlist);
          cells ← score_loop (scores args) y p pb [];
          mret (score_lines ++ [{| acronym := acron;
                                   variables := labels;
                                   cells := cells |}])
      else mret score_lines.

(** The scoring loop of the script over the lines of the ranking file:
    the lines of the score table. *)
Fixpoint rank_lines (lines : list RankLine) (score_lines : list ScoreLine)
    : IO (list ScoreLine) :=
  match lines with
  | [] => mret score_lines
  | line :: rest =>
      score_lines ← rank_line line score_lines;
      rank_lines rest score_lines
  end.

(** The guards that a ranking line passes before its F1 is looked at:
    none of the three [continue] statements fires. *)
Definition considered (line : RankLine) : bool :=
  negb (in_list (pred line) (excluded_predictors args))
  && in_list (if String.eqb (index_mode args) "PRED" then pred line
              else find_index index_names (mdl_str line) "") index_names
  && negb (match extra_tests args with [] => false | _ => true end
           && extra_missing (extra_tests args) (mdl_str line)).
End Main.

End AggregatedScores.

(** ** The scikit-learn metrics, from the specification *)

Module Metrics.
Import Np AggregatedScores.

(** The number of cases with true label [t] and predicted label [q]. *)
Definition cases (t q : Z) (y_true y_pred : list Z) : Z :=
  len (List.filter (fun c => (c.1 =? t) && (c.2 =? q)) (zip y_true y_pred)).

Definition hit := cases 1 1.
Definition false_alarm := cases 0 1.
Definition miss := cases 1 0.
Definition correct_rejection := cases 0 0.

(** [n / d], defined as 0 when the denominator is 0. *)
Definition ratio (n d : Z) : Q :=
  if d =? 0 then 0%Q else (inject_Z n / inject_Z d)%Q.

(** Modelled from the spec: [sklearn.metrics.precision_score], not part of
    the repository; "precision = hit/(hit+false_alarm) defined as 0 when
    denominator is 0 (never raises)". *)
Definition precision (y_true y_pred : list Z) : Q :=
  ratio (hit y_true y_pred) (hit y_true y_pred + false_alarm y_true y_pred).

(** Modelled from the spec: [sklearn.metrics.recall_score], not part of the
    repository; "recall = hit/(hit+miss) similarly defined as 0". *)
Definition recall (y_true y_pred : list Z) : Q :=
  ratio (hit y_true y_pred) (hit y_true y_pred + miss y_true y_pred).

(** Modelled from the spec: [sklearn.metrics.f1_score], not part of the
    repository; "F1 = harmonic mean, 0 when both precision and recall
    are 0". *)
Definition f1 (y_true y_pred : list Z) : Q :=
  let p := precision y_true y_pred in
  let r := recall y_true y_pred in
  if Qeq_bool (p + r) 0 then 0%Q else (2 * p * r / (p + r))%Q.

(** Modelled from the spec: [sklearn.metrics.roc_auc_score], not part of the
    repository; the chance that a positive case scores higher than a
    negative one, a tie counting for a half, and a failure when only one
    class is present. *)
Definition roc_auc (y_true : list Z) (y_prob : list Q) : result Q :=
  let data := zip y_true y_prob in
  let positives := (List.filter (fun c => c.1 =? 1) data).*2 in
  let negatives := (List.filter (fun c => negb (c.1 =? 1)) data).*2 in
  if (n_unique y_true <? 2)%nat then Raise ValueError
  else
    let wins := sumQ (a ← positives; b ← negatives;
                      [if Qltb b a then 1%Q
                       else if Qeq_bool a b then (1 # 2)%Q else 0%Q]) in
    Return (wins / inject_Z (len positives * len negatives))%Q.

Definition sklearn : Sklearn := {|
  precision_score := fun y_true y_pred => Return (precision y_true y_pred);
  recall_score := fun y_true y_pred => Return (recall y_true y_pred);
  f1_score := fun y_true y_pred => Return (f1 y_true y_pred);
  roc_auc_score := roc_auc
|}.

End Metrics.

(** ** eval.py *)

Module Eval.

(** The [eval] module of a predictor, as the averages use it: its [title],
    its [prefix], and what [eval(testfile, trainfile, pfile, method)]
    returns for the methods 1, 3, 4 and 5. *)
Record Predictor : Type := {
  title : string;
  prefix : string;
  (** calibration and discrimination *)
  eval_1 : string -> string -> string -> Q * Q;
  (** precision, recall and F1, each for the two classes *)
  eval_3 : string -> string -> string -> (Q * Q) * (Q * Q) * (Q * Q);
  (** area under the ROC curve *)
  eval_4 : string -> string -> string -> Q;
  (** hits, false alarms, misses, correct rejections *)
  eval_5 : string -> string -> string -> Z * Z * Z * Z
}.

(** The file system is the list of the paths that exist. *)
Definition exists_ (fs : list string) (path : string) : bool := in_list path fs.

Definition testing_prefix : string := "./data/testing-data-".

(** Whether a path matches [./data/testing-data-*.csv]; the star stands for
    any characters but the separator. *)
Definition is_testing_file (path : string) : bool :=
  let n := String.length path in
  let m := String.length testing_prefix in
  (m + 4 <=? n)%nat
  && String.prefix testing_prefix path
  && String.eqb (String.substring (n - 4) 4 path) ".csv"
  && negb (contains (String.substring m (n - 4 - m) path) "/").

(** [glob.glob("./data/testing-data-*.csv")] *)
Definition glob_testing (fs : list string) : list string :=
  List.filter is_testing_file fs.

(** [id], [pfile] and [trainfile] as every loop computes them. *)
Definition fold_id (testfile : string) : string :=
  let start_idx := find testfile testing_prefix
                   + Z.of_nat (String.length testing_prefix) in
  let stop_idx := find testfile ".csv" in
  slice testfile start_idx stop_idx.

Definition pfile_of (module : Predictor) (testfile : string) : string :=
  "./data/" +:+ prefix module +:+ "-params-" +:+ fold_id testfile.

Definition trainfile_of (testfile : string) : string :=
  "./data/training-data-completed-" +:+ fold_id testfile +:+ ".csv".

(** The test of every loop: the three files of the fold exist. *)
Definition usable (fs : list string) (module : Predictor) (testfile : string) : bool :=
  exists_ fs testfile
  && exists_ fs (pfile_of module testfile)
  && exists_ fs (trainfile_of testfile).

(** [total / count] on Python numbers.  A zero count divides the integer 0
    that the total still is, by the integer 0 or by the float 0.0: both
    raise [ZeroDivisionError]. *)
Definition divide (total : Q) (count : Z) : result Q :=
  if count =? 0 then Raise ZeroDivisionError
  else Return (total / inject_Z count)%Q.

(** Sum and quotient of the per-class arrays of the report. *)
Definition add2 (a b : Q * Q) : Q * Q := ((a.1 + b.1)%Q, (a.2 + b.2)%Q).

Definition divide2 (total : Q * Q) (count : Z) : result (Q * Q) :=
  a ← divide total.1 count;
  b ← divide total.2 count;
  Return (a, b).

Section Averages.
Variable fs : list string.
Variable module : Predictor.

(** The loop of [avg_cal_dis]: [(count, total_cal, total_dis)]. *)
Definition cal_dis_step (acc : Z * Q * Q) (testfile : string) : Z * Q * Q :=
  let '(count, total_cal, total_dis) := acc in
  if usable fs module testfile then
    let '(cal, dis) :=
      eval_1 module testfile (trainfile_of testfile) (pfile_of module testfile) in
    (count + 1, (total_cal + cal)%Q, (total_dis + dis)%Q)
  else acc.

Definition cal_dis_totals (test_files : list string) : Z * Q * Q :=
  foldl cal_dis_step (0, 0%Q, 0%Q) test_files.

(** The averages that [avg_cal_dis] prints. *)
Definition avg_cal_dis : result (Q * Q) :=
  let test_files := glob_testing fs in
  let '(count, total_cal, total_dis) := cal_dis_totals test_files in
  avg_cal ← divide total_cal count;
  avg_dis ← divide total_dis count;
  Return (avg_cal, avg_dis).

(** The loop of [avg_report]: [(count, total_prec, total_rec, total_f1)]. *)
Definition report_step (acc : Z * (Q * Q) * (Q * Q) * (Q * Q))
    (testfile : string) : Z * (Q * Q) * (Q * Q) * (Q * Q) :=
  let '(count, total_prec, total_rec, total_f1) := acc in
  if usable fs module testfile then
    let '(p, r, f) :=
      eval_3 module testfile (trainfile_of testfile) (pfile_of module testfile) in
    (count + 1, add2 total_prec p, add2 total_rec r, add2 total_f1 f)
  else acc.

Definition report_totals (test_files : list string)
    : Z * (Q * Q) * (Q * Q) * (Q * Q) :=
  foldl report_step (0, (0%Q, 0%Q), (0%Q, 0%Q), (0%Q, 0%Q)) test_files.

(** The averages that [avg_report] prints, per class. *)
Definition avg_report : result ((Q * Q) * (Q * Q) * (Q * Q)) :=
  let test_files := glob_testing fs in
  let '(count, total_prec, total_rec, total_f1) := report_totals test_files in
  avg_prec ← divide2 total_prec count;
  avg_rec ← divide2 total_rec count;
  avg_f1 ← divide2 total_f1 count;
  Return (avg_prec, avg_rec, avg_f1).

(** The loop of [roc_plots]: [(count, total_roc_auc)]. *)
Definition roc_step (acc : Z * Q) (testfile : string) : Z * Q :=
  let '(count, total_roc_auc) := acc in
  if usable fs module testfile then
    (count + 1,
     (total_roc_auc
      + eval_4 module testfile (trainfile_of testfile) (pfile_of module testfile))%Q)
  else acc.

Definition roc_totals (test_files : list string) : Z * Q :=
  foldl roc_step (0, 0%Q) test_files.

(** The average area that [roc_plots] prints. *)
Definition roc_plots : result Q :=
  let test_files := glob_testing fs in
  let '(count, total_roc_auc) := roc_totals test_files in
  divide total_roc_auc count.

(** The loop of [avg_conf_mat]: the count and the four totals. *)
Definition conf_mat_step (acc : Z * (Z * Z * Z * Z)) (testfile : string)
    : Z * (Z * Z * Z * Z) :=
  let '(count, (total_n_hit, total_n_false_alarm, total_n_miss, total_n_correct_rej)) := acc in
  if usable fs module testfile then
    let '(n_hit, n_false_alarm, n_miss, n_correct_rej) :=
      eval_5 module testfile (trainfile_of testfile) (pfile_of module testfile) in
    (count + 1,
     (total_n_hit + n_hit, total_n_false_alarm + n_false_alarm,
      total_n_miss + n_miss, total_n_correct_rej + n_correct_rej))
  else acc.

Definition conf_mat_totals (test_files : list string) : Z * (Z * Z * Z * Z) :=
  foldl conf_mat_step (0, (0, 0, 0, 0)) test_files.

(** The average confusion matrix that [avg_conf_mat] prints; the count is
    made a float before the division. *)
Definition avg_conf_mat : result (Q * Q * Q * Q) :=
  let test_files := glob_testing fs in
  let '(count, (total_n_hit, total_n_false_alarm, total_n_miss, total_n_correct_rej)) :=
    conf_mat_totals test_files in
  avg_n_hit ← divide (inject_Z total_n_hit) count;
  avg_n_false_alarm ← divide (inject_Z total_n_false_alarm) count;
  avg_n_miss ← divide (inject_Z total_n_miss) count;
  avg_n_correct_rej ← divide (inject_Z total_n_correct_rej) count;
  Return (avg_n_hit, avg_n_false_alarm, avg_n_miss, avg_n_correct_rej).
End Averages.

(** One call of [module.eval] with method 2: the three files of the fold and
    the two files to write. *)
Record PlotCall : Type := {
  plot_testfile : string;
  plot_trainfile : string;
  plot_pfile : string;
  out_file : string;
  plot_file : string
}.

(** What a method of [evaluate] works out before it prints. *)
Inductive Printed : Type :=
| PrintedCalDis (averages : Q * Q)
| PrintedCalPlots (calls : list PlotCall)
| PrintedReport (names : string * string) (averages : (Q * Q) * (Q * Q) * (Q * Q))
| PrintedRoc (average : Q)
| PrintedConfusion (names : string * string) (averages : Q * Q * Q * Q)
| PrintedMisses (count : Z).

Section Listings.
Variable fs : list string.
Variable module : Predictor.
(** [module.miss(testfile, trainfile, pfile)]: the misclassified cases. *)
Variable miss : string -> string -> string -> list Z.

(** The loop of [cal_plots]: the calls made so far. *)
Definition cal_plots_step (calls : list PlotCall) (testfile : string)
    : list PlotCall :=
  if usable fs module testfile then
    calls ++ [{| plot_testfile := testfile;
                 plot_trainfile := trainfile_of testfile;
                 plot_pfile := pfile_of module testfile;
                 out_file := "./out/calstats-" +:+ fold_id testfile +:+ ".txt";
                 plot_file := "./out/calplot-" +:+ fold_id testfile +:+ ".pdf" |}]
  else calls.

(** The calls that [cal_plots] makes, in order. *)
Definition cal_plots : list PlotCall :=
  foldl cal_plots_step [] (glob_testing fs).

(** The loop of [list_misses]: [count]. *)
Definition misses_step (count : Z) (testfile : string) : Z :=
  if usable fs module testfile then
    count + len (miss testfile (trainfile_of testfile) (pfile_of module testfile))
  else count.

(** The total that [list_misses] prints. *)
Definition list_misses : Z :=
  foldl misses_step 0 (glob_testing fs).
End Listings.

(** [if not os.path.exists("./out"): os.makedirs("./out")] *)
Definition make_out (fs : list string) : list string :=
  if exists_ fs "./out" then fs else fs ++ ["./out"].

(** The names of the two classes as the prints of [avg_report] read them
    from the labels file: [target_names[0]], then [target_names[1]]. *)
Definition report_names (target_names : list string) : result (string * string) :=
  first ← getitem target_names 0;
  second ← getitem target_names 1;
  Return (first, second).

(** The same names as the prints of [avg_conf_mat] read them:
    [target_names[1]], then [target_names[0]]. *)
Definition conf_mat_names (target_names : list string) : result (string * string) :=
  second ← getitem target_names 1;
  first ← getitem target_names 0;
  Return (first, second).

(** [evaluate].  [imported] is the outcome of [import_module] on the folder
    of the predictor: the module, with its [miss], or the exception of the
    import.  The method runs on the file system with [./out] in it; the
    averages of the report and of the confusion matrix are printed with the
    names of the classes; a method that is none of the six raises
    [Exception]. *)
Definition evaluate (fs : list string) (target_names : list string)
    (imported : result (Predictor * (string -> string -> string -> list Z)))
    (method : string) : result Printed :=
  '(module, miss) ← imported;
  let fs := make_out fs in
  if String.eqb method "caldis" then
    averages ← avg_cal_dis fs module; Return (PrintedCalDis averages)
  else if String.eqb method "calplot" then
    Return (PrintedCalPlots (cal_plots fs module))
  else if String.eqb method "report" then
    averages ← avg_report fs module;
    names ← report_names target_names;
    Return (PrintedReport names averages)
  else if String.eqb method "roc" then
    average ← roc_plots fs module; Return (PrintedRoc average)
  else if String.eqb method "confusion" then
    averages ← avg_conf_mat fs module;
    names ← conf_mat_names target_names;
    Return (PrintedConfusion names averages)
  else if String.eqb method "misses" then
    Return (PrintedMisses (list_misses fs module miss))
  else Raise "Exception".

End Eval.

(** ** The specification's wording, for comparison with the code *)

Module Spec.
Import Np.

Section Resampling.
Context {G : Type} `{RandomState G}.

(** "For each of K iterations, draw N indices": the K draws, in order. *)
Fixpoint draws (K : nat) (N : nat) (rng : G) : list (list Z) :=
  match K with
  | O => []
  | S k =>
      let '(indices, rng) := random_integers rng 0 (Z.of_nat N - 1) N in
      indices :: draws k N rng
  end.

(** "Build the resampled pair": the observations at the drawn indices. *)
Definition resample {A} (observations : list A) (indices : list Z) : list A :=
  omap (fun i => observations !! Z.to_nat i) indices.

(** "If the resample contains only one class, discard this iteration":
    a resample is kept when its labels show two classes or more. *)
Definition kept {A} `{EqDecision A} (y_true : list A) (indices : list Z) : bool :=
  (2 <=? n_unique (resample y_true indices))%nat.

(** "Otherwise evaluate score on the resample and record it." *)
Definition retained_scores {A B} `{EqDecision A} (score : list A -> list B -> Q)
    (y_true : list A) (y_pred : list B) (K : nat) (rng : G) : list Q :=
  map (fun indices => score (resample y_true indices) (resample y_pred indices))
      (List.filter (kept y_true) (draws K (length y_pred) rng)).
End Resampling.

(** The floor of a float that is finite and not negative. *)
Definition floor_of (x : float) : option nat :=
  match x with
  | Finite q => if Qle_bool 0 q then Some (Z.to_nat (Qfloor q)) else None
  | _ => None
  end.

(** "Sort all recorded scores ascending" and "return
    (sorted[floor(p M)], sorted[floor((1-p) M)])", M the number of scores,
    as the sentence reads: the products and the difference are exact. *)
Definition exact_interval (p : Q) (recorded : list Q) : option (Q * Q) :=
  let sorted := merge_sort Qle recorded in
  let M := inject_Z (Z.of_nat (length recorded)) in
  lo ← sorted !! Z.to_nat (Qfloor (p * M));
  hi ← sorted !! Z.to_nat (Qfloor ((1 - p) * M));
  Some (lo, hi).

(** The same sentence with the products and the difference rounded as
    floats round them before the floor is taken; nothing is returned when a
    position is not in the array. *)
Definition percentile_interval (p : Q) (recorded : list Q) : option (Q * Q) :=
  let sorted := merge_sort Qle recorded in
  let M := float_of_int (Z.of_nat (length recorded)) in
  i ← floor_of (float_mul (Finite p) M);
  lo ← sorted !! i;
  j ← floor_of (float_mul (float_sub (Finite 1) (Finite p)) M);
  hi ← sorted !! j;
  Some (lo, hi).

(** "After remapping to the designated positive label, default = the maximum
    label value present": 1 for the positive label, 0 for any other. *)
Definition mapped_labels (y_true : list Z) (pos_label : option Z) : list Z :=
  match pos_label, y_true with
  | Some l, _ => map (fun v => if v =? l then 1 else 0) y_true
  | None, [] => []
  | None, x :: rest =>
      map (fun v => if v =? foldr Z.max x rest then 1 else 0) y_true
  end.

(** A label after the mapping: 0 or 1. *)
Definition binary (v : Z) : Prop := v = 0 \/ v = 1.

(** "Fewer than two distinct true-label values are present, or any
    probability lies outside [0,1]." *)
Definition invalid_input (y_true : list Z) (y_prob : list Q)
    (pos_label : option Z) : Prop :=
  (n_unique (mapped_labels y_true pos_label) < 2)%nat
  \/ Exists (fun q => (q < 0)%Q \/ (1 < q)%Q) y_prob.

(** "Mean squared error between probability[i] and the binarized true
    label." *)
Definition mean_squared_difference (labels : list Z) (y_prob : list Q) : Q :=
  (sumQ (zip_with (fun q t => (q - inject_Z t) ^ 2) y_prob labels)
   / inject_Z (Z.of_nat (length y_prob)))%Q.

(** "The point estimate ... is always computed once on the original
    (non-resampled) data": the named metric on the columns as read, on the
    thresholded predictions for precision, recall and F1. *)
Definition point_estimate (sklearn : AggregatedScores.Sklearn) (score : string)
    (y : list Z) (p : list Q) : option (result Q) :=
  let pb := AggregatedScores.binarize p in
  if String.eqb score "precision"
  then Some (AggregatedScores.precision_score sklearn y pb)
  else if String.eqb score "recall"
  then Some (AggregatedScores.recall_score sklearn y pb)
  else if String.eqb score "f1"
  then Some (AggregatedScores.f1_score sklearn y pb)
  else if String.eqb score "brier"
  then Some (AggregatedScores.brier_score_loss y p None None)
  else if String.eqb score "auc"
  then Some (AggregatedScores.roc_auc_score sklearn y p)
  else None.

(** The middle value of a cell. *)
Definition reported (c : AggregatedScores.Cell) : Q :=
  match c with
  | AggregatedScores.Point score => score
  | AggregatedScores.Interval _ score _ => score
  end.

End Spec.

(** ** job.py *)

Module Job.

(** The settings of the script once the configuration file is read. *)
Record Config : Type := {
  total_sets : Z;
  test_prec : Z;
  max_restarts : Z;
  base_folder : string;
  var_file : string;
  predictors : list string;
  pred_options : gmap string string;
  impute_method : string;
  impute_fallback : string;
  impute_options : gmap string string
}.

(** How the imputation of a model ends: the loop is left with all the sets
    there, after [nrest] restarts of the last method, or the model is given
    up. *)
Inductive Imputed : Type :=
| Completed (nrest : Z)
| GivenUp.

(** The lines that [create_var_file] writes: the output variable, then the
    variables of the model, each with its type; a variable that
    [var_dict] does not know is a [KeyError]. *)
Fixpoint var_lines (var_dict : gmap string string) (vars : list string)
    : result (list string) :=
  match vars with
  | [] => Return []
  | v :: rest =>
      type ← dict_get var_dict v;
      lines ← var_lines var_dict rest;
      Return ((v +:+ " " +:+ type) :: lines)
  end.

Definition create_var_file (var_dict : gmap string string) (out_var : string)
    (mdl_vars : list string) : result (list string) :=
  type ← dict_get var_dict out_var;
  lines ← var_lines var_dict mdl_vars;
  Return ((out_var +:+ " " +:+ type) :: lines).

(** The settings before the configuration file is read. *)
Definition default_config : Config := {|
  total_sets := 100;
  test_prec := 60;
  max_restarts := 5;
  base_folder := "./";
  var_file := "./data/variables-master.txt";
  predictors := ["lreg"; "scikit_lreg"];
  pred_options := <["lreg" := ""]> (<["scikit_lreg" := ""]> ∅);
  impute_method := "hmisc";
  impute_fallback := "mice";
  impute_options := <["hmisc" := ""]> (<["mice" := ""]> ∅)
|}.

(** Assignment to one setting. *)
Definition with_total_sets (x : Z) (cfg : Config) : Config := {|
  total_sets := x;
  test_prec := test_prec cfg;
  max_restarts := max_restarts cfg;
  base_folder := base_folder cfg;
  var_file := var_file cfg;
  predictors := predictors cfg;
  pred_options := pred_options cfg;
  impute_method := impute_method cfg;
  impute_fallback := impute_fallback cfg;
  impute_options := impute_options cfg
|}.

Definition with_test_prec (x : Z) (cfg : Config) : Config := {|
  total_sets := total_sets cfg;
  test_prec := x;
  max_restarts := max_restarts cfg;
  base_folder := base_folder cfg;
  var_file := var_file cfg;
  predictors := predictors cfg;
  pred_options := pred_options cfg;
  impute_method := impute_method cfg;
  impute_fallback := impute_fallback cfg;
  impute_options := impute_options cfg
|}.

Definition with_max_restarts (x : Z) (cfg : Config) : Config := {|
  total_sets := total_sets cfg;
  test_prec := test_prec cfg;
  max_restarts := x;
  base_folder := base_folder cfg;
  var_file := var_file cfg;
  predictors := predictors cfg;
  pred_options := pred_options cfg;
  impute_method := impute_method cfg;
  impute_fallback := impute_fallback cfg;
  impute_options := impute_options cfg
|}.

Definition with_base_folder (x : string) (cfg : Config) : Config := {|
  total_sets := total_sets cfg;
  test_prec := test_prec cfg;
  max_restarts := max_restarts cfg;
  base_folder := x;
  var_file := var_file cfg;
  predictors := predictors cfg;
  pred_options := pred_options cfg;
  impute_method := impute_method cfg;
  impute_fallback := impute_fallback cfg;
  impute_options := impute_options cfg
|}.

Definition with_var_file (x : string) (cfg : Config) : Config := {|
  total_sets := total_sets cfg;
  test_prec := test_prec cfg;
  max_restarts := max_restarts cfg;
  base_folder := base_folder cfg;
  var_file := x;
  predictors := predictors cfg;
  pred_options := pred_options cfg;
  impute_method := impute_method cfg;
  impute_fallback := impute_fallback cfg;
  impute_options := impute_options cfg
|}.

Definition with_predictors (x : list string) (cfg : Config) : Config := {|
  total_sets := total_sets cfg;
  test_prec := test_prec cfg;
  max_restarts := max_restarts cfg;
  base_folder := base_folder cfg;
  var_file := var_file cfg;
  predictors := x;
  pred_options := pred_options cfg;
  impute_method := impute_method cfg;
  impute_fallback := impute_fallback cfg;
  impute_options := impute_options cfg
|}.

Definition with_pred_options (x : gmap string string) (cfg : Config) : Config := {|
  total_sets := total_sets cfg;
  test_prec := test_prec cfg;
  max_restarts := max_restarts cfg;
  base_folder := base_folder cfg;
  var_file := var_file cfg;
  predictors := predictors cfg;
  pred_options := x;
  impute_method := impute_method cfg;
  impute_fallback := impute_fallback cfg;
  impute_options := impute_options cfg
|}.

Definition with_impute_method (x : string) (cfg : Config) : Config := {|
  total_sets := total_sets cfg;
  test_prec := test_prec cfg;
  max_restarts := max_restarts cfg;
  base_folder := base_folder cfg;
  var_file := var_file cfg;
  predictors := predictors cfg;
  pred_options := pred_options cfg;
  impute_method := x;
  impute_fallback := impute_fallback cfg;
  impute_options := impute_options cfg
|}.

Definition with_impute_fallback (x : string) (cfg : Config) : Config := {|
  total_sets := total_sets cfg;
  test_prec := test_prec cfg;
  max_restarts := max_restarts cfg;
  base_folder := base_folder cfg;
  var_file := var_file cfg;
  predictors := predictors cfg;
  pred_options := pred_options cfg;
  impute_method := impute_method cfg;
  impute_fallback := x;
  impute_options := impute_options cfg
|}.

Definition with_impute_options (x : gmap string string) (cfg : Config) : Config := {|
  total_sets := total_sets cfg;
  test_prec := test_prec cfg;
  max_restarts := max_restarts cfg;
  base_folder := base_folder cfg;
  var_file := var_file cfg;
  predictors := predictors cfg;
  pred_options := pred_options cfg;
  impute_method := impute_method cfg;
  impute_fallback := impute_fallback cfg;
  impute_options := x
|}.

Section LoadConfig.
(** [int(value)] on the text of a setting. *)
Variable int_of_string : string -> result Z.

(** One round of the loop over the lines of the configuration file. *)
Definition config_line (cfg : Config) (line : string) : result Config :=
  let line := strip line in
  if String.eqb line "" then Return cfg
  else
    match split_once line "="%char with
    | [key; value] =>
        if String.eqb key "total_sets" then
          n ← int_of_string value; Return (with_total_sets n cfg)
        else if String.eqb key "test_prec" then
          n ← int_of_string value; Return (with_test_prec n cfg)
        else if String.eqb key "max_restarts" then
          n ← int_of_string value; Return (with_max_restarts n cfg)
        else if String.eqb key "base_folder" then Return (with_base_folder value cfg)
        else if String.eqb key "var_file" then Return (with_var_file value cfg)
        else if String.eqb key "predictors" then
          Return (with_predictors (split value ","%char) cfg)
        else if contains key "pred_options" then
          pred ← getitem (split key "."%char) 1;
          Return (with_pred_options (<[pred := value]> (pred_options cfg)) cfg)
        else if String.eqb key "impute_method" then Return (with_impute_method value cfg)
        else if String.eqb key "impute_fallback" then
          Return (with_impute_fallback value cfg)
        else if contains key "impute_options" then
          imp ← getitem (split key "."%char) 1;
          Return (with_impute_options (<[imp := value]> (impute_options cfg)) cfg)
        else Return cfg
    | _ => Raise ValueError
    end.

Fixpoint load_config (lines : list string) (cfg : Config) : result Config :=
  match lines with
  | [] => Return cfg
  | line :: rest =>
      cfg ← config_line cfg line;
      load_config rest cfg
  end.
End LoadConfig.

(** One round of the loop over the lines of the job file: the identifier of
    a model and its variables, or nothing for a blank line. *)
Definition job_line (line : string) : result (option (string * list string)) :=
  let line := strip line in
  if String.eqb line "" then Return None
  else
    match split line " "%char with
    | [id; vars] => Return (Some (id, split vars ","%char))
    | _ => Raise ValueError
    end.

Fixpoint load_jobs (lines : list string) : result (list (string * list string)) :=
  match lines with
  | [] => Return []
  | line :: rest =>
      job ← job_line line;
      jobs ← load_jobs rest;
      Return (match job with
              | Some job => job :: jobs
              | None => jobs
              end)
  end.

Section RunModel.
Variable cfg : Config.
(** [get_last(name)] on the files that the commands run so far have left. *)
Variable get_last : World -> string -> result Z.
(** The lines of a report file, when the file exists. *)
Variable report_lines : World -> string -> option (list string).

(** The command of [worker]. *)
Definition init_command (name : string) (count first : Z) (imeth options : string)
    : string :=
  "python init.py -B " +:+ base_folder cfg +:+ " -N " +:+ name
    +:+ " -n " +:+ pretty count +:+ " -s " +:+ pretty first
    +:+ " -t " +:+ pretty (test_prec cfg) +:+ " -m " +:+ imeth +:+ " " +:+ options.

(** The thread of [worker], run to its end: an exception in the thread (the
    method has no options) ends the thread alone, and no command is run. *)
Definition worker (name : string) (count first : Z) (imeth : string) : IO unit :=
  match impute_options cfg !! imeth with
  | Some options => os_system (init_command name count first imeth options)
  | None => mret tt
  end.

(** The [while True] loop of [run_model], for at most [fuel] rounds. *)
Fixpoint impute (fuel : nat) (mdl_id imeth : string) (start count nrest : Z)
    : IO (option Imputed) :=
  match fuel with
  | O => mret None
  | S fuel =>
      _ ← worker mdl_id count start imeth;
      n ← (fun w => (get_last w mdl_id, w));
      if n <? total_sets cfg - 1 then
        if nrest <? max_restarts cfg then
          let start := n + 1 in
          let count := total_sets cfg - start in
          impute fuel mdl_id imeth start count (nrest + 1)
        else if negb (String.eqb (impute_fallback cfg) "")
                && negb (String.eqb imeth (impute_fallback cfg)) then
          impute fuel mdl_id (impute_fallback cfg) 0 (total_sets cfg) 0
        else mret (Some GivenUp)
      else mret (Some (Completed nrest))
  end.

(** The report file of a predictor. *)
Definition report_file (mdl_id pred_name : string) : string :=
  base_folder cfg +:+ "/models/" +:+ mdl_id +:+ "/report-" +:+ pred_name +:+ ".out".

Definition train_command (mdl_id pred_name pred_opt : string) : string :=
  "python train.py -B " +:+ base_folder cfg +:+ " -N " +:+ mdl_id
    +:+ " " +:+ pred_name +:+ " " +:+ pred_opt.

Definition eval_command (mdl_id pred_name : string) : string :=
  "python eval.py -B " +:+ base_folder cfg +:+ " -N " +:+ mdl_id
    +:+ " -p " +:+ pred_name +:+ " -m report > " +:+ report_file mdl_id pred_name.

(** One round of [for pred_name in predictors]. *)
Definition train_predictor (mdl_id pred_name : string) : IO unit :=
  pred_opt ← pure (dict_get (pred_options cfg) pred_name);
  found ← (fun w => (Return (report_lines w (report_file mdl_id pred_name)), w));
  match found with
  | Some (_ :: _) => mret tt
  | _ =>
      _ ← os_system (train_command mdl_id pred_name pred_opt);
      os_system (eval_command mdl_id pred_name)
  end.

Fixpoint train_predictors (mdl_id : string) (pred_names : list string) : IO unit :=
  match pred_names with
  | [] => mret tt
  | pred_name :: rest =>
      _ ← train_predictor mdl_id pred_name;
      train_predictors mdl_id rest
  end.

(** [run_model]: the variable file, the imputation unless the sets are all
    there, then the predictors unless the model was given up.  The answer is
    [None] when the rounds allowed were not enough. *)
Definition run_model (fuel : nat) (var_dict : gmap string string)
    (out_var mdl_id : string) (mdl_vars : list string) : IO (option Imputed) :=
  _ ← pure (create_var_file var_dict out_var mdl_vars);
  n ← (fun w => (get_last w mdl_id, w));
  imputed ← (if n + 1 =? total_sets cfg then mret (Some (Completed 0))
             else impute fuel mdl_id (impute_method cfg) (n + 1)
                    (total_sets cfg - (n + 1)) 0);
  match imputed with
  | Some (Completed _) => _ ← train_predictors mdl_id (predictors cfg); mret imputed
  | _ => mret imputed
  end.

(** The loop over the models of the job. *)
Fixpoint run_models (fuel : nat) (var_dict : gmap string string) (out_var : string)
    (jobs : list (string * list string)) : IO (option (list Imputed)) :=
  match jobs with
  | [] => mret (Some [])
  | (id, vars) :: rest =>
      imputed ← run_model fuel var_dict out_var id vars;
      match imputed with
      | None => mret None
      | Some imputed =>
          others ← run_models fuel var_dict out_var rest;
          mret (cons imputed <$> others)
      end
  end.
End RunModel.

End Job.

(** ** Notions used in the statements *)

Module Notions.
Import Np.

(** A recorded score: the score function on the labels and predictions at
    one array of as many indices as there are cases, the labels showing two
    classes or more. *)
Definition from_two_classes {A B} `{EqDecision A}
    (score_fun : list A -> list B -> result Q)
    (y_true : list A) (y_pred : list B) (s : Q) : Prop :=
  exists indices resampled_true resampled_pred,
    take_indices y_true indices = Return resampled_true
    /\ take_indices y_pred indices = Return resampled_pred
    /\ length indices = length y_pred
    /\ (2 <= n_unique resampled_true)%nat
    /\ score_fun resampled_true resampled_pred = Return s.

(** The number of samples of an argument of [check_consistent_length], when
    [_num_samples] gives one. *)
Definition samples (X : AggregatedScores.ArrayLike) : option nat :=
  match AggregatedScores._num_samples X with
  | Return n => Some n
  | Raise _ => None
  end.

(** Whether a character occurs in a string. *)
Fixpoint has_char (c : ascii) (s : string) : bool :=
  match s with
  | EmptyString => false
  | String c' s' => Ascii.eqb c c' || has_char c s'
  end.

(** The name and the label that a line of the alias file gives, when it has
    a space once stripped. *)
Definition alias_entry (line : string) : option (string * string) :=
  match split_once (strip line) " "%char with
  | name :: label :: _ => Some (name, label)
  | _ => None
  end.

(** The fields of a line of the options file. *)
Definition option_fields (line : string) : list string :=
  split (strip line) ","%char.

(** The pieces of a path put together with a separator between them. *)
Fixpoint join (sep : ascii) (pieces : list string) : string :=
  match pieces with
  | [] => EmptyString
  | [piece] => piece
  | piece :: rest => piece +:+ String sep (join sep rest)
  end.

(** Whether the imputation can still change to the fallback method. *)
Definition can_fall_back (cfg : Job.Config) (imeth : string) : bool :=
  negb (String.eqb (Job.impute_fallback cfg) "")
  && negb (String.eqb imeth (Job.impute_fallback cfg)).

(** The rounds that the imputation loop can still make: the restarts left
    for the method at hand and its first run, and as much again for the
    fallback method when there is one to change to. *)
Definition rounds_left (cfg : Job.Config) (imeth : string) (nrest : Z) : nat :=
  (Z.to_nat (Job.max_restarts cfg - nrest) + 1
   + if can_fall_back cfg imeth
     then Z.to_nat (Job.max_restarts cfg) + 1 else 0)%nat.

(** A command of the imputation of a model with a given method: it asks for
    the sets from [first] to the last one. *)
Definition init_request (cfg : Job.Config) (mdl_id imeth cmd : string) : Prop :=
  exists first options,
    Job.impute_options cfg !! imeth = Some options
    /\ cmd = Job.init_command cfg mdl_id (Job.total_sets cfg - first) first
               imeth options.

(** Whether a predictor has an entry in [pred_options]. *)
Definition has_options (cfg : Job.Config) (pred_name : string) : bool :=
  match Job.pred_options cfg !! pred_name with
  | Some _ => true
  | None => false
  end.

(** Whether the report of a predictor is there, with a line at least. *)
Definition has_report (cfg : Job.Config)
    (report_lines : World -> string -> option (list string))
    (mdl_id : string) (w : World) (pred_name : string) : bool :=
  match report_lines w (Job.report_file cfg mdl_id pred_name) with
  | Some (_ :: _) => true
  | _ => false
  end.

(** The two commands that train a predictor, given with its options, on a
    model and write its report. *)
Definition training (cfg : Job.Config) (mdl_id : string)
    (trained : string * string) : list string :=
  [Job.train_command cfg mdl_id trained.1 trained.2;
   Job.eval_command cfg mdl_id trained.1].

(** A command of the imputation of a model, with the configured method or
    with the fallback. *)
Definition init_request_any (cfg : Job.Config) (mdl_id cmd : string) : Prop :=
  init_request cfg mdl_id (Job.impute_method cfg) cmd
  \/ init_request cfg mdl_id (Job.impute_fallback cfg) cmd.

(** The key of a line of the configuration file: what comes before the
    first equals sign. *)
Definition config_key (line : string) : string :=
  List.hd EmptyString (split_once (strip line) "="%char).

(** The predictor whose options a line of the configuration file gives. *)
Definition options_given_to (line : string) : option string :=
  if contains (config_key line) "pred_options"
  then split (config_key line) "."%char !! 1%nat
  else None.

(** Whether a string has a character that [strip] removes. *)
Fixpoint has_space (s : string) : bool :=
  match s with
  | EmptyString => false
  | String c s' => is_space c || has_space s'
  end.

(** Whether a string is made of such characters alone. *)
Fixpoint all_space (s : string) : bool :=
  match s with
  | EmptyString => true
  | String c s' => is_space c && all_space s'
  end.

(** How many times a character occurs in a string. *)
Fixpoint count_char (c : ascii) (s : string) : nat :=
  match s with
  | EmptyString => 0%nat
  | String c' s' => ((if Ascii.eqb c c' then 1 else 0) + count_char c s')%nat
  end.

(** A line that the job file may have: blank, or with one space once
    stripped. *)
Definition job_line_ok (line : string) : bool :=
  String.eqb (strip line) EmptyString
  || (count_char " "%char (strip line) =? 1)%nat.

(** The commands that one model can take at most. *)
Definition commands_per_model (cfg : Job.Config) : nat :=
  (2 * (Z.to_nat (Job.max_restarts cfg) + 1) + 2 * length (Job.predictors cfg))%nat.

(** The methods that [evaluate] knows. *)
Definition methods : list string :=
  ["caldis"; "calplot"; "report"; "roc"; "confusion"; "misses"].

(** The methods that print the names of the classes. *)
Definition naming_methods : list string := ["report"; "confusion"].

(** How [evaluate] fails, if it does, once the module is imported: on a
    method that it does not know, on the division when no fold has its
    three files, on the names of the classes when the labels file gives
    fewer than two. *)
Definition failure (fs : list string) (module : Eval.Predictor)
    (target_names : list string) (method : string) : option string :=
  if negb (in_list method methods) then Some "Exception"
  else if in_list method ["caldis"; "report"; "roc"; "confusion"]
          && forallb (fun t => negb (Eval.usable fs module t)) (Eval.glob_testing fs)
  then Some ZeroDivisionError
  else if in_list method naming_methods && (length target_names <? 2)%nat
  then Some IndexError
  else None.

(** The methods that divide by the number of usable folds. *)
Definition averaging_methods : list string :=
  ["caldis"; "report"; "roc"; "confusion"].

(** A score name that has a branch in the scoring loop. *)
Definition recognised (score : string) : bool :=
  in_list score ["precision"; "recall"; "f1"; "brier"; "auc"].

(** The generators that the operating system seeds for one cell. *)
Definition generators_per_cell (args : AggregatedScores.Args) : nat :=
  if AggregatedScores.bootstrap args then 1%nat else 0%nat.

(** A ranking line whose predictions are pooled: it passes the guards and
    the test on [f1_min]. *)
Definition passes (args : AggregatedScores.Args) (index_names : list string)
    (line : AggregatedScores.RankLine) : bool :=
  AggregatedScores.considered args index_names line
  && Qle_bool (AggregatedScores.f1_min args) (AggregatedScores.f1_mean line).

(** A ranking line that gets a row in the score table: it passes, and its
    pooled predictions have at least one row. *)
Definition scored (aggregate : string -> list (Z * Q))
    (args : AggregatedScores.Args) (index_names : list string)
    (line : AggregatedScores.RankLine) : bool :=
  passes args index_names line
  && negb (len (aggregate (AggregatedScores.aggregate_command args line)).*1 =? 0).

End Notions.

(** ** Sample data *)

Module Examples.
Import Eval.

(** A predictor whose evaluation gives the same numbers on every fold. *)
Definition nnet : Predictor := {|
  title := "Neural Network";
  prefix := "nnet";
  eval_1 := fun _ _ _ => (1%Q, 3%Q);
  eval_3 := fun _ _ _ => ((1%Q, 1%Q), (1%Q, 0%Q), (1%Q, 0%Q));
  eval_4 := fun _ _ _ => 1%Q;
  eval_5 := fun _ _ _ => (4, 1, 2, 3)
|}.

(** Three folds; the second has no parameter file. *)
Definition three_folds : list string := [
  "./data/testing-data-1.csv"; "./data/nnet-params-1";
  "./data/training-data-completed-1.csv";
  "./data/testing-data-2.csv";
  "./data/training-data-completed-2.csv";
  "./data/testing-data-3.csv"; "./data/nnet-params-3";
  "./data/training-data-completed-3.csv"
].

(** One fold, without its parameter file. *)
Definition no_params : list string := [
  "./data/testing-data-1.csv"; "./data/training-data-completed-1.csv"
].

(** Two cases, one of each class, the probabilities right. *)
Definition two_cases_true : list Z := [0; 1].
Definition two_cases_prob : list Q := [0%Q; 1%Q].

(** Brier score with the default weights and positive label. *)
Definition brier (y_true : list Z) (y_prob : list Q) : result Q :=
  AggregatedScores.brier_score_loss y_true y_prob None None.

(** A ranking line whose F1 is the default threshold. *)
Definition line_at_threshold : AggregatedScores.RankLine := {|
  AggregatedScores.mdl_str := "/models/12";
  AggregatedScores.pred := "nnet";
  AggregatedScores.vars := "AGE,TEMP";
  AggregatedScores.f1_mean := 0.9%Q;
  AggregatedScores.f1_std := 0.05%Q
|}.

(** The default command line, the Brier score alone, with or without
    bootstrap. *)
Definition brier_args (bootstrap : bool) : AggregatedScores.Args := {|
  AggregatedScores.index_mode := "PRED";
  AggregatedScores.base_dir := "./";
  AggregatedScores.scores := ["brier"];
  AggregatedScores.f1_min := 0.9%Q;
  AggregatedScores.extra_tests := split "" ","%char;
  AggregatedScores.excluded_predictors := split "lreg,scikit_randf" ","%char;
  AggregatedScores.confidence := 95%Q;
  AggregatedScores.iterations := 4;
  AggregatedScores.bootstrap := bootstrap
|}.

Definition var_labels : gmap string string :=
  <["AGE" := "Age"]> (<["TEMP" := "Temperature"]> ∅).
Definition index_names : list string := ["nnet"].
Definition index_acron : gmap string string := <["nnet" := "NN"]> ∅.

(** Pooled predictions: three rows, or none. *)
Definition three_rows (cmd : string) : list (Z * Q) :=
  [(0, 0%Q); (1, 1%Q); (1, 0.5%Q)].
Definition no_rows (cmd : string) : list (Z * Q) := [].

(** Generators that replay a fixed tape, whatever the call. *)
Definition tape_a (n : nat) : list Z := [0; 1; 2; 1; 1; 1; 2; 0; 0; 1; 0; 2].
Definition tape_b (n : nat) : list Z := [2; 0; 1; 0; 0; 1; 1; 2; 0; 2; 2; 2].

Definition start : World := {| commands := []; generators := 0 |}.

(** The error rate of the default confidence: the float [1.0 - 95 / 100.0],
    a little above 0.05. *)
Definition five_percent : Q := AggregatedScores.pvalue AggregatedScores.default_args.

(** The error rate of [-c 90]: the float [1.0 - 90 / 100.0], a little below
    0.1. *)
Definition ten_percent : Q :=
  AggregatedScores.pvalue {|
    AggregatedScores.index_mode := "PRED";
    AggregatedScores.base_dir := "./";
    AggregatedScores.scores := ["brier"];
    AggregatedScores.f1_min := 0.9%Q;
    AggregatedScores.extra_tests := split "" ","%char;
    AggregatedScores.excluded_predictors := split "lreg,scikit_randf" ","%char;
    AggregatedScores.confidence := 90%Q;
    AggregatedScores.iterations := 10;
    AggregatedScores.bootstrap := true
  |}.

(** A tape of twenty draws of three cases: nineteen times the cases 0, 1
    and 1, then once the cases 0, 2 and 2. *)
Definition tape_c : list Z := concat (replicate 19 [0; 1; 1]) ++ [0; 2; 2].

(** An error rate of 2^-54. *)
Definition tiny_rate : Q := 1 # 18014398509481984.

(** A ranking line whose model path has no empty piece. *)
Definition clean_line : AggregatedScores.RankLine := {|
  AggregatedScores.mdl_str := "models/12";
  AggregatedScores.pred := "nnet";
  AggregatedScores.vars := "AGE,TEMP";
  AggregatedScores.f1_mean := 0.95%Q;
  AggregatedScores.f1_std := 0.01%Q
|}.

(** A job configuration with two sets and one restart. *)
Definition small_cfg : Job.Config :=
  Job.with_total_sets 2 (Job.with_max_restarts 1 Job.default_config).

(** Runs of [init.py] that leave one set more each. *)
Definition one_set_each (w : World) (name : string) : result Z :=
  Return (len (commands w) - 1).

(** No report anywhere. *)
Definition no_reports (w : World) (file : string) : option (list string) := None.

(** Two variables and their types. *)
Definition var_dict : gmap string string :=
  <["OUT" := "category"]> (<["AGE" := "int"]> ∅).

(** [int] on numerals made of digits alone. *)
Fixpoint digits (s : string) (acc : Z) : result Z :=
  match s with
  | EmptyString => Return acc
  | String c s' =>
      let d := Z.of_nat (nat_of_ascii c) - 48 in
      if (0 <=? d) && (d <=? 9) then digits s' (10 * acc + d) else Raise ValueError
  end.

Definition decimal (s : string) : result Z :=
  match s with
  | EmptyString => Raise ValueError
  | _ => digits s 0
  end.

(** A configuration file that sets the number of sets and the options of
    one more predictor, and the settings it gives. *)
Definition cfg_lines : list string :=
  ["total_sets=10"; ""; "pred_options.nnet=-x 1"].
Definition cfg_loaded : Job.Config :=
  Job.with_pred_options (<["nnet" := "-x 1"]> (Job.pred_options Job.default_config))
    (Job.with_total_sets 10 Job.default_config).

(** A configuration file that names a predictor and gives it no options. *)
Definition cfg_lines_nnet : list string := ["predictors=nnet,lreg"].
Definition cfg_loaded_nnet : Job.Config :=
  Job.with_predictors ["nnet"; "lreg"] Job.default_config.

(** The end of a line. *)
Definition line_feed : string := String (ascii_of_nat 10) EmptyString.

End Examples.

(** * Properties *)

Import Np AggregatedScores.
Import Spec (binary).

#[local] Instance Qle_total : Total Qle.
Proof.
  intros x y. destruct (Qlt_le_dec x y) as [Hlt | Hle].
  - left. apply Qlt_le_weak. exact Hlt.
  - right. exact Hle.
Qed.

#[local] Instance Qle_transitive : Transitive Qle.
Proof. intros x y z. apply Qle_trans. Qed.

(** ** The runtime *)

Lemma py_int_floor (x : Q) : (0 <= x)%Q -> py_int x = Qfloor x.
Proof.
  destruct x as [n d]. unfold Qle, py_int, Qfloor. simpl. intros Hn.
  apply Z.quot_div_nonneg; lia.
Qed.

Lemma py_int_nonneg (x : Q) : (0 <= x)%Q -> 0 <= py_int x.
Proof.
  intros Hx. rewrite py_int_floor by exact Hx.
  change 0 with (Qfloor 0). apply Qfloor_resp_le. exact Hx.
Qed.

Lemma py_int_below (x : Q) (M : Z) :
  (0 <= x)%Q -> (x < inject_Z M)%Q -> py_int x < M.
Proof.
  intros Hx Hlt. rewrite py_int_floor by exact Hx.
  rewrite Zlt_Qlt. eapply Qle_lt_trans; [apply Qfloor_le | exact Hlt].
Qed.

Lemma py_int_mono (x y : Q) : (0 <= x)%Q -> (x <= y)%Q -> py_int x <= py_int y.
Proof.
  intros Hx Hxy. rewrite !py_int_floor.
  - apply Qfloor_resp_le. exact Hxy.
  - eapply Qle_trans; eassumption.
  - exact Hx.
Qed.

(** ** Floats *)

Section FloatProperties.
Local Open Scope Q_scope.


Lemma pow2_pos (e : Z) : 0 < pow2 e.
Proof. apply Qpower_0_lt. reflexivity. Qed.

Lemma pow2_le (a b : Z) : (a <= b)%Z -> pow2 a <= pow2 b.
Proof. intros H. apply Qpower_le_compat_l; [exact H | discriminate]. Qed.

Lemma pow2_lt_inv (a b : Z) : pow2 a < pow2 b -> (a < b)%Z.
Proof. intros H. apply (Qpower_lt_compat_l_inv 2); [exact H | reflexivity]. Qed.

Lemma pow2_add (a b : Z) : pow2 (a + b) == pow2 a * pow2 b.
Proof. apply Qpower_plus. discriminate. Qed.

Lemma pow2_sub (a b : Z) : pow2 (a - b) == pow2 a / pow2 b.
Proof. apply Qpower_minus. discriminate. Qed.

Lemma pow2_int (e : Z) : (0 <= e)%Z -> pow2 e == inject_Z (2 ^ e).
Proof. intros H. symmetry. apply (Zpower_Qpower 2 e H). Qed.

Lemma pow2_succ (e : Z) : pow2 (e + 1) == 2 * pow2 e.
Proof. rewrite pow2_add. change (pow2 1) with 2. ring. Qed.

(** The exponent of a positive number. *)
Lemma ilog2_spec (q : Q) : 0 < q -> pow2 (ilog2 q) <= q /\ q < pow2 (ilog2 q + 1).
Proof.
  intros Hq. unfold ilog2.
  destruct q as [n d]. cbn [Qnum Qden].
  assert (Hn : (0 < n)%Z) by (unfold Qlt in Hq; cbn in Hq; lia).
  set (a := Z.log2 n). set (b := Z.log2 (Z.pos d)).
  assert (Ha : (2 ^ a <= n < 2 ^ (a + 1))%Z).
  { destruct (Z.log2_spec n Hn) as [H1 H2]. fold a in H1, H2.
    rewrite <- Z.add_1_r in H2. lia. }
  assert (Hb : (2 ^ b <= Z.pos d < 2 ^ (b + 1))%Z).
  { destruct (Z.log2_spec (Z.pos d) eq_refl) as [H1 H2]. fold b in H1, H2.
    rewrite <- Z.add_1_r in H2. lia. }
  assert (Ha0 : (0 <= a)%Z) by apply Z.log2_nonneg.
  assert (Hb0 : (0 <= b)%Z) by apply Z.log2_nonneg.
  rewrite !Z.pow_add_r, Z.pow_1_r in Ha, Hb by lia.
  assert (HA : (0 < 2 ^ a)%Z) by (apply Z.pow_pos_nonneg; lia).
  assert (HB : (0 < 2 ^ b)%Z) by (apply Z.pow_pos_nonneg; lia).
  assert (Hk : forall j, pow2 (a - b + j) == inject_Z (2 ^ a) / inject_Z (2 ^ b) * pow2 j).
  { intros j. rewrite pow2_add, pow2_sub, !pow2_int by lia. reflexivity. }
  assert (Hq' : n # d == inject_Z n / inject_Z (Z.pos d)) by apply Qmake_Qdiv.
  assert (HBq : 0 < inject_Z (2 ^ b))
    by (change 0 with (inject_Z 0); rewrite <- Zlt_Qlt; exact HB).
  assert (HDq : 0 < inject_Z (Z.pos d)) by reflexivity.
  assert (HBne : ~ inject_Z (2 ^ b) == 0) by lra.
  assert (Hup : n # d < inject_Z (2 ^ a) / inject_Z (2 ^ b) * 2).
  { rewrite Hq'. apply Qlt_shift_div_r; [exact HDq |].
    setoid_replace (inject_Z (2 ^ a) / inject_Z (2 ^ b) * 2 * inject_Z (Z.pos d))
      with (inject_Z (2 ^ a) * 2 * inject_Z (Z.pos d) / inject_Z (2 ^ b))
      using relation Qeq by (field; exact HBne).
    apply Qlt_shift_div_l; [exact HBq |].
    change 2 with (inject_Z 2). rewrite <- !inject_Z_mult.
    rewrite <- Zlt_Qlt. nia. }
  assert (Hlow : inject_Z (2 ^ a) / inject_Z (2 ^ b) * (1 # 2) <= n # d).
  { rewrite Hq'. apply Qle_shift_div_l; [exact HDq |].
    setoid_replace (inject_Z (2 ^ a) / inject_Z (2 ^ b) * (1 # 2) * inject_Z (Z.pos d))
      with (inject_Z (2 ^ a) * inject_Z (Z.pos d) / (inject_Z 2 * inject_Z (2 ^ b)))
      using relation Qeq by (change (inject_Z 2) with 2; field; exact HBne).
    apply Qle_shift_div_r; [change (inject_Z 2) with 2; lra |].
    rewrite Qmult_assoc. rewrite <- !inject_Z_mult.
    rewrite <- Zle_Qle. nia. }
  destruct (Qle_bool (pow2 (a - b)) (n # d)) eqn:E.
  - apply Qle_bool_iff in E. split; [exact E |].
    rewrite Hk. change (pow2 1) with 2. exact Hup.
  - assert (Hlt : n # d < pow2 (a - b)).
    { apply Qnot_le_lt. intros Hle. apply Qle_bool_iff in Hle. congruence. }
    split.
    + replace (a - b - 1)%Z with (a - b + -1)%Z by lia. rewrite Hk.
      change (pow2 (-1)) with (1 # 2). exact Hlow.
    + replace (a - b - 1 + 1)%Z with (a - b)%Z by lia. exact Hlt.
Qed.

Lemma ilog2_below (q : Q) (j : Z) : 0 < q -> q < pow2 (j + 1) -> (ilog2 q <= j)%Z.
Proof.
  intros Hq Hlt. destruct (ilog2_spec q Hq) as [Hlow _].
  assert (H : pow2 (ilog2 q) < pow2 (j + 1)) by (eapply Qle_lt_trans; eassumption).
  apply pow2_lt_inv in H. lia.
Qed.

Lemma ilog2_above (q : Q) (j : Z) : 0 < q -> pow2 j <= q -> (j <= ilog2 q)%Z.
Proof.
  intros Hq Hle. destruct (ilog2_spec q Hq) as [_ Hup].
  assert (H : pow2 j < pow2 (ilog2 q + 1)) by (eapply Qle_lt_trans; eassumption).
  apply pow2_lt_inv in H. lia.
Qed.

Lemma ilog2_mono (a b : Q) : 0 < a -> a <= b -> (ilog2 a <= ilog2 b)%Z.
Proof.
  intros Ha Hab. apply ilog2_above.
  - eapply Qlt_le_trans; eassumption.
  - destruct (ilog2_spec a Ha) as [Hlow _]. eapply Qle_trans; eassumption.
Qed.

(** Rounding to the nearest integer. *)
Lemma round_half_even_near (x : Q) :
  inject_Z (round_half_even x) - (1 # 2) <= x
  /\ x <= inject_Z (round_half_even x) + (1 # 2).
Proof.
  unfold round_half_even.
  pose proof (Qfloor_le x) as Hlo. pose proof (Qlt_floor x) as Hhi.
  rewrite inject_Z_plus in Hhi. change (inject_Z 1) with 1 in Hhi.
  destruct (Qcompare_spec (x - inject_Z (Qfloor x)) (1 # 2)) as [H | H | H].
  - destruct (Z.even (Qfloor x)); [| rewrite inject_Z_plus; change (inject_Z 1) with 1];
      lra.
  - lra.
  - rewrite inject_Z_plus. change (inject_Z 1) with 1. lra.
Qed.

Lemma round_half_even_int (x : Q) (z : Z) : x == inject_Z z -> round_half_even x = z.
Proof.
  intros H. unfold round_half_even.
  rewrite (Qfloor_comp _ _ H), Qfloor_Z.
  destruct (Qcompare_spec (x - inject_Z z) (1 # 2)) as [E | E | E]; [lra | reflexivity | lra].
Qed.

Lemma round_half_even_mono (x y : Q) : x <= y -> (round_half_even x <= round_half_even y)%Z.
Proof.
  intros Hxy. pose proof (Qfloor_resp_le _ _ Hxy) as Hf.
  unfold round_half_even.
  destruct (Z.eq_dec (Qfloor x) (Qfloor y)) as [E | E].
  - rewrite E.
    destruct (Qcompare_spec (x - inject_Z (Qfloor y)) (1 # 2)) as [Hx | Hx | Hx];
      destruct (Qcompare_spec (y - inject_Z (Qfloor y)) (1 # 2)) as [Hy | Hy | Hy];
      try destruct (Z.even (Qfloor y)); try lia; lra.
  - assert (Qfloor x + 1 <= Qfloor y)%Z by lia.
    destruct (Qcompare_spec (x - inject_Z (Qfloor x)) (1 # 2)) as [Hx | Hx | Hx];
      destruct (Qcompare_spec (y - inject_Z (Qfloor y)) (1 # 2)) as [Hy | Hy | Hy];
      try destruct (Z.even (Qfloor x)); try destruct (Z.even (Qfloor y)); lia.
Qed.

Lemma round_half_even_le (x : Q) (z : Z) : x <= inject_Z z -> (round_half_even x <= z)%Z.
Proof.
  intros H. rewrite <- (round_half_even_int (inject_Z z) z) by reflexivity.
  apply round_half_even_mono, H.
Qed.

Lemma round_half_even_ge (x : Q) (z : Z) : inject_Z z <= x -> (z <= round_half_even x)%Z.
Proof.
  intros H. rewrite <- (round_half_even_int (inject_Z z) z) at 1 by reflexivity.
  apply round_half_even_mono, H.
Qed.

(** Rounding of a positive number to 53 bits. *)
Lemma exponent64_mono (a b : Q) : 0 < a -> a <= b -> (exponent64 a <= exponent64 b)%Z.
Proof.
  intros Ha Hab. unfold exponent64. pose proof (ilog2_mono a b Ha Hab). lia.
Qed.

Lemma scaled_back (q : Q) (e : Z) : q / pow2 e * pow2 e == q.
Proof.
  field. pose proof (pow2_pos e). lra.
Qed.

Lemma round64_pos_near (q : Q) :
  round64_pos q - pow2 (exponent64 q) * (1 # 2) <= q
  /\ q <= round64_pos q + pow2 (exponent64 q) * (1 # 2).
Proof.
  unfold round64_pos. set (P := pow2 (exponent64 q)).
  pose proof (pow2_pos (exponent64 q)) as HP. fold P in HP.
  destruct (round_half_even_near (q / P)) as [Hlo Hhi].
  pose proof (scaled_back q (exponent64 q)) as Hq. fold P in Hq.
  set (R := inject_Z (round_half_even (q / P))) in *.
  set (x := q / P) in *. nra.
Qed.

Lemma round64_pos_nonneg (q : Q) : 0 <= q -> 0 <= round64_pos q.
Proof.
  intros Hq. unfold round64_pos.
  pose proof (pow2_pos (exponent64 q)) as HP.
  apply Qmult_le_0_compat; [| lra].
  change 0 with (inject_Z 0). rewrite <- Zle_Qle.
  apply round_half_even_ge. change (inject_Z 0) with 0.
  apply Qle_shift_div_l; [exact HP | lra].
Qed.

Lemma round64_pos_mono (a b : Q) : 0 < a -> a <= b -> round64_pos a <= round64_pos b.
Proof.
  intros Ha Hab.
  assert (Hb : 0 < b) by lra.
  pose proof (exponent64_mono a b Ha Hab) as He.
  pose proof (pow2_pos (exponent64 a)) as HPa.
  pose proof (pow2_pos (exponent64 b)) as HPb.
  destruct (Z.eq_dec (exponent64 a) (exponent64 b)) as [E | E].
  - unfold round64_pos. rewrite E.
    apply Qmult_le_compat_r; [| lra].
    rewrite <- Zle_Qle. apply round_half_even_mono.
    apply Qmult_le_r with (z := pow2 (exponent64 b)); [exact HPb |].
    rewrite !scaled_back. exact Hab.
  - assert (Hlt : (exponent64 a < exponent64 b)%Z) by lia.
    assert (Heb : exponent64 b = (ilog2 b - 52)%Z) by (unfold exponent64 in *; lia).
    assert (Hk : (ilog2 a + 1 <= ilog2 b)%Z) by (unfold exponent64 in *; lia).
    destruct (ilog2_spec a Ha) as [_ Haup]. destruct (ilog2_spec b Hb) as [Hblow _].
    apply Qle_trans with (pow2 (ilog2 b)).
    + assert (Hak : a <= pow2 (ilog2 b)).
      { apply Qlt_le_weak. eapply Qlt_le_trans; [exact Haup |]. apply pow2_le, Hk. }
      assert (Hd : (0 <= ilog2 b - exponent64 a)%Z) by lia.
      unfold round64_pos.
      setoid_replace (pow2 (ilog2 b))
        with (inject_Z (2 ^ (ilog2 b - exponent64 a)) * pow2 (exponent64 a))
        using relation Qeq.
      2: { rewrite <- pow2_int by exact Hd. rewrite <- pow2_add.
           replace (ilog2 b - exponent64 a + exponent64 a)%Z with (ilog2 b) by lia.
           reflexivity. }
      apply Qmult_le_compat_r; [| lra].
      rewrite <- Zle_Qle. apply round_half_even_le.
      apply Qle_shift_div_r; [exact HPa |].
      rewrite <- pow2_int by exact Hd. rewrite <- pow2_add.
      replace (ilog2 b - exponent64 a + exponent64 a)%Z with (ilog2 b) by lia.
      exact Hak.
    + unfold round64_pos.
      setoid_replace (pow2 (ilog2 b)) with (inject_Z (2 ^ 52) * pow2 (exponent64 b))
        using relation Qeq.
      2: { rewrite <- pow2_int by lia. rewrite <- pow2_add.
           replace (52 + exponent64 b)%Z with (ilog2 b) by lia. reflexivity. }
      apply Qmult_le_compat_r; [| lra].
      rewrite <- Zle_Qle. apply round_half_even_ge.
      apply Qle_shift_div_l; [exact HPb |].
      rewrite <- pow2_int by lia. rewrite <- pow2_add.
      replace (52 + exponent64 b)%Z with (ilog2 b) by lia. exact Hblow.
Qed.

(** Rounding of any number. *)
Lemma round64_value_zero (q : Q) : q == 0 -> round64_value q = 0.
Proof.
  intros Hq. unfold round64_value. destruct q as [n d]. unfold Qeq in Hq. cbn in *.
  assert (n = 0%Z) as -> by lia. reflexivity.
Qed.

Lemma round64_value_positive (q : Q) : 0 < q -> round64_value q = round64_pos q.
Proof.
  intros Hq. unfold round64_value. destruct q as [[| n | n] d]; [| reflexivity |];
    unfold Qlt in Hq; cbn in Hq; lia.
Qed.

Lemma round64_value_nonneg (q : Q) : 0 <= q -> 0 <= round64_value q.
Proof.
  intros Hq. destruct (Qlt_le_dec 0 q) as [Hpos | Hzero].
  - rewrite round64_value_positive by exact Hpos. apply round64_pos_nonneg, Hq.
  - rewrite round64_value_zero by lra. lra.
Qed.

Lemma round64_value_mono (a b : Q) :
  0 <= a -> a <= b -> round64_value a <= round64_value b.
Proof.
  intros Ha Hab. destruct (Qlt_le_dec 0 a) as [Hpos | Hzero].
  - rewrite !round64_value_positive by lra. apply round64_pos_mono; assumption.
  - rewrite (round64_value_zero a) by lra. apply round64_value_nonneg. lra.
Qed.

Lemma round64_value_comp (a b : Q) : 0 <= a -> a == b -> round64_value a == round64_value b.
Proof.
  intros Ha Hab. apply Qle_antisym; apply round64_value_mono; lra.
Qed.

(** An integer below 2^53 is a float. *)
Lemma round64_value_int (z : Z) :
  (0 <= z < 2 ^ 53)%Z -> round64_value (inject_Z z) == inject_Z z.
Proof.
  intros [Hz Hlt]. destruct (Z.eq_dec z 0%Z) as [-> | Hne]; [reflexivity |].
  assert (Hpos : 0 < inject_Z z) by (change 0 with (inject_Z 0); rewrite <- Zlt_Qlt; lia).
  rewrite round64_value_positive by exact Hpos. unfold round64_pos.
  set (e := exponent64 (inject_Z z)).
  assert (He : (e <= 0)%Z).
  { unfold e, exponent64.
    assert (ilog2 (inject_Z z) <= 52)%Z; [| lia].
    apply ilog2_below; [exact Hpos |]. rewrite pow2_int by lia.
    rewrite <- Zlt_Qlt. exact Hlt. }
  assert (Hx : inject_Z z / pow2 e == inject_Z (z * 2 ^ (- e))).
  { rewrite inject_Z_mult, <- pow2_int by lia.
    unfold pow2. rewrite Qpower_opp. reflexivity. }
  rewrite (round_half_even_int _ _ Hx), <- Hx. apply scaled_back.
Qed.


Lemma py_int_comp (x y : Q) : 0 <= x -> x == y -> py_int x = py_int y.
Proof.
  intros Hx Hxy. rewrite !py_int_floor by lra. apply Qfloor_comp, Hxy.
Qed.

Lemma round64_finite (q : Q) (M : Z) :
  0 <= q -> q <= inject_Z M -> (M < 2 ^ 53)%Z ->
  round64 q = Finite (round64_value q)
  /\ 0 <= round64_value q <= inject_Z M.
Proof.
  intros Hq HM Hlt.
  assert (HM0 : (0 <= M)%Z).
  { rewrite Zle_Qle. change (inject_Z 0) with 0. lra. }
  assert (Hv : 0 <= round64_value q <= inject_Z M).
  { split; [apply round64_value_nonneg, Hq |].
    rewrite <- (round64_value_int M) by lia. apply round64_value_mono; assumption. }
  split; [| exact Hv]. unfold round64. cbv zeta.
  destruct (Qle_bool (pow2 1024) (Qabs (round64_value q))) eqn:E; [| reflexivity].
  apply Qle_bool_iff in E. rewrite Qabs_pos in E by apply Hv.
  assert (Hbig : inject_Z M < pow2 1024).
  { apply Qlt_le_trans with (pow2 53); [| apply pow2_le; lia].
    rewrite pow2_int by lia. rewrite <- Zlt_Qlt. exact Hlt. }
  lra.
Qed.

Lemma float_of_int_exact (M : Z) :
  (0 <= M < 2 ^ 53)%Z ->
  exists m, float_of_int M = Finite m /\ m == inject_Z M.
Proof.
  intros HM. unfold float_of_int.
  destruct (round64_finite (inject_Z M) M) as [Hf Hv]; [| lra | lia |].
  { change 0 with (inject_Z 0). rewrite <- Zle_Qle. lia. }
  exists (round64_value (inject_Z M)). split; [exact Hf |].
  apply round64_value_int, HM.
Qed.

(** A product with a factor below 1 stays below the other factor. *)
Lemma round64_value_below (x : Q) (M : Z) :
  (1 <= M < 2 ^ 53)%Z -> 0 <= x -> x <= 1 - ulp_below_one ->
  round64_value (x * inject_Z M) < inject_Z M.
Proof.
  intros [HM1 HM] Hx0 Hx.
  assert (HMq : 1 <= inject_Z M) by (change 1 with (inject_Z 1); rewrite <- Zle_Qle; lia).
  set (t := (1 - ulp_below_one) * inject_Z M).
  apply Qle_lt_trans with (round64_value t).
  { apply round64_value_mono; [nra | unfold t; nra]. }
  assert (Ht : 0 < t) by (unfold t, ulp_below_one; nra).
  rewrite round64_value_positive by exact Ht.
  set (k := Z.log2 M).
  assert (Hk : (2 ^ k <= M < 2 ^ (k + 1))%Z).
  { destruct (Z.log2_spec M) as [H1 H2]; [lia |]. fold k in H1, H2.
    rewrite <- Z.add_1_r in H2. lia. }
  assert (Hk0 : (0 <= k)%Z) by apply Z.log2_nonneg.
  assert (Hk52 : (k <= 52)%Z).
  { assert (k < 53)%Z; [| lia]. apply (Z.pow_lt_mono_r_iff 2); lia. }
  assert (HKq : pow2 k == inject_Z (2 ^ k)) by (apply pow2_int, Hk0).
  assert (HK1 : pow2 (k + 1) == 2 * pow2 k) by apply pow2_succ.
  assert (Hu : pow2 (k - 53) == pow2 k * ulp_below_one).
  { replace (k - 53)%Z with (k + -53)%Z by lia. rewrite pow2_add. reflexivity. }
  assert (Hlowq : inject_Z (2 ^ k) <= inject_Z M) by (rewrite <- Zle_Qle; lia).
  assert (Hupq : inject_Z M < 2 * inject_Z (2 ^ k)).
  { change 2 with (inject_Z 2). rewrite <- inject_Z_mult, <- Zlt_Qlt.
    rewrite Z.pow_add_r, Z.pow_1_r in Hk by lia. lia. }
  destruct (round64_pos_near t) as [Hnear _].
  pose proof (pow2_pos (exponent64 t)) as HP.
  destruct (Z.eq_dec M (2 ^ k)%Z) as [Epow | Hnot].
  - assert (He : (exponent64 t <= k - 53)%Z).
    { unfold exponent64. assert (ilog2 t <= k - 1)%Z; [| lia].
      apply ilog2_below; [exact Ht |].
      replace (k - 1 + 1)%Z with k by lia. rewrite HKq, <- Epow.
      unfold t, ulp_below_one. nra. }
    apply pow2_le in He. rewrite Hu, HKq, <- Epow in He.
    unfold t, ulp_below_one in *. nra.
  - assert (He : (exponent64 t <= k - 52)%Z).
    { unfold exponent64. assert (ilog2 t <= k)%Z; [| lia].
      apply ilog2_below; [exact Ht |]. rewrite HK1, HKq.
      unfold t, ulp_below_one. nra. }
    apply pow2_le in He.
    replace (k - 52)%Z with (k - 53 + 1)%Z in He by lia.
    rewrite pow2_succ, Hu, HKq in He.
    assert (Hstrict : inject_Z (2 ^ k) + 1 <= inject_Z M).
    { change 1 with (inject_Z 1). rewrite <- inject_Z_plus, <- Zle_Qle. lia. }
    unfold t, ulp_below_one in *. nra.
Qed.

Lemma round64_zero (q : Q) : q == 0 -> round64 q = Finite 0.
Proof.
  intros Hq. unfold round64. rewrite (round64_value_zero q Hq). reflexivity.
Qed.

(** The product of a float in [0, 1] and a length. *)
Lemma float_mul_length (x : Q) (M : Z) :
  0 <= x -> x <= 1 -> (0 <= M < 2 ^ 53)%Z ->
  exists v,
    float_mul (Finite x) (float_of_int M) = Finite v
    /\ v == round64_value (x * inject_Z M)
    /\ 0 <= v /\ v <= inject_Z M.
Proof.
  intros Hx0 Hx1 HM.
  destruct (float_of_int_exact M HM) as (m & -> & Hm).
  assert (HMq : 0 <= inject_Z M)
    by (change 0 with (inject_Z 0); rewrite <- Zle_Qle; lia).
  cbn [float_mul].
  destruct (round64_finite (x * m) M) as [-> [Hv0 Hv1]]; [nra | nra | lia |].
  eexists. split; [reflexivity |].
  split; [apply round64_value_comp; [nra | rewrite Hm; reflexivity] |].
  split; assumption.
Qed.

(** [1 - p] for [p] in [0, 1]. *)
Lemma float_sub_one (p : Q) :
  0 <= p -> p <= 1 ->
  float_sub (Finite 1) (Finite p) = Finite (round64_value (1 - p))
  /\ 0 <= round64_value (1 - p) /\ round64_value (1 - p) <= 1.
Proof.
  intros Hp0 Hp1. cbn [float_sub].
  destruct (round64_finite (1 - p) 1) as [-> Hv]; [lra | change (inject_Z 1) with 1; lra
                                                  | reflexivity |].
  split; [reflexivity | exact Hv].
Qed.

Lemma round64_below_one : round64_value (1 - ulp_below_one) == 1 - ulp_below_one.
Proof. vm_compute. reflexivity. Qed.

Lemma round64_half : round64_value (1 # 2) == 1 # 2.
Proof. vm_compute. reflexivity. Qed.

Lemma round64_near_one : round64_value (1 - (1 # 2) * ulp_below_one) == 1.
Proof. vm_compute. reflexivity. Qed.

(** The two positions for an error rate from [2^-53] to 1/2: they are in
    the array, the lower one first. *)
Lemma positions_in_range (p : Q) (M : Z) :
  ulp_below_one <= p -> p <= 1 # 2 -> (1 <= M < 2 ^ 53)%Z ->
  exists lower upper,
    float_int (float_mul (Finite p) (float_of_int M)) = Return lower
    /\ float_int (float_mul (float_sub (Finite 1) (Finite p)) (float_of_int M))
       = Return upper
    /\ (0 <= lower <= upper)%Z /\ (upper < M)%Z.
Proof.
  intros Hp Hhalf HM.
  assert (Hp0 : 0 <= p) by (unfold ulp_below_one in Hp; lra).
  assert (HMq : 1 <= inject_Z M)
    by (change 1 with (inject_Z 1); rewrite <- Zle_Qle; lia).
  destruct (float_sub_one p) as (-> & Hx0 & Hx1); [lra | lra |].
  set (x := round64_value (1 - p)) in *.
  assert (Hx : x <= 1 - ulp_below_one).
  { rewrite <- round64_below_one. apply round64_value_mono; lra. }
  assert (Hpx : p <= x).
  { apply Qle_trans with (1 # 2); [exact Hhalf |].
    rewrite <- round64_half. apply round64_value_mono; lra. }
  destruct (float_mul_length p M) as (a & -> & Ha & Ha0 & Ha1); [lra | lra | lia |].
  destruct (float_mul_length x M) as (b & -> & Hb & Hb0 & Hb1); [lra | lra | lia |].
  exists (py_int a), (py_int b). cbn [float_int].
  split; [reflexivity |]. split; [reflexivity |].
  assert (Hab : a <= b).
  { rewrite Ha, Hb. apply round64_value_mono; nra. }
  assert (Hlt : b < inject_Z M).
  { rewrite Hb. apply round64_value_below; [lia | lra | exact Hx]. }
  split; [split; [apply py_int_nonneg, Ha0 | apply py_int_mono; assumption] |].
  apply py_int_below; assumption.
Qed.

(** For an error rate of [2^-54] or less, [1 - p] is 1.0 and the upper
    position is the length of the array. *)
Lemma upper_position_outside (p : Q) (M : Z) :
  0 <= p -> p <= (1 # 2) * ulp_below_one -> (1 <= M < 2 ^ 53)%Z ->
  float_int (float_mul (Finite p) (float_of_int M)) = Return 0%Z
  /\ float_int (float_mul (float_sub (Finite 1) (Finite p)) (float_of_int M))
     = Return M.
Proof.
  intros Hp0 Hp HM.
  assert (HMq : 1 <= inject_Z M)
    by (change 1 with (inject_Z 1); rewrite <- Zle_Qle; lia).
  assert (HMup : inject_Z M <= inject_Z (2 ^ 53))
    by (rewrite <- Zle_Qle; lia).
  change (inject_Z (2 ^ 53)) with (9007199254740992 # 1) in HMup.
  assert (Hp1 : p <= 1) by (unfold ulp_below_one in Hp; lra).
  destruct (float_sub_one p Hp0 Hp1) as (-> & Hx0 & Hx1).
  set (x := round64_value (1 - p)) in *.
  assert (Hx : x == 1).
  { apply Qle_antisym; [exact Hx1 |].
    rewrite <- round64_near_one. apply round64_value_mono;
      unfold ulp_below_one in *; lra. }
  destruct (float_mul_length p M) as (a & -> & Ha & Ha0 & Ha1); [lra | lra | lia |].
  destruct (float_mul_length x M) as (b & -> & Hb & Hb0 & Hb1); [lra | lra | lia |].
  cbn [float_int]. split; f_equal.
  - assert (Hsmall : a <= 1 # 2).
    { rewrite Ha, <- round64_half. apply round64_value_mono;
        unfold ulp_below_one in *; nra. }
    assert (0 <= py_int a < 1)%Z; [| lia].
    split; [apply py_int_nonneg, Ha0 |].
    apply py_int_below; [exact Ha0 | change (inject_Z 1) with 1; lra].
  - assert (HbM : b == inject_Z M).
    { rewrite Hb. apply Qeq_trans with (round64_value (inject_Z M)).
      - apply round64_value_comp; [nra | rewrite Hx; ring].
      - apply round64_value_int. lia. }
    rewrite (py_int_comp b (inject_Z M) Hb0 HbM).
    rewrite py_int_floor by lra. apply Qfloor_Z.
Qed.

End FloatProperties.

Lemma getitem_nonneg {A} (a : list A) (i : Z) :
  0 <= i ->
  getitem a i = match a !! Z.to_nat i with
                | Some x => Return x
                | None => Raise IndexError
                end.
Proof.
  intros Hi. unfold getitem.
  destruct (i <? 0) eqn:E; [lia |].
  rewrite E. reflexivity.
Qed.

Lemma take_indices_in_range {A} (a : list A) (indices : list Z) :
  Forall (fun i => 0 <= i < len a) indices ->
  take_indices a indices = Return (Spec.resample a indices).
Proof.
  induction 1 as [| i rest [Hlo Hhi] _ IH]; [reflexivity |].
  destruct (lookup_lt_is_Some_2 a (Z.to_nat i)) as [x Hx].
  { unfold len in Hhi. lia. }
  cbn [take_indices]. rewrite getitem_nonneg by exact Hlo.
  rewrite IH. unfold Spec.resample. cbn. rewrite Hx. reflexivity.
Qed.

Lemma sort_length (a : list Q) : length (sort a) = length a.
Proof. unfold sort. apply Permutation_length, merge_sort_Permutation. Qed.

Lemma sort_lookup_le (a : list Q) (i j : nat) (x y : Q) :
  (i <= j)%nat -> sort a !! i = Some x -> sort a !! j = Some y -> (x <= y)%Q.
Proof.
  unfold sort. pose proof (StronglySorted_merge_sort Qle a) as Hs.
  revert i j x y. induction Hs as [| z l _ IH Hall]; intros i j x y Hij Hi Hj.
  - rewrite lookup_nil in Hi. discriminate.
  - destruct i as [| i], j as [| j]; cbn in Hi, Hj.
    + injection Hi as <-. injection Hj as <-. apply Qle_refl.
    + injection Hi as <-. rewrite Forall_forall in Hall.
      apply Hall. eapply list_elem_of_lookup_2. exact Hj.
    + lia.
    + eapply IH; [| exact Hi | exact Hj]. lia.
Qed.

(** ** The percentile bootstrap *)

Section BootstrapProperties.
Context {G : Type} `{RandomState G} {A B : Type} `{EqDecision A}.
Variable score_fun : list A -> list B -> result Q.
Variable y_true : list A.
Variable y_pred : list B.

(** Once the loop is over, the call only sorts and reads two positions. *)
Lemma score_bootstrap_after_loop pvalue iter rng scores :
  bootstrap_loop score_fun y_true y_pred (Z.to_nat iter) rng [] = Return scores ->
  score_bootstrap score_fun y_true y_pred pvalue iter rng =
    (lower ← float_int (float_mul (Finite pvalue) (float_of_int (len (sort scores))));
     lo ← getitem (sort scores) lower;
     upper ← float_int (float_mul (float_sub (Finite 1) (Finite pvalue))
                          (float_of_int (len (sort scores))));
     hi ← getitem (sort scores) upper;
     Return (lo, hi)).
Proof. intros Hloop. unfold score_bootstrap. rewrite Hloop. reflexivity. Qed.
End BootstrapProperties.

Lemma len_sort (a : list Q) : len (sort a) = len a.
Proof. unfold len. rewrite sort_length. reflexivity. Qed.

(** C9, as the code has it: with at least one retained score (and fewer
    than 2^53), both positions lie inside the sorted array for an error
    rate from 2^-53 to 1/2: the call returns, the lower bound at most the
    upper bound.  For an error rate of 2^-54 or less the float [1 - p] is
    1.0, the upper position is the length of the array and the call raises
    [IndexError]. *)
Theorem score_bootstrap_positions_valid
    {G : Type} `{RandomState G} {A B : Type} `{EqDecision A}
    (score_fun : list A -> list B -> result Q)
    (y_true : list A) (y_pred : list B) (pvalue : Q) (iter : Z) (rng : G)
    (scores : list Q) :
  bootstrap_loop score_fun y_true y_pred (Z.to_nat iter) rng [] = Return scores ->
  1 <= len scores < 2 ^ 53 ->
  let M := len (sort scores) in
  ((ulp_below_one <= pvalue)%Q -> (pvalue <= 1 # 2)%Q ->
   exists lower upper confidence_lower confidence_upper,
     float_int (float_mul (Finite pvalue) (float_of_int M)) = Return lower
     /\ float_int (float_mul (float_sub (Finite 1) (Finite pvalue)) (float_of_int M))
        = Return upper
     /\ 0 <= lower < M /\ 0 <= upper < M
     /\ score_bootstrap score_fun y_true y_pred pvalue iter rng
        = Return (confidence_lower, confidence_upper)
     /\ (confidence_lower <= confidence_upper)%Q)
  /\ ((0 <= pvalue)%Q -> (pvalue <= (1 # 2) * ulp_below_one)%Q ->
      float_int (float_mul (float_sub (Finite 1) (Finite pvalue)) (float_of_int M))
      = Return M
      /\ score_bootstrap score_fun y_true y_pred pvalue iter rng = Raise IndexError).
Proof.
  intros Hloop HM M.
  assert (HM' : 1 <= M < 2 ^ 53) by (unfold M; rewrite len_sort; exact HM).
  rewrite (score_bootstrap_after_loop _ _ _ _ _ _ _ Hloop). fold M.
  assert (HMlen : M = Z.of_nat (length (sort scores))) by reflexivity.
  clearbody M. split.
  - intros Hp Hhalf.
    destruct (positions_in_range pvalue M Hp Hhalf HM')
      as (lower & upper & Hlower & Hupper & Hle & Hlt).
    destruct (lookup_lt_is_Some_2 (sort scores) (Z.to_nat lower)) as [lo Hlo]; [lia |].
    destruct (lookup_lt_is_Some_2 (sort scores) (Z.to_nat upper)) as [hi Hhi]; [lia |].
    exists lower, upper, lo, hi. rewrite Hlower, Hupper. cbn [mbind result_bind].
    split; [reflexivity |]. split; [reflexivity |].
    split; [lia |]. split; [lia |]. split.
    + rewrite !getitem_nonneg by lia. rewrite Hlo. cbn [mbind result_bind].
      rewrite Hhi. reflexivity.
    + eapply sort_lookup_le; [| exact Hlo | exact Hhi]. lia.
  - intros Hp0 Hp.
    destruct (upper_position_outside pvalue M Hp0 Hp HM') as [Hlower Hupper].
    rewrite Hlower, Hupper. cbn [mbind result_bind]. split; [reflexivity |].
    destruct (lookup_lt_is_Some_2 (sort scores) (Z.to_nat 0)) as [lo Hlo]; [lia |].
    rewrite !getitem_nonneg by lia. rewrite Hlo. cbn [mbind result_bind].
    rewrite (lookup_ge_None_2 (sort scores) (Z.to_nat M)) by lia. reflexivity.
Qed.

(** C2, as the code has it: there is no test on the number of retained
    scores.  With none the first read of the empty array raises
    [IndexError]; with exactly one the call returns that score as both
    bounds for an error rate from 2^-53 to 1 - 2^-53, and raises
    [IndexError] for an error rate of 2^-54 or less, the upper position
    being 1 then. *)
Theorem score_bootstrap_few_scores
    {G : Type} `{RandomState G} {A B : Type} `{EqDecision A}
    (score_fun : list A -> list B -> result Q)
    (y_true : list A) (y_pred : list B) (pvalue : Q) (iter : Z) (rng : G)
    (scores : list Q) :
  bootstrap_loop score_fun y_true y_pred (Z.to_nat iter) rng [] = Return scores ->
  (scores = [] ->
   score_bootstrap score_fun y_true y_pred pvalue iter rng = Raise IndexError)
  /\ (forall s, scores = [s] ->
      (ulp_below_one <= pvalue)%Q -> (pvalue <= 1 - ulp_below_one)%Q ->
      score_bootstrap score_fun y_true y_pred pvalue iter rng = Return (s, s))
  /\ (forall s, scores = [s] ->
      (0 <= pvalue)%Q -> (pvalue <= (1 # 2) * ulp_below_one)%Q ->
      score_bootstrap score_fun y_true y_pred pvalue iter rng = Raise IndexError).
Proof.
  intros Hloop. rewrite (score_bootstrap_after_loop _ _ _ _ _ _ _ Hloop).
  split; [| split].
  - intros ->. change (sort []) with (@nil Q). change (len (@nil Q)) with 0.
    change (float_of_int 0) with (Finite 0). cbn [float_mul].
    rewrite (round64_zero (pvalue * 0)) by ring. reflexivity.
  - intros s -> Hp Hp1. change (sort [s]) with [s]. change (len [s]) with 1.
    assert (Hp0 : (0 <= pvalue)%Q) by (unfold ulp_below_one in Hp; lra).
    assert (Hp1' : (pvalue <= 1)%Q) by (unfold ulp_below_one in Hp1; lra).
    destruct (float_sub_one pvalue Hp0 Hp1') as (-> & Hx0 & Hx1).
    set (x := round64_value (1 - pvalue)) in *.
    assert (Hx : (x <= 1 - ulp_below_one)%Q).
    { rewrite <- round64_below_one. apply round64_value_mono; lra. }
    destruct (float_mul_length pvalue 1) as (a & -> & Ha & Ha0 & _); [lra | lra | lia |].
    destruct (float_mul_length x 1) as (b & -> & Hb & Hb0 & _); [lra | lra | lia |].
    assert (Hbelow : forall v y : Q,
              (v == round64_value (y * inject_Z 1))%Q -> (0 <= v)%Q -> (0 <= y)%Q ->
              (y <= 1 - ulp_below_one)%Q -> py_int v = 0).
    { intros v y Hv Hv0 Hy0 Hy. assert (0 <= py_int v < 1); [| lia].
      split; [apply py_int_nonneg, Hv0 |]. apply py_int_below; [exact Hv0 |].
      rewrite Hv. apply round64_value_below; [lia | exact Hy0 | exact Hy]. }
    cbn [float_int mbind result_bind].
    rewrite (Hbelow a pvalue Ha Ha0 Hp0 Hp1), (Hbelow b x Hb Hb0 Hx0 Hx).
    reflexivity.
  - intros s -> Hp0 Hp. change (sort [s]) with [s]. change (len [s]) with 1.
    destruct (upper_position_outside pvalue 1 Hp0 Hp) as [-> ->]; [lia |].
    reflexivity.
Qed.

Section BootstrapAgainstSpec.
Context {G : Type} `{RandomStateOk G} {A B : Type} `{EqDecision A}.
Variable score : list A -> list B -> Q.
Variable y_true : list A.
Variable y_pred : list B.
Hypothesis same_length : length y_true = length y_pred.
Hypothesis not_empty : (1 <= length y_pred)%nat.

Lemma draw_in_range (rng : G) :
  let indices := (random_integers rng 0 (len y_pred - 1) (length y_pred)).1 in
  length indices = length y_pred
  /\ Forall (fun i => 0 <= i < len y_pred) indices.
Proof.
  destruct (random_integers_range rng 0 (len y_pred - 1) (length y_pred))
    as [Hlen Hall]; [unfold len; lia |].
  split; [exact Hlen |].
  eapply Forall_impl; [exact Hall |]. cbn. intros i Hi. lia.
Qed.

Lemma draws_in_range (K : nat) (rng : G) :
  length (Spec.draws K (length y_pred) rng) = K
  /\ Forall (fun indices =>
               length indices = length y_pred
               /\ Forall (fun i => 0 <= i < len y_pred) indices)
            (Spec.draws K (length y_pred) rng).
Proof.
  revert rng. induction K as [| K IH]; intros rng; [split; [reflexivity | constructor] |].
  cbn [Spec.draws]. pose proof (draw_in_range rng) as Hdraw. unfold len in Hdraw.
  destruct (random_integers rng 0 (Z.of_nat (length y_pred) - 1) (length y_pred))
    as [indices rng'].
  destruct (IH rng') as [Hlen Hall]. split.
  - cbn. rewrite Hlen. reflexivity.
  - constructor; [exact Hdraw | exact Hall].
Qed.

(** The loop records exactly the scores of the kept resamples, in the
    order of the draws. *)
Lemma bootstrap_loop_retained (K : nat) (rng : G) (recorded : list Q) :
  bootstrap_loop (fun a b => Return (score a b)) y_true y_pred K rng recorded
  = Return (recorded ++ Spec.retained_scores score y_true y_pred K rng).
Proof.
  revert rng recorded. induction K as [| K IH]; intros rng recorded.
  - cbn. rewrite app_nil_r. reflexivity.
  - cbn [bootstrap_loop]. unfold Spec.retained_scores. cbn [Spec.draws].
    pose proof (draw_in_range rng) as [_ Hall]. unfold draw_integers, len in *.
    destruct (Z.of_nat (length y_pred) - 1 <? 0) eqn:Erange; [lia |].
    destruct (random_integers rng 0 (Z.of_nat (length y_pred) - 1) (length y_pred))
      as [indices rng']. cbn [fst] in Hall. cbn [mbind result_bind].
    assert (Hall' : Forall (fun i => 0 <= i < len y_true) indices)
      by (unfold len; rewrite same_length; exact Hall).
    rewrite (take_indices_in_range y_true indices Hall').
    cbn [mbind result_bind List.filter]. unfold Spec.kept at 1.
    destruct (n_unique (Spec.resample y_true indices) <? 2)%nat eqn:Efew.
    + apply Nat.ltb_lt in Efew.
      destruct (2 <=? n_unique (Spec.resample y_true indices))%nat eqn:Ekept;
        [apply Nat.leb_le in Ekept; lia |].
      apply IH.
    + apply Nat.ltb_ge in Efew.
      destruct (2 <=? n_unique (Spec.resample y_true indices))%nat eqn:Ekept;
        [| apply Nat.leb_gt in Ekept; lia].
      rewrite (take_indices_in_range y_pred indices Hall).
      cbn [mbind result_bind map]. rewrite IH.
      unfold Spec.retained_scores. rewrite <- app_assoc. reflexivity.
Qed.
End BootstrapAgainstSpec.

(** The scores that are recorded are at most as many as the iterations. *)
Lemma retained_scores_length
    {G : Type} `{RandomState G} {A B : Type} `{EqDecision A}
    (score : list A -> list B -> Q) (y_true : list A) (y_pred : list B)
    (K : nat) (rng : G) :
  (length (Spec.retained_scores score y_true y_pred K rng) <= K)%nat.
Proof.
  unfold Spec.retained_scores. rewrite length_map.
  etransitivity; [apply List.filter_length_le |].
  revert rng. induction K as [| K IH]; intros rng; [reflexivity |].
  cbn [Spec.draws].
  destruct (random_integers rng 0 (Z.of_nat (length y_pred) - 1) (length y_pred))
    as [indices rng'].
  cbn [length]. specialize (IH rng'). lia.
Qed.

(** C1, as the code has it: for a score function that always returns,
    parallel arrays of N >= 1 cases, an error rate p in [0, 1] and fewer
    than 2^53 iterations, the estimator makes K draws of N indices in
    [0, N), keeps the resamples whose labels show two classes, sorts their M
    scores and returns the values at the positions [int(p*M)] and
    [int((1-p)*M)], where the difference and the two products are rounded
    as floats before they are truncated; a position outside the array is an
    [IndexError]. *)
Theorem score_bootstrap_percentile
    {G : Type} `{RandomStateOk G} {A B : Type} `{EqDecision A}
    (score : list A -> list B -> Q) (y_true : list A) (y_pred : list B)
    (pvalue : Q) (iter : Z) (rng : G) :
  length y_true = length y_pred ->
  (1 <= length y_pred)%nat ->
  (0 <= pvalue)%Q -> (pvalue <= 1)%Q ->
  iter < 2 ^ 53 ->
  let N := length y_pred in
  let K := Z.to_nat iter in
  length (Spec.draws K N rng) = K
  /\ Forall (fun indices =>
               length indices = N /\ Forall (fun i => 0 <= i < Z.of_nat N) indices)
            (Spec.draws K N rng)
  /\ score_bootstrap (fun a b => Return (score a b)) y_true y_pred pvalue iter rng
     = match Spec.percentile_interval pvalue
               (Spec.retained_scores score y_true y_pred K rng) with
       | Some interval => Return interval
       | None => Raise IndexError
       end.
Proof.
  intros Hsame Hne Hp0 Hp1 Hiter N K.
  destruct (draws_in_range y_true y_pred Hsame Hne K rng) as [Hlen Hall].
  split; [exact Hlen |]. split; [exact Hall |].
  pose proof (bootstrap_loop_retained score y_true y_pred Hsame Hne K rng []) as Hloop.
  cbn [app] in Hloop.
  rewrite (score_bootstrap_after_loop _ _ _ pvalue iter rng _ Hloop).
  pose proof (retained_scores_length score y_true y_pred K rng) as Hfew.
  set (recorded := Spec.retained_scores score y_true y_pred K rng) in *.
  unfold Spec.percentile_interval. rewrite len_sort. unfold len, sort.
  set (M := Z.of_nat (length recorded)).
  assert (HM : 0 <= M < 2 ^ 53) by (unfold M, K in *; lia).
  destruct (float_sub_one pvalue Hp0 Hp1) as (-> & Hx0 & Hx1).
  destruct (float_mul_length pvalue M Hp0 Hp1 HM) as (a & -> & _ & Ha0 & _).
  destruct (float_mul_length _ M Hx0 Hx1 HM) as (b & -> & _ & Hb0 & _).
  cbn [float_int Spec.floor_of mbind result_bind option_bind].
  apply Qle_bool_iff in Ha0 as Ha0'. apply Qle_bool_iff in Hb0 as Hb0'.
  rewrite Ha0', Hb0'. cbn [mbind option_bind].
  rewrite !getitem_nonneg by (apply py_int_nonneg; assumption).
  rewrite !py_int_floor by assumption.
  destruct (merge_sort Qle recorded !! Z.to_nat (Qfloor a)) as [lo |]; [| reflexivity].
  cbn [mbind result_bind option_bind].
  destruct (merge_sort Qle recorded !! Z.to_nat (Qfloor b)) as [hi |]; reflexivity.
Qed.

(** ** The Brier score *)

Lemma Qltb_lt (x y : Q) : Qltb x y = true <-> (x < y)%Q.
Proof.
  unfold Qltb. rewrite negb_true_iff. split.
  - intros Hb. apply Qnot_le_lt. intros Hle.
    apply Qle_bool_iff in Hle. congruence.
  - intros Hlt. destruct (Qle_bool y x) eqn:E; [| reflexivity].
    apply Qle_bool_iff in E. exfalso. eapply Qlt_not_le; eassumption.
Qed.

Lemma Qmax_gt (bound a b : Q) :
  (bound < Qmax a b)%Q <-> (bound < a)%Q \/ (bound < b)%Q.
Proof.
  unfold Qmax. destruct (Qle_bool a b) eqn:E.
  - apply Qle_bool_iff in E. split; [auto |].
    intros [Ha | Hb]; [eapply Qlt_le_trans; eassumption | exact Hb].
  - assert (Hba : (b < a)%Q).
    { apply Qnot_le_lt. intros Hle. apply Qle_bool_iff in Hle. congruence. }
    split; [auto |].
    intros [Ha | Hb]; [exact Ha | eapply Qlt_trans; eassumption].
Qed.

Lemma Qmin_lt (bound a b : Q) :
  (Qmin a b < bound)%Q <-> (a < bound)%Q \/ (b < bound)%Q.
Proof.
  unfold Qmin. destruct (Qle_bool a b) eqn:E.
  - apply Qle_bool_iff in E. split; [auto |].
    intros [Ha | Hb]; [exact Ha | eapply Qle_lt_trans; eassumption].
  - assert (Hba : (b < a)%Q).
    { apply Qnot_le_lt. intros Hle. apply Qle_bool_iff in Hle. congruence. }
    split; [auto |].
    intros [Ha | Hb]; [eapply Qlt_trans; eassumption | exact Hb].
Qed.

Lemma max_above (bound x : Q) (rest : list Q) :
  (bound < foldr Qmax x rest)%Q <-> Exists (fun q => (bound < q)%Q) (x :: rest).
Proof.
  induction rest as [| r rest IH]; cbn [foldr].
  - rewrite Exists_cons, Exists_nil. tauto.
  - rewrite Qmax_gt, IH, !Exists_cons. tauto.
Qed.

Lemma min_below (bound x : Q) (rest : list Q) :
  (foldr Qmin x rest < bound)%Q <-> Exists (fun q => (q < bound)%Q) (x :: rest).
Proof.
  induction rest as [| r rest IH]; cbn [foldr].
  - rewrite Exists_cons, Exists_nil. tauto.
  - rewrite Qmin_lt, IH, !Exists_cons. tauto.
Qed.

Lemma mapped_labels_binary (y_true : list Z) (pos_label : option Z) :
  Forall binary (Spec.mapped_labels y_true pos_label).
Proof.
  assert (Hmap : forall l ys, Forall binary (map (fun v => if v =? l then 1 else 0) ys)).
  { intros l ys. apply Forall_fmap, Forall_forall. intros v _. cbn.
    destruct (v =? l); [right | left]; reflexivity. }
  destruct pos_label as [l |], y_true as [| x rest]; cbn [Spec.mapped_labels];
    try apply Hmap. constructor.
Qed.

Lemma mapped_labels_length (y_true : list Z) (pos_label : option Z) :
  length (Spec.mapped_labels y_true pos_label) = length y_true.
Proof.
  destruct pos_label as [l |], y_true as [| x rest]; cbn [Spec.mapped_labels];
    try apply length_map. reflexivity.
Qed.

Lemma n_unique_binary (labels : list Z) :
  Forall binary labels -> (n_unique labels <= 2)%nat.
Proof.
  intros Hbin. unfold n_unique.
  change 2%nat with (length [0; 1]).
  apply submseteq_length, NoDup_submseteq; [apply NoDup_remove_dups |].
  intros v Hv. rewrite elem_of_remove_dups in Hv.
  rewrite Forall_forall in Hbin. destruct (Hbin v Hv) as [-> | ->].
  - left.
  - right; left.
Qed.

Lemma unique_length (labels : list Z) : length (unique labels) = n_unique labels.
Proof. unfold unique, n_unique. apply Permutation_length, merge_sort_Permutation. Qed.

Lemma unique_binary (labels : list Z) :
  Forall binary labels -> n_unique labels = 2%nat -> unique labels = [0; 1].
Proof.
  intros Hbin Htwo.
  pose proof (unique_length labels) as Hlen. rewrite Htwo in Hlen.
  assert (Hperm : unique labels ≡ₚ remove_dups labels)
    by apply merge_sort_Permutation.
  assert (Hsorted : Sorted Z.le (unique labels)) by apply (Sorted_merge_sort Z.le).
  assert (Hnodup : NoDup (unique labels))
    by (rewrite Hperm; apply NoDup_remove_dups).
  assert (Hin : forall v, v ∈ unique labels -> binary v).
  { intros v Hv. rewrite Hperm in Hv. rewrite elem_of_remove_dups in Hv.
    rewrite Forall_forall in Hbin. apply Hbin, Hv. }
  destruct (unique labels) as [| a [| b [| c rest]]]; try discriminate.
  apply NoDup_cons in Hnodup as [Hab _].
  apply Sorted_inv in Hsorted as [_ Hle]. apply HdRel_inv in Hle.
  assert (Ha : binary a) by (apply Hin; left).
  assert (Hb : binary b) by (apply Hin; right; left).
  assert (a <> b) by (intros ->; apply Hab; left).
  unfold binary in *. f_equal; [| f_equal]; lia.
Qed.

Lemma label_binarize_column_binary (labels : list Z) :
  Forall binary labels -> label_binarize_column labels [0; 1] = labels.
Proof.
  intros Hbin. unfold label_binarize_column. cbn [lookup list_lookup].
  induction Hbin as [| v rest [-> | ->] _ IH]; [reflexivity | |];
    cbn [map]; cbn; f_equal; exact IH.
Qed.

Lemma check_consistent_length_same (n : nat) :
  check_consistent_length [Some (Shaped [n]); Some (Shaped [n])] = Return tt.
Proof.
  unfold check_consistent_length.
  cbn [num_samples_of _num_samples mbind result_bind remove_dups].
  destruct (decide_rel elem_of n [n]) as [_ | Hnot]; [reflexivity |].
  exfalso. apply Hnot. left.
Qed.

Lemma check_consistent_length_differ (n m : nat) :
  n <> m ->
  check_consistent_length [Some (Shaped [n]); Some (Shaped [m])] = Raise ValueError.
Proof.
  intros Hne. unfold check_consistent_length.
  cbn [num_samples_of _num_samples mbind result_bind remove_dups].
  destruct (decide_rel elem_of n [m]) as [Hin | _]; [| reflexivity].
  exfalso. apply list_elem_of_singleton in Hin. contradiction.
Qed.

(** The mean of the squared differences, in the words of the code and in
    those of the specification. *)
Lemma squared_differences_sum (labels : list Z) (y_prob : list Q) :
  (sumQ (squared_differences labels y_prob)
   == sumQ (zip_with (fun q t => (q - inject_Z t) ^ 2) y_prob labels))%Q.
Proof.
  revert y_prob. induction labels as [| t labels IH]; intros [| q y_prob];
    try reflexivity.
  unfold squared_differences in *. cbn [zip_with sumQ foldr].
  fold (sumQ (zip_with (fun t q => (inject_Z t - q) * (inject_Z t - q))%Q labels y_prob)).
  fold (sumQ (zip_with (fun q t => (q - inject_Z t) ^ 2)%Q y_prob labels)).
  rewrite IH. ring.
Qed.

Lemma brier_score_loss_steps (y_true : list Z) (y_prob : list Q)
    (sample_weight : option (list Q)) (pos_label : option Z) :
  brier_score_loss y_true y_prob sample_weight pos_label =
    match pos_label, y_true with
    | None, [] => Raise ValueError
    | _, _ =>
        labels ← _check_binary_probabilistic_predictions
                   (Spec.mapped_labels y_true pos_label) y_prob;
        average (squared_differences labels y_prob) sample_weight
    end.
Proof. destruct pos_label, y_true; reflexivity. Qed.

Lemma out_of_range_split (y_prob : list Q) :
  Exists (fun q => (q < 0)%Q \/ (1 < q)%Q) y_prob
  <-> Exists (fun q => (1 < q)%Q) y_prob \/ Exists (fun q => (q < 0)%Q) y_prob.
Proof.
  rewrite !Exists_exists. split.
  - intros (q & Hin & [Hlo | Hhi]); [right | left]; exists q; split; assumption.
  - intros [(q & Hin & Hq) | (q & Hin & Hq)]; exists q; split; auto.
Qed.

(** The check on labels that are already 0 or 1 and as many as the
    probabilities: it raises on one class or on a probability outside [0, 1],
    and otherwise hands the labels back. *)
Lemma check_binary_probabilistic (labels : list Z) (y_prob : list Q) :
  Forall binary labels -> length labels = length y_prob ->
  ((n_unique labels < 2)%nat \/ Exists (fun q => (q < 0)%Q \/ (1 < q)%Q) y_prob ->
   _check_binary_probabilistic_predictions labels y_prob = Raise ValueError)
  /\ (~ ((n_unique labels < 2)%nat \/ Exists (fun q => (q < 0)%Q \/ (1 < q)%Q) y_prob) ->
      _check_binary_probabilistic_predictions labels y_prob = Return labels).
Proof.
  intros Hbin Hlen. unfold _check_binary_probabilistic_predictions, array_1d.
  rewrite Hlen, check_consistent_length_same. cbn [mbind result_bind].
  rewrite unique_length. pose proof (n_unique_binary labels Hbin) as Hle.
  destruct (n_unique labels =? 2)%nat eqn:Etwo; cbn [negb].
  2: { apply Nat.eqb_neq in Etwo. split; [reflexivity |].
       intros Hnot. exfalso. apply Hnot. left. lia. }
  apply Nat.eqb_eq in Etwo. rewrite (unique_binary labels Hbin Etwo).
  rewrite (label_binarize_column_binary labels Hbin).
  destruct y_prob as [| x rest].
  { destruct labels; [discriminate Etwo | discriminate Hlen]. }
  cbn [maxQ minQ mbind result_bind]. rewrite out_of_range_split.
  destruct (Qltb 1 (foldr Qmax x rest)) eqn:Emax.
  { split; [reflexivity |]. intros Hnot. exfalso. apply Hnot. right. left.
    apply max_above, Qltb_lt, Emax. }
  destruct (Qltb (foldr Qmin x rest) 0) eqn:Emin.
  { split; [reflexivity |]. intros Hnot. exfalso. apply Hnot. right. right.
    apply min_below, Qltb_lt, Emin. }
  split; [| reflexivity].
  intros [Hfew | [Hhi | Hlo]]; [lia | |].
  - apply max_above, Qltb_lt in Hhi. congruence.
  - apply min_below, Qltb_lt in Hlo. congruence.
Qed.

Lemma invalid_input_dec (y_true : list Z) (y_prob : list Q) (pos_label : option Z) :
  {Spec.invalid_input y_true y_prob pos_label}
  + {~ Spec.invalid_input y_true y_prob pos_label}.
Proof.
  unfold Spec.invalid_input.
  destruct (lt_dec (n_unique (Spec.mapped_labels y_true pos_label)) 2) as [Hfew | Hfew];
    [left; left; exact Hfew |].
  destruct (List.Exists_dec (fun q => (q < 0)%Q \/ (1 < q)%Q) y_prob) as [Hout | Hout].
  - intros q. destruct (Qlt_le_dec q 0) as [Hlo | Hlo]; [left; left; exact Hlo |].
    destruct (Qlt_le_dec 1 q) as [Hhi | Hhi]; [left; right; exact Hhi |].
    right. intros [H | H]; eapply Qlt_not_le; eassumption.
  - left. right. exact Hout.
  - right. intros [H | H]; contradiction.
Qed.

(** C7: on index-aligned arrays [brier_score_loss] raises exactly when the
    input is invalid, that is when the labels mapped against the positive
    label (by default the largest one) show fewer than two values or a
    probability lies outside [0, 1]; on valid input it returns the mean
    squared difference; and on the one-class labels [1, 1, 1] it raises
    whatever the probabilities. *)
Theorem brier_score_loss_raises_iff_invalid
    (y_true : list Z) (y_prob : list Q) (pos_label : option Z) :
  (length y_true = length y_prob ->
   (raises (brier_score_loss y_true y_prob None pos_label)
    <-> Spec.invalid_input y_true y_prob pos_label)
   /\ (~ Spec.invalid_input y_true y_prob pos_label ->
       exists score,
         brier_score_loss y_true y_prob None pos_label = Return score
         /\ (score == Spec.mean_squared_difference
                        (Spec.mapped_labels y_true pos_label) y_prob)%Q))
  /\ (forall probabilities : list Q,
        raises (brier_score_loss [1; 1; 1] probabilities None None)).
Proof.
  split.
  - intros Hlen.
    assert (Hcases :
      (Spec.invalid_input y_true y_prob pos_label ->
       raises (brier_score_loss y_true y_prob None pos_label))
      /\ (~ Spec.invalid_input y_true y_prob pos_label ->
          exists score,
            brier_score_loss y_true y_prob None pos_label = Return score
            /\ (score == Spec.mean_squared_difference
                           (Spec.mapped_labels y_true pos_label) y_prob)%Q)).
    { rewrite brier_score_loss_steps.
      assert (Hempty : pos_label = None -> y_true = [] ->
                       Spec.invalid_input y_true y_prob pos_label).
      { intros -> ->. left. cbn. lia. }
      destruct (check_binary_probabilistic
                  (Spec.mapped_labels y_true pos_label) y_prob
                  (mapped_labels_binary y_true pos_label)) as [Hbad Hgood].
      { rewrite mapped_labels_length. exact Hlen. }
      fold (Spec.invalid_input y_true y_prob pos_label) in Hbad, Hgood.
      split.
      - intros Hinv. exists ValueError.
        destruct pos_label as [l |], y_true as [| x rest];
          try reflexivity; rewrite (Hbad Hinv); reflexivity.
      - intros Hvalid.
        exists (sumQ (squared_differences (Spec.mapped_labels y_true pos_label) y_prob)
                / inject_Z (len (squared_differences
                                   (Spec.mapped_labels y_true pos_label) y_prob)))%Q.
        split.
        + destruct pos_label as [l |], y_true as [| x rest];
            try (rewrite (Hgood Hvalid); reflexivity).
          exfalso. apply Hvalid, Hempty; reflexivity.
        + unfold Spec.mean_squared_difference, len, squared_differences at 2.
          rewrite length_zip_with, mapped_labels_length, Hlen, Nat.min_id.
          rewrite squared_differences_sum. reflexivity. }
    destruct Hcases as [Hbad Hgood]. split; [| exact Hgood].
    split; [| exact Hbad].
    intros [cls Hraise].
    destruct (invalid_input_dec y_true y_prob pos_label) as [Hinv | Hvalid];
      [exact Hinv |].
    destruct (Hgood Hvalid) as (score & Hret & _). congruence.
  - intros probabilities. exists ValueError.
    rewrite brier_score_loss_steps.
    change (Spec.mapped_labels [1; 1; 1] None) with [1; 1; 1].
    unfold _check_binary_probabilistic_predictions, array_1d.
    change (length [1; 1; 1]) with 3%nat.
    destruct (decide (3%nat = length probabilities)) as [Heq | Hne].
    + rewrite <- Heq, check_consistent_length_same. reflexivity.
    + rewrite (check_consistent_length_differ _ _ Hne). reflexivity.
Qed.

(** ** The pooled scoring loop *)

(** C6: the thresholded prediction of a case is 1 exactly when its
    probability is strictly above 0.5, and 0 otherwise; for the labels
    [0, 1] with both probabilities at 0.5 no case is predicted positive, and
    precision, recall and F1 are 0. *)
Theorem binarize_strict_threshold :
  (forall (p : list Q) (i : nat),
     (binarize p !! i = Some 1 <-> exists x, p !! i = Some x /\ (0.5 < x)%Q)
     /\ (binarize p !! i = Some 0 <-> exists x, p !! i = Some x /\ ~ (0.5 < x)%Q))
  /\ binarize [0.5; 0.5]%Q = [0; 0]
  /\ Metrics.precision [0; 1] (binarize [0.5; 0.5]%Q) = 0%Q
  /\ Metrics.recall [0; 1] (binarize [0.5; 0.5]%Q) = 0%Q
  /\ Metrics.f1 [0; 1] (binarize [0.5; 0.5]%Q) = 0%Q.
Proof.
  split; [| repeat split; reflexivity].
  intros p i. unfold binarize. rewrite list_lookup_fmap.
  destruct (p !! i) as [x |]; cbn.
  - destruct (Qltb 0.5 x) eqn:E.
    + apply Qltb_lt in E. split; split.
      * intros _. exists x. split; [reflexivity | exact E].
      * reflexivity.
      * discriminate.
      * intros (x' & [= <-] & Hnot). contradiction.
    + assert (Hnot : ~ (0.5 < x)%Q).
      { intros Hlt. apply Qltb_lt in Hlt. congruence. }
      split; split.
      * discriminate.
      * intros (x' & [= <-] & Hlt). contradiction.
      * intros _. exists x. split; [reflexivity | exact Hnot].
      * reflexivity.
  - split; split; try discriminate; intros (x & Hx & _); discriminate.
Qed.

Section MainProperties.
Context {G : Type} `{RandomState G}.
Variable sklearn : Sklearn.
Variable aggregate : string -> list (Z * Q).
Variable os_random : nat -> G.
Variable args : Args.
Variable var_labels : gmap string string.
Variable index_names : list string.
Variable index_acron : gmap string string.

Lemma bootstrap_call_commands {B} (score_fun : list Z -> list B -> result Q)
    y_true y_pred pvalue iter (w : World) :
  commands (bootstrap_call os_random score_fun y_true y_pred pvalue iter w).2
  = commands w.
Proof.
  unfold bootstrap_call, new_RandomState, pure, mbind, IO_bind.
  reflexivity.
Qed.

Lemma score_cell_commands (point : result Q) (interval : IO (Q * Q)) (w : World) :
  (forall w0, commands (interval w0).2 = commands w0) ->
  commands (score_cell args point interval w).2 = commands w.
Proof.
  intros Hint. unfold score_cell, pure, mbind, IO_bind, mret, IO_ret. cbn.
  destruct point as [score |]; [| reflexivity].
  destruct (bootstrap args); [| reflexivity].
  specialize (Hint w). destruct (interval w) as [[[lo hi] |] w']; exact Hint.
Qed.

Lemma some_cell_commands (m : IO Cell) (w : World) :
  commands (m w).2 = commands w ->
  commands ((c ← m; mret (Some c)) w).2 = commands w.
Proof.
  unfold mbind, IO_bind, mret, IO_ret.
  destruct (m w) as [[c |] w']; intros Hm; exact Hm.
Qed.

Lemma score_branch_commands score y p pb (w : World) :
  commands (score_branch sklearn os_random args score y p pb w).2 = commands w.
Proof.
  unfold score_branch.
  repeat match goal with
         | |- context [if String.eqb ?a ?b then _ else _] =>
             destruct (String.eqb a b)
         end; try reflexivity;
    apply some_cell_commands, score_cell_commands;
    intros w0; apply bootstrap_call_commands.
Qed.

Lemma score_loop_commands scores y p pb cells (w : World) :
  commands (score_loop sklearn os_random args scores y p pb cells w).2 = commands w.
Proof.
  revert cells w. induction scores as [| score rest IH]; intros cells w;
    [reflexivity |].
  cbn [score_loop]. unfold mbind, IO_bind.
  pose proof (score_branch_commands score y p pb w) as Hb.
  destruct (score_branch sklearn os_random args score y p pb w) as [[c |] w'];
    cbn in Hb; [| exact Hb].
  rewrite IH. exact Hb.
Qed.

(** A line that one of the [continue] statements stops changes nothing. *)
Lemma rank_line_not_considered line score_lines (w : World) :
  considered args index_names line = false ->
  rank_line sklearn aggregate os_random args var_labels index_names index_acron
    line score_lines w = (Return score_lines, w).
Proof.
  unfold considered, rank_line. intros Hc.
  destruct (in_list (pred line) (excluded_predictors args)); [reflexivity |].
  destruct (in_list _ index_names); [| reflexivity]. cbn [negb].
  destruct (_ && extra_missing _ _); [reflexivity | discriminate].
Qed.

(** A line that gets past them is decided by the test on [f1_min]. *)
Lemma rank_line_considered line score_lines :
  considered args index_names line = true ->
  rank_line sklearn aggregate os_random args var_labels index_names index_acron
    line score_lines
  = if Qle_bool (f1_min args) (f1_mean line) then
      _ ← os_system (aggregate_command args line);
      let df := aggregate (aggregate_command args line) in
      if len df.*1 =? 0 then mret score_lines
      else
        acron ← pure (dict_get index_acron
                        (if String.eqb (index_mode args) "PRED" then pred line
                         else find_index index_names (mdl_str line) ""));
        labels ← pure (dict_get_all var_labels (split (vars line) ","%char));
        cells ← score_loop sklearn os_random args (scores args)
                  df.*1 df.*2 (binarize df.*2) [];
        mret (score_lines ++ [{| acronym := acron;
                                 variables := labels;
                                 cells := cells |}])
    else mret score_lines.
Proof.
  unfold considered, rank_line. intros Hc.
  destruct (in_list (pred line) (excluded_predictors args)); [discriminate |].
  destruct (in_list _ index_names); [| discriminate]. cbn [negb].
  destruct (_ && extra_missing _ _); [discriminate | reflexivity].
Qed.

Lemma rank_line_commands line score_lines (w : World) :
  commands (rank_line sklearn aggregate os_random args var_labels index_names
              index_acron line score_lines w).2
  = if considered args index_names line && Qle_bool (f1_min args) (f1_mean line)
    then commands w ++ [aggregate_command args line]
    else commands w.
Proof.
  destruct (considered args index_names line) eqn:Hc.
  - rewrite (rank_line_considered _ _ Hc). cbn [andb].
    destruct (Qle_bool (f1_min args) (f1_mean line)); [| reflexivity].
    unfold mbind at 1. unfold IO_bind, os_system. cbn [fst snd].
    destruct (len _ =? 0); [reflexivity |].
    unfold mbind, IO_bind, pure.
    destruct (dict_get _ _); [| reflexivity].
    destruct (dict_get_all _ _); [| reflexivity].
    match goal with
    | |- context [score_loop _ _ _ ?s ?y ?p ?pb ?c ?w0] =>
        pose proof (score_loop_commands s y p pb c w0) as Hl;
        destruct (score_loop sklearn os_random args s y p pb c w0) as [[cs |] w']
    end; exact Hl.
  - rewrite (rank_line_not_considered _ _ _ Hc). reflexivity.
Qed.
End MainProperties.

Lemma score_cell_bootstrap (args : Args) (point : result Q) (interval : IO (Q * Q))
    (w w' : World) (c : Cell) :
  bootstrap args = true ->
  (c0 ← score_cell args point interval; mret (Some c0)) w = (Return (Some c), w') ->
  (exists lo hi, c = Interval lo (Spec.reported c) hi)
  /\ point = Return (Spec.reported c).
Proof.
  intros Hboot. unfold score_cell, pure, mbind, IO_bind, mret, IO_ret.
  rewrite Hboot. destruct point as [score |]; [| discriminate].
  destruct (interval w) as [[[lo hi] |] w0]; [| discriminate].
  intros [= <- <-]. split; [exists lo, hi |]; reflexivity.
Qed.

(** C4, as the code has it: among the ranking lines that pass the three
    guards, the predictions of a line are pooled (the aggregation command
    runs) exactly when [f1_min <= f1_mean]; a line whose F1 equals the
    threshold is pooled, and a line below it changes nothing. *)
Theorem pooled_iff_f1_min_reached
    {G : Type} `{RandomState G} (sklearn : Sklearn)
    (aggregate : string -> list (Z * Q)) (os_random : nat -> G) (args : Args)
    (var_labels : gmap string string) (index_names : list string)
    (index_acron : gmap string string)
    (line : RankLine) (score_lines : list ScoreLine) (w : World) :
  considered args index_names line = true ->
  let outcome := rank_line sklearn aggregate os_random args var_labels
                   index_names index_acron line score_lines w in
  (commands outcome.2 = commands w ++ [aggregate_command args line]
   <-> (f1_min args <= f1_mean line)%Q)
  /\ ((f1_mean line == f1_min args)%Q ->
      commands outcome.2 = commands w ++ [aggregate_command args line])
  /\ (~ (f1_min args <= f1_mean line)%Q -> outcome = (Return score_lines, w)).
Proof.
  intros Hc outcome.
  assert (Hcmd : commands outcome.2
                 = if Qle_bool (f1_min args) (f1_mean line)
                   then commands w ++ [aggregate_command args line]
                   else commands w).
  { unfold outcome. rewrite rank_line_commands, Hc. reflexivity. }
  destruct (Qle_bool (f1_min args) (f1_mean line)) eqn:Ele.
  - pose proof (proj1 (Qle_bool_iff _ _) Ele) as Hle.
    repeat split; auto. intros Hnot. contradiction.
  - assert (Hnot : ~ (f1_min args <= f1_mean line)%Q).
    { intros Hle. apply Qle_bool_iff in Hle. congruence. }
    split; [| split].
    + split; [| intros Hle; contradiction].
      rewrite Hcmd. intros Heq.
      apply (f_equal (@length string)) in Heq. rewrite length_app in Heq.
      cbn in Heq. lia.
    + intros Heq. exfalso. apply Hnot. rewrite Heq. apply Qle_refl.
    + intros _. unfold outcome. rewrite (rank_line_considered _ _ _ _ _ _ _ _ _ Hc).
      rewrite Ele. reflexivity.
Qed.

(** C5: in bootstrap mode every cell that is written is an interval around
    the score of the named metric on the data as read, so its middle value
    is the same whatever generators the operating system hands out. *)
Theorem point_estimate_on_original_data
    {G1 : Type} `{RandomState G1} {G2 : Type} `{RandomState G2}
    (sklearn : Sklearn) (os_random1 : nat -> G1) (os_random2 : nat -> G2)
    (args : Args) (score : string) (y : list Z) (p : list Q) (w1 w2 : World) :
  bootstrap args = true ->
  (forall c w1',
     score_branch sklearn os_random1 args score y p (binarize p) w1
       = (Return (Some c), w1') ->
     (exists lo hi, c = Interval lo (Spec.reported c) hi)
     /\ Spec.point_estimate sklearn score y p = Some (Return (Spec.reported c)))
  /\ (forall c1 c2 w1' w2',
        score_branch sklearn os_random1 args score y p (binarize p) w1
          = (Return (Some c1), w1') ->
        score_branch sklearn os_random2 args score y p (binarize p) w2
          = (Return (Some c2), w2') ->
        Spec.reported c1 = Spec.reported c2).
Proof.
  intros Hboot.
  assert (Hpoint : forall (G : Type) (HG : RandomState G) (os_random : nat -> G) c w w',
            score_branch sklearn os_random args score y p (binarize p) w
              = (Return (Some c), w') ->
            (exists lo hi, c = Interval lo (Spec.reported c) hi)
            /\ Spec.point_estimate sklearn score y p = Some (Return (Spec.reported c))).
  { intros G HG os_random c w w'. unfold score_branch, Spec.point_estimate.
    repeat match goal with
           | |- context [if String.eqb ?a ?b then _ else _] =>
               destruct (String.eqb a b)
           end;
      try (intros Hrun; apply (score_cell_bootstrap _ _ _ _ _ _ Hboot) in Hrun;
           destruct Hrun as [Hshape ->]; split; [exact Hshape | reflexivity]).
    discriminate. }
  split.
  - intros c w1'. apply Hpoint.
  - intros c1 c2 w1' w2' Hrun1 Hrun2.
    apply Hpoint in Hrun1 as [_ Hp1]. apply Hpoint in Hrun2 as [_ Hp2].
    congruence.
Qed.

(** C10: a line that passes the guards and the test on [f1_min] but whose
    aggregated predictions have no rows adds no score line and raises
    nothing: past the aggregation command the loop goes on with the next
    line as if the line had not been there. *)
Theorem empty_predictions_skipped
    {G : Type} `{RandomState G} (sklearn : Sklearn)
    (aggregate : string -> list (Z * Q)) (os_random : nat -> G) (args : Args)
    (var_labels : gmap string string) (index_names : list string)
    (index_acron : gmap string string)
    (line : RankLine) (rest : list RankLine) (score_lines : list ScoreLine)
    (w : World) :
  considered args index_names line = true ->
  (f1_min args <= f1_mean line)%Q ->
  aggregate (aggregate_command args line) = [] ->
  rank_line sklearn aggregate os_random args var_labels index_names index_acron
    line score_lines w
  = (Return score_lines, after_command (aggregate_command args line) w)
  /\ rank_lines sklearn aggregate os_random args var_labels index_names index_acron
       (line :: rest) score_lines w
     = rank_lines sklearn aggregate os_random args var_labels index_names index_acron
         rest score_lines (after_command (aggregate_command args line) w).
Proof.
  intros Hc Hle Hempty.
  assert (Hline : rank_line sklearn aggregate os_random args var_labels index_names
                    index_acron line score_lines w
                  = (Return score_lines,
                     after_command (aggregate_command args line) w)).
  { rewrite (rank_line_considered _ _ _ _ _ _ _ _ _ Hc).
    apply Qle_bool_iff in Hle. rewrite Hle, Hempty. reflexivity. }
  split; [exact Hline |].
  cbn [rank_lines]. unfold mbind at 1. unfold IO_bind at 1.
  rewrite Hline. reflexivity.
Qed.

(** ** The per-fold averages *)

Import Eval.

Lemma foldl_skip {A B} (step : A -> B -> A) (keep : B -> bool) :
  (forall acc t, keep t = false -> step acc t = acc) ->
  forall l acc, foldl step acc l = foldl step acc (List.filter keep l).
Proof.
  intros Hskip l. induction l as [| t l IH]; intros acc; [reflexivity |].
  cbn [foldl List.filter]. destruct (keep t) eqn:E.
  - cbn [foldl]. apply IH.
  - rewrite (Hskip acc t E). apply IH.
Qed.

Section AverageProperties.
Variable fs : list string.
Variable module : Predictor.

Lemma cal_dis_step_skip acc t :
  usable fs module t = false -> cal_dis_step fs module acc t = acc.
Proof. intros E. unfold cal_dis_step. destruct acc as [[? ?] ?]. rewrite E. reflexivity. Qed.

Lemma report_step_skip acc t :
  usable fs module t = false -> report_step fs module acc t = acc.
Proof. intros E. unfold report_step. destruct acc as [[[? ?] ?] ?]. rewrite E. reflexivity. Qed.

Lemma roc_step_skip acc t :
  usable fs module t = false -> roc_step fs module acc t = acc.
Proof. intros E. unfold roc_step. destruct acc as [? ?]. rewrite E. reflexivity. Qed.

Lemma conf_mat_step_skip acc t :
  usable fs module t = false -> conf_mat_step fs module acc t = acc.
Proof.
  intros E. unfold conf_mat_step. destruct acc as [? [[[? ?] ?] ?]].
  rewrite E. reflexivity.
Qed.

Lemma no_fold_kept (test_files : list string) :
  Forall (fun t => usable fs module t = false) test_files ->
  List.filter (usable fs module) test_files = [].
Proof.
  induction 1 as [| t l Ht _ IH]; [reflexivity |].
  cbn [List.filter]. rewrite Ht. exact IH.
Qed.

(** On folds that are all usable each loop counts every fold and adds
    every result. *)
Lemma cal_dis_all_usable (folds : list string) count total_cal total_dis :
  Forall (fun t => usable fs module t = true) folds ->
  foldl (cal_dis_step fs module) (count, total_cal, total_dis) folds
  = (count + len folds,
     foldl Qplus total_cal
       (map (fun t => (eval_1 module t (trainfile_of t) (pfile_of module t)).1) folds),
     foldl Qplus total_dis
       (map (fun t => (eval_1 module t (trainfile_of t) (pfile_of module t)).2) folds)).
Proof.
  intros Hall. revert count total_cal total_dis.
  induction Hall as [| t l Ht _ IH]; intros count total_cal total_dis.
  - cbn. rewrite Z.add_0_r. reflexivity.
  - cbn [foldl map]. unfold cal_dis_step at 2. rewrite Ht.
    destruct (eval_1 module t (trainfile_of t) (pfile_of module t)) as [cal dis].
    rewrite IH. cbn [fst snd].
    replace (count + 1 + len l) with (count + len (t :: l))
      by (unfold len; cbn [length]; lia).
    reflexivity.
Qed.

Lemma report_all_usable (folds : list string) count total_prec total_rec total_f1 :
  Forall (fun t => usable fs module t = true) folds ->
  foldl (report_step fs module) (count, total_prec, total_rec, total_f1) folds
  = (count + len folds,
     foldl add2 total_prec
       (map (fun t => (eval_3 module t (trainfile_of t) (pfile_of module t)).1.1) folds),
     foldl add2 total_rec
       (map (fun t => (eval_3 module t (trainfile_of t) (pfile_of module t)).1.2) folds),
     foldl add2 total_f1
       (map (fun t => (eval_3 module t (trainfile_of t) (pfile_of module t)).2) folds)).
Proof.
  intros Hall. revert count total_prec total_rec total_f1.
  induction Hall as [| t l Ht _ IH]; intros count total_prec total_rec total_f1.
  - cbn. rewrite Z.add_0_r. reflexivity.
  - cbn [foldl map]. unfold report_step at 2. rewrite Ht.
    destruct (eval_3 module t (trainfile_of t) (pfile_of module t)) as [[p r] f].
    rewrite IH. cbn [fst snd].
    replace (count + 1 + len l) with (count + len (t :: l))
      by (unfold len; cbn [length]; lia).
    reflexivity.
Qed.

Lemma kept_folds_usable (test_files : list string) :
  Forall (fun t => usable fs module t = true)
         (List.filter (usable fs module) test_files).
Proof.
  apply Forall_forall. intros t Ht. apply list_elem_of_In in Ht.
  apply filter_In in Ht. apply Ht.
Qed.
End AverageProperties.

(** C3, as the code has it: when no fold has its three files, each of the
    four averages divides by the zero count and fails with Python's own
    [ZeroDivisionError]; nothing is returned, and no error of the module's
    own is raised. *)
Theorem no_usable_fold_zero_division (fs : list string) (module : Predictor) :
  Forall (fun t => usable fs module t = false) (glob_testing fs) ->
  avg_cal_dis fs module = Raise ZeroDivisionError
  /\ avg_report fs module = Raise ZeroDivisionError
  /\ roc_plots fs module = Raise ZeroDivisionError
  /\ avg_conf_mat fs module = Raise ZeroDivisionError.
Proof.
  intros Hnone. pose proof (no_fold_kept fs module _ Hnone) as Hkept.
  unfold avg_cal_dis, avg_report, roc_plots, avg_conf_mat,
    cal_dis_totals, report_totals, roc_totals, conf_mat_totals.
  rewrite (foldl_skip _ _ (cal_dis_step_skip fs module)),
    (foldl_skip _ _ (report_step_skip fs module)),
    (foldl_skip _ _ (roc_step_skip fs module)),
    (foldl_skip _ _ (conf_mat_step_skip fs module)), Hkept.
  repeat split; reflexivity.
Qed.

(** C8: a fold is counted and added to the sums exactly when its test,
    parameter and training files all exist; any other fold leaves the count
    and the sums as they were and raises nothing, so that with one usable
    fold or more [avg_cal_dis] and [avg_report] return the sums over the
    usable folds divided by the number of usable folds.  With three folds of
    which the second lacks its parameter file the count is 2 and the
    averages are the sums of two folds divided by 2. *)
Theorem usable_folds_alone_contribute :
  (forall (fs : list string) (module : Predictor) (test_files : list string),
     let folds := List.filter (usable fs module) test_files in
     let results_1 := map (fun t => eval_1 module t (trainfile_of t) (pfile_of module t)) folds in
     let results_3 := map (fun t => eval_3 module t (trainfile_of t) (pfile_of module t)) folds in
     (forall t, t ∈ folds <->
                t ∈ test_files /\ exists_ fs t = true
                /\ exists_ fs (pfile_of module t) = true
                /\ exists_ fs (trainfile_of t) = true)
     /\ cal_dis_totals fs module test_files
        = (len folds, foldl Qplus 0%Q results_1.*1, foldl Qplus 0%Q results_1.*2)
     /\ report_totals fs module test_files
        = (len folds, foldl add2 (0%Q, 0%Q) results_3.*1.*1,
           foldl add2 (0%Q, 0%Q) results_3.*1.*2,
           foldl add2 (0%Q, 0%Q) results_3.*2))
  /\ (forall (fs : list string) (module : Predictor),
        let folds := List.filter (usable fs module) (glob_testing fs) in
        let results_1 := map (fun t => eval_1 module t (trainfile_of t) (pfile_of module t)) folds in
        let results_3 := map (fun t => eval_3 module t (trainfile_of t) (pfile_of module t)) folds in
        let n := inject_Z (len folds) in
        let total_prec := foldl add2 (0%Q, 0%Q) results_3.*1.*1 in
        let total_rec := foldl add2 (0%Q, 0%Q) results_3.*1.*2 in
        let total_f1 := foldl add2 (0%Q, 0%Q) results_3.*2 in
        1 <= len folds ->
        avg_cal_dis fs module
        = Return ((foldl Qplus 0%Q results_1.*1 / n)%Q,
                  (foldl Qplus 0%Q results_1.*2 / n)%Q)
        /\ avg_report fs module
           = Return (((total_prec.1 / n)%Q, (total_prec.2 / n)%Q),
                     ((total_rec.1 / n)%Q, (total_rec.2 / n)%Q),
                     ((total_f1.1 / n)%Q, (total_f1.2 / n)%Q)))
  /\ glob_testing Examples.three_folds
     = ["./data/testing-data-1.csv"; "./data/testing-data-2.csv";
        "./data/testing-data-3.csv"]
  /\ usable Examples.three_folds Examples.nnet "./data/testing-data-2.csv" = false
  /\ cal_dis_totals Examples.three_folds Examples.nnet
       (glob_testing Examples.three_folds)
     = (2, 2%Q, 6%Q)
  /\ avg_cal_dis Examples.three_folds Examples.nnet = Return (2 # 2, 6 # 2)%Q
  /\ report_totals Examples.three_folds Examples.nnet
       (glob_testing Examples.three_folds)
     = (2, (2%Q, 2%Q), (2%Q, 0%Q), (2%Q, 0%Q))
  /\ avg_report Examples.three_folds Examples.nnet
     = Return ((2 # 2, 2 # 2), (2 # 2, 0 # 2), (2 # 2, 0 # 2))%Q.
Proof.
  split; [| split; [| repeat split; vm_compute; reflexivity]].
  - intros fs module test_files folds results_1 results_3. split; [| split].
    + intros t. unfold folds. rewrite !list_elem_of_In, filter_In.
      unfold usable. rewrite !andb_true_iff. tauto.
    + unfold cal_dis_totals.
      rewrite (foldl_skip _ _ (cal_dis_step_skip fs module)).
      rewrite (cal_dis_all_usable fs module _ _ _ _ (kept_folds_usable fs module test_files)).
      unfold results_1, folds. rewrite <- !list_fmap_compose. reflexivity.
    + unfold report_totals.
      rewrite (foldl_skip _ _ (report_step_skip fs module)).
      rewrite (report_all_usable fs module _ _ _ _ _ (kept_folds_usable fs module test_files)).
      unfold results_3, folds. rewrite <- !list_fmap_compose. reflexivity.
  - intros fs module folds results_1 results_3 n total_prec total_rec total_f1 Hone.
    split.
    + unfold avg_cal_dis, cal_dis_totals.
      rewrite (foldl_skip _ _ (cal_dis_step_skip fs module) (glob_testing fs)).
      rewrite (cal_dis_all_usable fs module _ _ _ _ (kept_folds_usable fs module _)).
      fold folds. unfold divide. rewrite !Z.add_0_l.
      destruct (len folds =? 0) eqn:E; [lia |].
      unfold results_1, n. rewrite <- !list_fmap_compose. reflexivity.
    + unfold avg_report, report_totals.
      rewrite (foldl_skip _ _ (report_step_skip fs module) (glob_testing fs)).
      rewrite (report_all_usable fs module _ _ _ _ _ (kept_folds_usable fs module _)).
      fold folds. unfold divide2, divide. rewrite !Z.add_0_l.
      destruct (len folds =? 0) eqn:E; [lia |].
      unfold total_prec, total_rec, total_f1, results_3, n.
      rewrite <- !list_fmap_compose. reflexivity.
Qed.

(** ** The properties on sample data *)

Lemma replay_range (size : nat) (tape : list Z) (low high : Z) :
  low <= high ->
  length (replay tape low high size).1 = size
  /\ Forall (fun i => low <= i <= high) (replay tape low high size).1.
Proof.
  intros Hle. revert tape. induction size as [| size IH]; intros tape.
  - split; [reflexivity | constructor].
  - cbn [replay]. destruct (IH (tail tape)) as [Hlen Hall].
    destruct (replay (tail tape) low high size) as [rest tape']. cbn [fst] in *.
    split; [cbn; rewrite Hlen; reflexivity |].
    constructor; [| exact Hall].
    pose proof (Z.mod_pos_bound (match tape with [] => 0 | r :: _ => r end)
                  (high - low + 1)). lia.
Qed.

#[local] Instance tape_RandomStateOk : RandomStateOk (list Z).
Proof. intros g low high size Hle. apply replay_range, Hle. Qed.

Import Examples.

Lemma score_bootstrap_percentile_witness :
  length [0; 1; 1] = length [0; 1; 0]
  /\ (1 <= length [0; 1; 0])%nat
  /\ (0 <= five_percent)%Q /\ (five_percent <= 1)%Q
  /\ 4 < 2 ^ 53
  /\ Spec.retained_scores Metrics.precision [0; 1; 1] [0; 1; 0] 4 (tape_a 0)
     = [1%Q; 0%Q; 1%Q]
  /\ score_bootstrap (fun a b => Return (Metrics.precision a b))
       [0; 1; 1] [0; 1; 0] five_percent 4 (tape_a 0)
     = match Spec.percentile_interval five_percent
               (Spec.retained_scores Metrics.precision [0; 1; 1] [0; 1; 0]
                  (Z.to_nat 4) (tape_a 0)) with
       | Some interval => Return interval
       | None => Raise IndexError
       end.
Proof.
  assert (Hlen : length [0; 1; 1] = length [0; 1; 0]) by reflexivity.
  assert (Hne : (1 <= length [0; 1; 0])%nat) by (cbn; lia).
  assert (Hp0 : (0 <= five_percent)%Q) by (vm_compute; discriminate).
  assert (Hp1 : (five_percent <= 1)%Q) by (vm_compute; discriminate).
  assert (Hiter : 4 < 2 ^ 53) by reflexivity.
  do 5 (split; [assumption |]). split; [vm_compute; reflexivity |].
  apply (score_bootstrap_percentile Metrics.precision [0; 1; 1] [0; 1; 0]
           five_percent 4 (tape_a 0) Hlen Hne Hp0 Hp1 Hiter).
Defined.

(** The positions that the default confidence reads of 1000 scores; the
    floor of the exact upper product is one less. *)
Lemma positions_at_default_confidence :
  float_int (float_mul (Finite five_percent) (float_of_int 1000)) = Return 50
  /\ float_int (float_mul (float_sub (Finite 1) (Finite five_percent))
                  (float_of_int 1000))
     = Return 950
  /\ Qfloor ((1 - five_percent) * 1000) = 949.
Proof. repeat split; vm_compute; reflexivity. Qed.

Lemma score_bootstrap_positions_valid_witness :
  bootstrap_loop brier [0; 1; 1] [0; 1; 0.5]%Q (Z.to_nat 4) (tape_b 0) []
    = Return [25 # 300; 0 # 3; 25 # 300]%Q
  /\ 1 <= len [25 # 300; 0 # 3; 25 # 300]%Q < 2 ^ 53
  /\ (ulp_below_one <= five_percent)%Q /\ (five_percent <= 1 # 2)%Q
  /\ exists lower upper confidence_lower confidence_upper,
       float_int (float_mul (Finite five_percent) (float_of_int 3)) = Return lower
       /\ float_int (float_mul (float_sub (Finite 1) (Finite five_percent))
                       (float_of_int 3))
          = Return upper
       /\ 0 <= lower < 3 /\ 0 <= upper < 3
       /\ score_bootstrap brier [0; 1; 1] [0; 1; 0.5]%Q five_percent 4 (tape_b 0)
          = Return (confidence_lower, confidence_upper)
       /\ (confidence_lower <= confidence_upper)%Q.
Proof.
  assert (Hloop : bootstrap_loop brier [0; 1; 1] [0; 1; 0.5]%Q (Z.to_nat 4) (tape_b 0) []
                  = Return [25 # 300; 0 # 3; 25 # 300]%Q) by (vm_compute; reflexivity).
  assert (HM : 1 <= len [25 # 300; 0 # 3; 25 # 300]%Q < 2 ^ 53)
    by (unfold len; cbn; lia).
  assert (Hp : (ulp_below_one <= five_percent)%Q) by (vm_compute; discriminate).
  assert (Hhalf : (five_percent <= 1 # 2)%Q) by (vm_compute; discriminate).
  repeat (split; [assumption |]).
  apply (proj1 (score_bootstrap_positions_valid brier [0; 1; 1] [0; 1; 0.5]%Q
                  five_percent 4 (tape_b 0) _ Hloop HM) Hp Hhalf).
Defined.

(** C1 as stated fails: at the default confidence the error rate is the
    float [1.0 - 95 / 100.0], a little above 0.05.  Of twenty retained
    scores the exact product [(1 - p) * 20] is below 19 and its floor is 18,
    but the float product is 19.0: the code returns the score at position
    19, the largest, where the floor of the exact product gives the score at
    position 18.  With [-c 90] and ten scores the float product [p * 10] is
    below 1 and the lower position is 0, while the floor of 0.1 * 10 is 1. *)
Lemma score_bootstrap_rounded_position :
  bootstrap_loop brier [0; 1; 1] [0; 1; 0.5]%Q (Z.to_nat 20) tape_c []
    = Return (replicate 19 (0 # 3)%Q ++ [5000 # 30000]%Q)
  /\ Qfloor ((1 - five_percent) * 20) = 18
  /\ float_int (float_mul (float_sub (Finite 1) (Finite five_percent))
                  (float_of_int 20))
     = Return 19
  /\ Spec.exact_interval five_percent (replicate 19 (0 # 3)%Q ++ [5000 # 30000]%Q)
     = Some (0 # 3, 0 # 3)%Q
  /\ score_bootstrap brier [0; 1; 1] [0; 1; 0.5]%Q five_percent 20 tape_c
     = Return (0 # 3, 5000 # 30000)%Q
  /\ ~ (5000 # 30000 == 0 # 3)%Q
  /\ float_int (float_mul (Finite ten_percent) (float_of_int 10)) = Return 0
  /\ Qfloor ((10 # 100) * 10) = 1.
Proof.
  split; [vm_compute; reflexivity |]. split; [vm_compute; reflexivity |].
  split; [vm_compute; reflexivity |]. split; [vm_compute; reflexivity |].
  split; [vm_compute; reflexivity |]. split; [vm_compute; discriminate |].
  split; vm_compute; reflexivity.
Qed.

(** C9 as stated fails: for an error rate of 2^-54, which is in (0, 1/2],
    and three retained scores the float [1 - p] is 1.0, the upper position
    is 3 and the read is out of range. *)
Lemma score_bootstrap_tiny_error_rate :
  (0 < tiny_rate)%Q /\ (tiny_rate <= 1 # 2)%Q
  /\ bootstrap_loop brier [0; 1; 1] [0; 1; 0.5]%Q (Z.to_nat 4) (tape_b 0) []
     = Return [25 # 300; 0 # 3; 25 # 300]%Q
  /\ 1 <= len [25 # 300; 0 # 3; 25 # 300]%Q
  /\ float_int (float_mul (float_sub (Finite 1) (Finite tiny_rate)) (float_of_int 3))
     = Return 3
  /\ score_bootstrap brier [0; 1; 1] [0; 1; 0.5]%Q tiny_rate 4 (tape_b 0)
     = Raise "IndexError".
Proof.
  split; [reflexivity |]. split; [vm_compute; discriminate |].
  split; [vm_compute; reflexivity |]. split; [vm_compute; discriminate |].
  split; vm_compute; reflexivity.
Qed.

(** C2 as stated fails: with a single retained score the call returns an
    interval of that score, and with none it fails on the index. *)
Lemma score_bootstrap_no_minimum_of_scores :
  bootstrap_loop brier two_cases_true two_cases_prob (Z.to_nat 1) [0; 1] []
    = Return [0 # 2]%Q
  /\ score_bootstrap brier two_cases_true two_cases_prob five_percent 1 [0; 1]
     = Return (0 # 2, 0 # 2)%Q
  /\ bootstrap_loop brier two_cases_true two_cases_prob (Z.to_nat 1) [0; 0] []
     = Return []
  /\ score_bootstrap brier two_cases_true two_cases_prob five_percent 1 [0; 0]
     = Raise "IndexError"
  /\ score_bootstrap brier two_cases_true two_cases_prob five_percent 1 [0; 0]
     <> Raise "InsufficientSamplesError".
Proof. repeat split; try (vm_compute; reflexivity). vm_compute. discriminate. Qed.

Lemma score_bootstrap_few_scores_witness :
  bootstrap_loop brier two_cases_true two_cases_prob (Z.to_nat 1) [0; 1] []
    = Return [0 # 2]%Q
  /\ (ulp_below_one <= five_percent)%Q /\ (five_percent <= 1 - ulp_below_one)%Q
  /\ score_bootstrap brier two_cases_true two_cases_prob five_percent 1 [0; 1]
     = Return (0 # 2, 0 # 2)%Q.
Proof.
  assert (Hloop : bootstrap_loop brier two_cases_true two_cases_prob (Z.to_nat 1) [0; 1] []
                  = Return [0 # 2]%Q) by (vm_compute; reflexivity).
  assert (Hp : (ulp_below_one <= five_percent)%Q) by (vm_compute; discriminate).
  assert (Hp1 : (five_percent <= 1 - ulp_below_one)%Q) by (vm_compute; discriminate).
  repeat (split; [assumption |]).
  apply (proj1 (proj2 (score_bootstrap_few_scores brier two_cases_true two_cases_prob
                         five_percent 1 [0; 1] _ Hloop)) (0 # 2)%Q eq_refl Hp Hp1).
Defined.

(** C3 as stated fails: without a usable fold the averages fail on the
    division itself. *)
Lemma no_usable_fold_generic_failure :
  List.filter (usable no_params nnet) (glob_testing no_params) = []
  /\ avg_cal_dis no_params nnet = Raise "ZeroDivisionError"
  /\ avg_report no_params nnet = Raise "ZeroDivisionError"
  /\ roc_plots no_params nnet = Raise "ZeroDivisionError"
  /\ avg_conf_mat no_params nnet = Raise "ZeroDivisionError"
  /\ avg_report no_params nnet <> Raise "NoUsableFoldsError".
Proof. repeat split; try (vm_compute; reflexivity). vm_compute. discriminate. Qed.

Lemma no_usable_fold_zero_division_witness :
  Forall (fun t => usable no_params nnet t = false) (glob_testing no_params)
  /\ avg_cal_dis no_params nnet = Raise ZeroDivisionError
  /\ avg_report no_params nnet = Raise ZeroDivisionError
  /\ roc_plots no_params nnet = Raise ZeroDivisionError
  /\ avg_conf_mat no_params nnet = Raise ZeroDivisionError.
Proof.
  assert (Hnone : Forall (fun t => usable no_params nnet t = false)
                         (glob_testing no_params)).
  { change (glob_testing no_params) with ["./data/testing-data-1.csv"].
    repeat constructor. }
  split; [exact Hnone |].
  apply (no_usable_fold_zero_division no_params nnet Hnone).
Defined.

(** C4 as stated fails: a line whose F1 equals the threshold passes the
    test, its predictions are pooled and its score line is written. *)
Lemma threshold_line_is_pooled :
  f1_mean line_at_threshold = f1_min (brier_args false)
  /\ ~ (f1_min (brier_args false) < f1_mean line_at_threshold)%Q
  /\ considered (brier_args false) index_names line_at_threshold = true
  /\ rank_line Metrics.sklearn three_rows tape_a (brier_args false)
       var_labels index_names index_acron line_at_threshold [] start
     = (Return [{| acronym := "NN";
                   variables := ["Age"; "Temperature"];
                   cells := [Point (25 # 300)] |}],
        {| commands := ["python utils/aggregate.py -B ./ -N 12 -p nnet"];
           generators := 0 |}).
Proof.
  repeat split; try (vm_compute; reflexivity).
  apply Qlt_irrefl.
Qed.

Lemma pooled_iff_f1_min_reached_witness :
  considered (brier_args false) index_names line_at_threshold = true
  /\ (f1_mean line_at_threshold == f1_min (brier_args false))%Q
  /\ commands (rank_line Metrics.sklearn three_rows tape_a (brier_args false)
                 var_labels index_names index_acron line_at_threshold [] start).2
     = commands start ++ [aggregate_command (brier_args false) line_at_threshold].
Proof.
  assert (Hc : considered (brier_args false) index_names line_at_threshold = true)
    by (vm_compute; reflexivity).
  assert (Heq : (f1_mean line_at_threshold == f1_min (brier_args false))%Q)
    by reflexivity.
  repeat (split; [assumption |]).
  apply (proj1 (proj2 (pooled_iff_f1_min_reached Metrics.sklearn three_rows tape_a
                         (brier_args false) var_labels index_names index_acron
                         line_at_threshold [] start Hc)) Heq).
Defined.

Lemma point_estimate_on_original_data_witness :
  bootstrap (brier_args true) = true
  /\ score_branch Metrics.sklearn tape_a (brier_args true) "brier"
       [0; 1; 1] [0; 1; 0.5]%Q (binarize [0; 1; 0.5]%Q) start
     = (Return (Some (Interval (25 # 300) (25 # 300) (25 # 300))),
        {| commands := []; generators := 1 |})
  /\ score_branch Metrics.sklearn tape_b (brier_args true) "brier"
       [0; 1; 1] [0; 1; 0.5]%Q (binarize [0; 1; 0.5]%Q) start
     = (Return (Some (Interval (0 # 3) (25 # 300) (25 # 300))),
        {| commands := []; generators := 1 |})
  /\ Spec.point_estimate Metrics.sklearn "brier" [0; 1; 1] [0; 1; 0.5]%Q
     = Some (Return (25 # 300)%Q).
Proof.
  assert (Hboot : bootstrap (brier_args true) = true) by reflexivity.
  assert (Hrun1 : score_branch Metrics.sklearn tape_a (brier_args true) "brier"
                    [0; 1; 1] [0; 1; 0.5]%Q (binarize [0; 1; 0.5]%Q) start
                  = (Return (Some (Interval (25 # 300) (25 # 300) (25 # 300))),
                     {| commands := []; generators := 1 |}))
    by (vm_compute; reflexivity).
  assert (Hrun2 : score_branch Metrics.sklearn tape_b (brier_args true) "brier"
                    [0; 1; 1] [0; 1; 0.5]%Q (binarize [0; 1; 0.5]%Q) start
                  = (Return (Some (Interval (0 # 3) (25 # 300) (25 # 300))),
                     {| commands := []; generators := 1 |}))
    by (vm_compute; reflexivity).
  repeat (split; [assumption |]).
  apply (proj2 (proj1 (point_estimate_on_original_data Metrics.sklearn tape_b tape_a
                         (brier_args true) "brier" [0; 1; 1] [0; 1; 0.5]%Q
                         start start Hboot) _ _ Hrun2)).
Defined.

Lemma empty_predictions_skipped_witness :
  considered (brier_args false) index_names line_at_threshold = true
  /\ (f1_min (brier_args false) <= f1_mean line_at_threshold)%Q
  /\ no_rows (aggregate_command (brier_args false) line_at_threshold) = []
  /\ rank_line Metrics.sklearn no_rows tape_a (brier_args false)
       var_labels index_names index_acron line_at_threshold [] start
     = (Return [],
        after_command (aggregate_command (brier_args false) line_at_threshold) start).
Proof.
  assert (Hc : considered (brier_args false) index_names line_at_threshold = true)
    by (vm_compute; reflexivity).
  assert (Hle : (f1_min (brier_args false) <= f1_mean line_at_threshold)%Q)
    by apply Qle_refl.
  assert (Hempty : no_rows (aggregate_command (brier_args false) line_at_threshold) = [])
    by reflexivity.
  repeat (split; [assumption |]).
  apply (proj1 (empty_predictions_skipped Metrics.sklearn no_rows tape_a
                  (brier_args false) var_labels index_names index_acron
                  line_at_threshold [] [] start Hc Hle Hempty)).
Defined.

Lemma brier_score_loss_raises_iff_invalid_witness :
  length [1; 1; 1] = length [0.2; 0.5; 0.9]%Q
  /\ Spec.invalid_input [1; 1; 1] [0.2; 0.5; 0.9]%Q None
  /\ raises (brier_score_loss [1; 1; 1] [0.2; 0.5; 0.9]%Q None None).
Proof.
  assert (Hlen : length [1; 1; 1] = length [0.2; 0.5; 0.9]%Q) by reflexivity.
  assert (Hinv : Spec.invalid_input [1; 1; 1] [0.2; 0.5; 0.9]%Q None)
    by (left; vm_compute; lia).
  repeat (split; [assumption |]).
  apply (proj2 (proj1 (proj1 (brier_score_loss_raises_iff_invalid
                                [1; 1; 1] [0.2; 0.5; 0.9]%Q None) Hlen)) Hinv).
Defined.

(** * Further properties of [utils/aggregated_scores.py] *)

Import Notions.

(** ** Lengths, ranges *)

Lemma in_list_elem_of (x : string) (l : list string) :
  in_list x l = true <-> x ∈ l.
Proof.
  unfold in_list. rewrite existsb_exists. split.
  - intros (y & Hin & Heq). apply String.eqb_eq in Heq. subst y.
    apply list_elem_of_In, Hin.
  - intros Hin. exists x. split; [apply list_elem_of_In, Hin | apply String.eqb_refl].
Qed.

Lemma nodup_all_equal {A} (l : list A) :
  NoDup l -> (forall a b, a ∈ l -> b ∈ l -> a = b) -> (length l <= 1)%nat.
Proof.
  intros Hnd Heq. destruct l as [| a [| b rest]]; cbn; try lia.
  exfalso. apply NoDup_cons in Hnd as [Hnot _]. apply Hnot.
  rewrite (Heq a b); [left | left | right; left].
Qed.

Lemma num_samples_of_outcome (arrays : list (option ArrayLike)) :
  match num_samples_of arrays with
  | Return ns =>
      ns = omap samples (omap id arrays)
      /\ Forall (fun X => is_Some (samples X)) (omap id arrays)
  | Raise cls =>
      cls = TypeError /\ Exists (fun X => samples X = None) (omap id arrays)
  end.
Proof.
  induction arrays as [| [X |] rest IH]; [split; [reflexivity | constructor] | |].
  - cbn [num_samples_of omap list_omap id].
    change (list_omap _ _ id rest) with (omap id rest).
    unfold samples at 1 3 4.
    destruct X as [| | [| n shape] | n]; cbn [_num_samples mbind result_bind];
      try (split; [reflexivity | left; reflexivity]).
    all: destruct (num_samples_of rest) as [ns | cls]; cbn [mbind result_bind];
      [destruct IH as [-> Hall]; split;
         [reflexivity | constructor; [eexists; reflexivity | exact Hall]]
      | destruct IH as [-> Hbad]; split; [reflexivity | right; exact Hbad]].
  - cbn [num_samples_of omap list_omap id]. exact IH.
Qed.

(** X1: of the arguments that are not [None], an estimator, an object
    without length, shape and [__array__], or a zero-dimensional array makes
    [check_consistent_length] raise [TypeError]; otherwise it returns
    exactly when all the numbers of samples (the first dimension of an
    array, the length of a sequence) are the same, and raises [ValueError]
    when two differ.  It has no other outcome. *)
Theorem check_consistent_length_all_equal (arrays : list (option ArrayLike)) :
  let given := omap id arrays in
  let all_sampled := Forall (fun X => is_Some (samples X)) given in
  let all_equal :=
    forall a b, a ∈ omap samples given -> b ∈ omap samples given -> a = b in
  (check_consistent_length arrays = Raise TypeError
   <-> Exists (fun X => X = Estimator \/ X = Scalar \/ X = Shaped []) given)
  /\ (check_consistent_length arrays = Return tt <-> all_sampled /\ all_equal)
  /\ (check_consistent_length arrays = Raise ValueError
      <-> all_sampled /\ ~ all_equal)
  /\ (check_consistent_length arrays = Return tt
      \/ check_consistent_length arrays = Raise TypeError
      \/ check_consistent_length arrays = Raise ValueError).
Proof.
  intros given all_sampled all_equal.
  assert (Hnone : forall X, samples X = None
                            <-> X = Estimator \/ X = Scalar \/ X = Shaped []).
  { intros [| | [| n shape] | n]; cbn; split; intros H1; try discriminate;
      try tauto; destruct H1 as [H1 | [H1 | H1]]; discriminate. }
  assert (Hexists : Exists (fun X => samples X = None) given
                    <-> Exists (fun X => X = Estimator \/ X = Scalar \/ X = Shaped [])
                          given).
  { rewrite !Exists_exists. split; intros (X & Hin & HX); exists X;
      (split; [exact Hin | apply Hnone, HX]). }
  assert (Hexcl : Exists (fun X => samples X = None) given -> ~ all_sampled).
  { intros Hbad Hall. apply Exists_exists in Hbad as (X & Hin & HX).
    unfold all_sampled in Hall. rewrite Forall_forall in Hall.
    destruct (Hall X Hin) as [n Hn]. congruence. }
  unfold check_consistent_length.
  pose proof (num_samples_of_outcome arrays) as Hout. fold given in Hout.
  destruct (num_samples_of arrays) as [ns | cls]; cbn [mbind result_bind].
  2: { destruct Hout as [-> Hbad].
       split; [split; [intros _; apply Hexists, Hbad | reflexivity] |].
       split; [split; [discriminate | intros [Hall _]; destruct (Hexcl Hbad Hall)] |].
       split; [split; [discriminate | intros [Hall _]; destruct (Hexcl Hbad Hall)] |].
       right. left. reflexivity. }
  destruct Hout as [-> Hall].
  assert (Hsame : (length (remove_dups (omap samples given)) <= 1)%nat <-> all_equal).
  { unfold all_equal. split.
    - intros Hle a b Ha Hb. rewrite <- elem_of_remove_dups in Ha, Hb.
      destruct (remove_dups (omap samples given)) as [| c [| d rest]];
        cbn in Hle; [inversion Ha | | lia].
      apply list_elem_of_singleton in Ha, Hb. congruence.
    - intros Heq. apply nodup_all_equal; [apply NoDup_remove_dups |].
      intros a b Ha Hb. rewrite elem_of_remove_dups in Ha, Hb. auto. }
  destruct (1 <? length (remove_dups (omap samples given)))%nat eqn:E.
  - apply Nat.ltb_lt in E.
    assert (Hdiff : ~ all_equal) by (rewrite <- Hsame; lia).
    split; [split; [discriminate | intros Hbad; apply Hexists in Hbad;
                                   destruct (Hexcl Hbad Hall)] |].
    split; [split; [discriminate | intros [_ Heq]; contradiction] |].
    split; [split; [intros _; split; assumption | reflexivity] |].
    right. right. reflexivity.
  - apply Nat.ltb_ge in E. apply Hsame in E.
    split; [split; [discriminate | intros Hbad; apply Hexists in Hbad;
                                   destruct (Hexcl Hbad Hall)] |].
    split; [split; [intros _; split; assumption | reflexivity] |].
    split; [split; [discriminate | intros [_ Hdiff]; contradiction] |].
    left. reflexivity.
Qed.

Lemma sumQ_range (a : list Q) :
  Forall (fun x => (0 <= x <= 1)%Q) a ->
  (0 <= sumQ a <= inject_Z (len a))%Q.
Proof.
  induction 1 as [| x a [Hlo Hhi] _ [IHlo IHhi]].
  - cbn. split; apply Qle_refl.
  - unfold len in *. cbn [sumQ foldr length]. fold (sumQ a).
    rewrite Nat2Z.inj_succ. unfold Z.succ. rewrite inject_Z_plus.
    change (inject_Z 1) with 1%Q. split; lra.
Qed.

Lemma squared_difference_range (t : Z) (q : Q) :
  binary t -> (0 <= q <= 1)%Q ->
  (0 <= (inject_Z t - q) * (inject_Z t - q) <= 1)%Q.
Proof.
  intros [-> | ->] [Hlo Hhi].
  - change (inject_Z 0) with 0%Q. split; nra.
  - change (inject_Z 1) with 1%Q. split; nra.
Qed.

Lemma squared_differences_range (labels : list Z) (y_prob : list Q) :
  Forall binary labels -> Forall (fun q => (0 <= q <= 1)%Q) y_prob ->
  Forall (fun x => (0 <= x <= 1)%Q) (squared_differences labels y_prob).
Proof.
  intros Hbin. revert y_prob. induction Hbin as [| t labels Ht _ IH];
    intros y_prob Hprob; [constructor |].
  destruct Hprob as [| q y_prob Hq Hprob]; [constructor |].
  unfold squared_differences. cbn [zip_with]. constructor.
  - apply squared_difference_range; assumption.
  - apply IH, Hprob.
Qed.

(** When the call returns, the arrays had the same length and the input was
    valid in the sense of the check. *)
Lemma brier_score_loss_returns (y_true : list Z) (y_prob : list Q)
    (pos_label : option Z) (score : Q) :
  brier_score_loss y_true y_prob None pos_label = Return score ->
  length y_true = length y_prob
  /\ ~ Spec.invalid_input y_true y_prob pos_label
  /\ score = (sumQ (squared_differences (Spec.mapped_labels y_true pos_label) y_prob)
              / inject_Z (len (squared_differences
                                 (Spec.mapped_labels y_true pos_label) y_prob)))%Q.
Proof.
  rewrite brier_score_loss_steps. intros Hret.
  assert (Hsteps :
    (labels ← _check_binary_probabilistic_predictions
                (Spec.mapped_labels y_true pos_label) y_prob;
     average (squared_differences labels y_prob) None) = Return score).
  { destruct pos_label as [l |], y_true as [| x rest];
      try exact Hret. discriminate Hret. }
  clear Hret.
  destruct (decide (length y_true = length y_prob)) as [Hlen | Hlen].
  - destruct (check_binary_probabilistic
                (Spec.mapped_labels y_true pos_label) y_prob
                (mapped_labels_binary y_true pos_label)) as [Hbad Hgood].
    { rewrite mapped_labels_length. exact Hlen. }
    fold (Spec.invalid_input y_true y_prob pos_label) in Hbad, Hgood.
    destruct (invalid_input_dec y_true y_prob pos_label) as [Hinv | Hvalid].
    + rewrite (Hbad Hinv) in Hsteps. discriminate.
    + rewrite (Hgood Hvalid) in Hsteps. cbn in Hsteps.
      injection Hsteps as <-. repeat split; assumption.
  - unfold _check_binary_probabilistic_predictions, array_1d in Hsteps.
    rewrite check_consistent_length_differ in Hsteps; [discriminate |].
    rewrite mapped_labels_length. exact Hlen.
Qed.

(** X2: a Brier score that is returned lies between 0 and 1. *)
Theorem brier_score_loss_range (y_true : list Z) (y_prob : list Q)
    (pos_label : option Z) (score : Q) :
  brier_score_loss y_true y_prob None pos_label = Return score ->
  (0 <= score <= 1)%Q.
Proof.
  intros Hret.
  destruct (brier_score_loss_returns _ _ _ _ Hret) as (Hlen & Hvalid & ->).
  set (sq := squared_differences (Spec.mapped_labels y_true pos_label) y_prob).
  assert (Hprob : Forall (fun q => (0 <= q <= 1)%Q) y_prob).
  { apply Forall_forall. intros q Hq.
    destruct (Qlt_le_dec q 0) as [Hlo | Hlo].
    { exfalso. apply Hvalid. right. apply Exists_exists. exists q. auto. }
    destruct (Qlt_le_dec 1 q) as [Hhi | Hhi].
    { exfalso. apply Hvalid. right. apply Exists_exists. exists q. auto. }
    split; assumption. }
  pose proof (sumQ_range sq (squared_differences_range _ _
                (mapped_labels_binary y_true pos_label) Hprob)) as [Hlo Hhi].
  assert (Hpos : (0 < inject_Z (len sq))%Q).
  { assert (2 <= length sq)%nat.
    { unfold sq, squared_differences.
      rewrite length_zip_with, mapped_labels_length, Hlen, Nat.min_id, <- Hlen.
      rewrite <- (mapped_labels_length y_true pos_label).
      assert (~ (n_unique (Spec.mapped_labels y_true pos_label) < 2)%nat)
        by (intros Hfew; apply Hvalid; left; exact Hfew).
      pose proof (submseteq_length _ _
                    (NoDup_submseteq (remove_dups (Spec.mapped_labels y_true pos_label))
                       (Spec.mapped_labels y_true pos_label)
                       (NoDup_remove_dups _)
                       (fun x Hx => proj1 (elem_of_remove_dups _ x) Hx))).
      unfold n_unique in *. lia. }
    unfold len, Qlt. cbn. lia. }
  split.
  - apply Qle_shift_div_l; [exact Hpos | lra].
  - apply Qle_shift_div_r; [exact Hpos | lra].
Qed.

(** ** What the bootstrap loop records *)

Lemma getitem_elem_of {A} (a : list A) (i : Z) (x : A) :
  getitem a i = Return x -> x ∈ a.
Proof.
  unfold getitem.
  destruct ((if i <? 0 then len a + i else i) <? 0); [discriminate |].
  destruct (a !! Z.to_nat (if i <? 0 then len a + i else i)) as [y |] eqn:E;
    [| discriminate].
  intros [= <-]. eapply list_elem_of_lookup_2, E.
Qed.

Lemma getitem_error {A} (a : list A) (i : Z) (cls : string) :
  getitem a i = Raise cls -> cls = IndexError.
Proof.
  unfold getitem.
  destruct ((if i <? 0 then len a + i else i) <? 0); [intros [= <-]; reflexivity |].
  destruct (a !! Z.to_nat (if i <? 0 then len a + i else i));
    [discriminate | intros [= <-]; reflexivity].
Qed.

Lemma take_indices_elem_of {A} (a : list A) (indices : list Z) (taken : list A) :
  take_indices a indices = Return taken ->
  length taken = length indices /\ forall x, x ∈ taken -> x ∈ a.
Proof.
  revert taken. induction indices as [| i rest IH]; intros taken.
  - intros [= <-]. split; [reflexivity |]. intros x Hx. inversion Hx.
  - cbn [take_indices]. destruct (getitem a i) as [x |] eqn:Ei; [| discriminate].
    cbn [mbind result_bind].
    destruct (take_indices a rest) as [xs |]; [| discriminate].
    intros [= <-]. destruct (IH xs eq_refl) as [Hlen Hin]. split.
    + cbn. rewrite Hlen. reflexivity.
    + intros y Hy. apply elem_of_cons in Hy as [-> | Hy];
        [eapply getitem_elem_of, Ei | apply Hin, Hy].
Qed.

Lemma take_indices_error {A} (a : list A) (indices : list Z) (cls : string) :
  take_indices a indices = Raise cls -> cls = IndexError.
Proof.
  induction indices as [| i rest IH]; [discriminate |].
  cbn [take_indices]. destruct (getitem a i) as [x |] eqn:Ei.
  - cbn [mbind result_bind]. destruct (take_indices a rest) as [xs |];
      [discriminate |]. intros [= <-]. apply IH. reflexivity.
  - intros [= <-]. eapply getitem_error, Ei.
Qed.

Lemma n_unique_subset {A} `{EqDecision A} (a b : list A) :
  (forall x, x ∈ a -> x ∈ b) -> (n_unique a <= n_unique b)%nat.
Proof.
  intros Hsub. unfold n_unique.
  apply submseteq_length, NoDup_submseteq; [apply NoDup_remove_dups |].
  intros x Hx. rewrite elem_of_remove_dups in *. auto.
Qed.

Section BootstrapRecords.
Context {G : Type} `{RandomState G} {A B : Type} `{EqDecision A}.
Variable score_fun : list A -> list B -> result Q.
Variable y_true : list A.
Variable y_pred : list B.

Hypothesis not_empty : (1 <= length y_pred)%nat.

Lemma draw_integers_returns `{!RandomStateOk G} (rng : G) :
  exists indices rng',
    draw_integers rng 0 (len y_pred - 1) (length y_pred) = Return (indices, rng')
    /\ length indices = length y_pred.
Proof.
  unfold draw_integers, len.
  destruct (Z.of_nat (length y_pred) - 1 <? 0) eqn:E; [lia |].
  destruct (random_integers_range rng 0 (Z.of_nat (length y_pred) - 1) (length y_pred))
    as [Hlen _]; [lia |].
  destruct (random_integers rng 0 (Z.of_nat (length y_pred) - 1) (length y_pred))
    as [indices rng']. exists indices, rng'. split; [reflexivity | exact Hlen].
Qed.

Lemma bootstrap_loop_records `{!RandomStateOk G} (K : nat) (rng : G)
    (recorded scores : list Q) :
  bootstrap_loop score_fun y_true y_pred K rng recorded = Return scores ->
  exists new,
    scores = recorded ++ new
    /\ (length new <= K)%nat
    /\ Forall (from_two_classes score_fun y_true y_pred) new.
Proof.
  revert rng recorded. induction K as [| K IH]; intros rng recorded.
  - intros [= <-]. exists []. rewrite app_nil_r. repeat split; [cbn; lia | constructor].
  - cbn [bootstrap_loop].
    destruct (draw_integers_returns rng) as (indices & rng' & -> & Hlen).
    cbn [mbind result_bind].
    destruct (take_indices y_true indices) as [yt |] eqn:Et; [| discriminate].
    cbn [mbind result_bind].
    destruct (n_unique yt <? 2)%nat eqn:Efew.
    + intros Hloop. destruct (IH _ _ Hloop) as (new & -> & Hcount & Hall).
      exists new. repeat split; [lia | exact Hall].
    + apply Nat.ltb_ge in Efew.
      destruct (take_indices y_pred indices) as [yp |] eqn:Ep; [| discriminate].
      cbn [mbind result_bind].
      destruct (score_fun yt yp) as [s |] eqn:Es; [| discriminate].
      cbn [mbind result_bind]. intros Hloop.
      destruct (IH _ _ Hloop) as (new & -> & Hcount & Hall).
      exists (s :: new). rewrite <- app_assoc. repeat split; [cbn; lia |].
      constructor; [| exact Hall].
      exists indices, yt, yp. repeat split; assumption.
Qed.

(** With labels of a single class the loop never records anything: it
    either ends on the empty list or stops on an index out of range. *)
Lemma bootstrap_loop_single_class (K : nat) (rng : G) :
  (n_unique y_true < 2)%nat ->
  bootstrap_loop score_fun y_true y_pred K rng [] = Return []
  \/ bootstrap_loop score_fun y_true y_pred K rng [] = Raise IndexError.
Proof.
  intros Hone. revert rng. induction K as [| K IH]; intros rng; [left; reflexivity |].
  cbn [bootstrap_loop]. unfold draw_integers, len.
  destruct (Z.of_nat (length y_pred) - 1 <? 0) eqn:E; [lia |].
  destruct (random_integers rng 0 (Z.of_nat (length y_pred) - 1) (length y_pred))
    as [indices rng']. cbn [mbind result_bind].
  destruct (take_indices y_true indices) as [yt | cls] eqn:Et.
  - cbn [mbind result_bind].
    destruct (take_indices_elem_of _ _ _ Et) as [_ Hin].
    pose proof (n_unique_subset yt y_true Hin) as Hle.
    destruct (n_unique yt <? 2)%nat eqn:Efew; [apply IH |].
    apply Nat.ltb_ge in Efew. lia.
  - right. cbn. f_equal. eapply take_indices_error, Et.
Qed.
End BootstrapRecords.

Lemma score_bootstrap_no_scores
    {G : Type} `{RandomState G} {A B : Type} `{EqDecision A}
    (score_fun : list A -> list B -> result Q)
    (y_true : list A) (y_pred : list B) (pvalue : Q) (iter : Z) (rng : G) :
  bootstrap_loop score_fun y_true y_pred (Z.to_nat iter) rng [] = Return [] ->
  score_bootstrap score_fun y_true y_pred pvalue iter rng = Raise IndexError.
Proof.
  intros Hloop. rewrite (score_bootstrap_after_loop _ _ _ _ _ _ _ Hloop).
  change (sort []) with (@nil Q). change (len (@nil Q)) with 0.
  change (float_of_int 0) with (Finite 0). cbn [float_mul].
  rewrite (round64_zero (pvalue * 0)) by ring. reflexivity.
Qed.

(** X3: on labels of a single class every resample is discarded, so the
    estimator fails with [IndexError] for any score function, error rate,
    iteration count and generator. *)
Theorem score_bootstrap_single_class
    {G : Type} `{RandomState G} {A B : Type} `{EqDecision A}
    (score_fun : list A -> list B -> result Q)
    (y_true : list A) (y_pred : list B) (pvalue : Q) (iter : Z) (rng : G) :
  (n_unique y_true < 2)%nat ->
  (1 <= length y_pred)%nat ->
  score_bootstrap score_fun y_true y_pred pvalue iter rng = Raise IndexError.
Proof.
  intros Hone Hne.
  destruct (bootstrap_loop_single_class score_fun y_true y_pred Hne
              (Z.to_nat iter) rng Hone) as [Hloop | Hloop].
  - apply score_bootstrap_no_scores, Hloop.
  - unfold score_bootstrap. rewrite Hloop. reflexivity.
Qed.

(** X4: when the estimator returns, both bounds are scores that the loop
    recorded, there are at most [iter] of them, and each is the score
    function applied to the labels and predictions at one array of N drawn
    indices whose labels show two classes or more. *)
Theorem score_bootstrap_bounds_recorded
    {G : Type} `{RandomStateOk G} {A B : Type} `{EqDecision A}
    (score_fun : list A -> list B -> result Q)
    (y_true : list A) (y_pred : list B) (pvalue : Q) (iter : Z) (rng : G)
    (confidence_lower confidence_upper : Q) :
  (1 <= length y_pred)%nat ->
  score_bootstrap score_fun y_true y_pred pvalue iter rng
    = Return (confidence_lower, confidence_upper) ->
  exists scores,
    bootstrap_loop score_fun y_true y_pred (Z.to_nat iter) rng [] = Return scores
    /\ confidence_lower ∈ scores /\ confidence_upper ∈ scores
    /\ 1 <= len scores <= iter
    /\ Forall (from_two_classes score_fun y_true y_pred) scores.
Proof.
  intros Hne Hret. unfold score_bootstrap in Hret.
  destruct (bootstrap_loop score_fun y_true y_pred (Z.to_nat iter) rng [])
    as [scores |] eqn:Hloop; [| discriminate].
  cbn [mbind result_bind] in Hret.
  destruct (float_int (float_mul (Finite pvalue) (float_of_int (len (sort scores)))))
    as [lower |]; [| discriminate].
  cbn [mbind result_bind] in Hret.
  destruct (getitem (sort scores) lower) as [lo |] eqn:Elo; [| discriminate].
  cbn [mbind result_bind] in Hret.
  destruct (float_int (float_mul (float_sub (Finite 1) (Finite pvalue))
                         (float_of_int (len (sort scores)))))
    as [upper |]; [| discriminate].
  cbn [mbind result_bind] in Hret.
  destruct (getitem (sort scores) upper) as [hi |] eqn:Ehi; [| discriminate].
  injection Hret as <- <-.
  apply getitem_elem_of in Elo, Ehi. unfold sort in Elo, Ehi.
  rewrite merge_sort_Permutation in Elo, Ehi.
  destruct (bootstrap_loop_records score_fun y_true y_pred Hne _ _ _ _ Hloop)
    as (new & Hnew & Hcount & Hall). cbn [app] in Hnew. subst new.
  assert (Hone : (1 <= length scores)%nat)
    by (destruct scores; [inversion Elo | cbn; lia]).
  exists scores. unfold len. repeat split; try assumption; lia.
Qed.

(** ** The scoring loop *)

Lemma last_cons_default {A} (x d : A) (l : list A) :
  List.last (x :: l) d = List.last l x.
Proof.
  revert x d. induction l as [| y l IH]; intros x d; [reflexivity |].
  change (List.last (x :: y :: l) d) with (List.last (y :: l) d).
  rewrite (IH y d), (IH y x). reflexivity.
Qed.

Lemma find_index_find (index_names : list string) (mdl_str idx : string) :
  find_index index_names mdl_str idx
  = match List.find (contains mdl_str) index_names with
    | Some name => name
    | None => List.last index_names idx
    end.
Proof.
  revert idx. induction index_names as [| name rest IH]; intros idx; [reflexivity |].
  cbn [find_index List.find]. destruct (contains mdl_str name); [reflexivity |].
  rewrite IH. destruct (List.find (contains mdl_str) rest); [reflexivity |].
  symmetry. apply last_cons_default.
Qed.

(** X5: in imputation mode the index of a line is the first index name that
    occurs in its model path and, when none occurs, the last index name; so
    with index names at hand the index is always one of them and the guard
    on the index never stops a line. *)
Theorem find_index_among_names (index_names : list string) (mdl_str : string) :
  index_names <> [] ->
  find_index index_names mdl_str ""
  = match List.find (contains mdl_str) index_names with
    | Some name => name
    | None => List.last index_names ""
    end
  /\ in_list (find_index index_names mdl_str "") index_names = true.
Proof.
  intros Hne. split; [apply find_index_find |].
  rewrite find_index_find. apply in_list_elem_of.
  destruct (List.find (contains mdl_str) index_names) as [name |] eqn:E.
  - apply find_some in E as [Hin _]. apply list_elem_of_In, Hin.
  - destruct (exists_last Hne) as (front & final & ->).
    rewrite last_last. apply elem_of_app. right. left.
Qed.

Section ScoringLoop.
Context {G : Type} `{RandomState G}.
Variable sklearn : Sklearn.
Variable aggregate : string -> list (Z * Q).
Variable os_random : nat -> G.
Variable args : Args.
Variable var_labels : gmap string string.
Variable index_names : list string.
Variable index_acron : gmap string string.

Lemma score_cell_generators (point : result Q) {B}
    (score_fun : list Z -> list B -> result Q) y x pv it (w w' : World)
    (c : option Cell) :
  (c0 ← score_cell args point
          (bootstrap_call os_random score_fun y x pv it);
   mret (Some c0)) w = (Return c, w') ->
  is_Some c /\ generators w' = (generators w + generators_per_cell args)%nat.
Proof.
  unfold score_cell, bootstrap_call, new_RandomState, pure, mbind, IO_bind,
    mret, IO_ret, generators_per_cell.
  destruct point as [score |]; [| discriminate].
  destruct (bootstrap args).
  - cbn -[score_bootstrap].
    destruct (score_bootstrap score_fun y x pv it (os_random (generators w)))
      as [[lo hi] |]; [| discriminate].
    intros [= <- <-]. split; [eexists; reflexivity | cbn; lia].
  - intros [= <- <-]. split; [eexists; reflexivity | lia].
Qed.

Lemma score_branch_outcome score y p pb (w w' : World) (c : option Cell) :
  score_branch sklearn os_random args score y p pb w = (Return c, w') ->
  if recognised score
  then is_Some c /\ generators w' = (generators w + generators_per_cell args)%nat
  else c = None /\ w' = w.
Proof.
  unfold score_branch, recognised, in_list. cbn [existsb].
  unfold precision_bootstrap, recall_bootstrap, f1_bootstrap, brier_bootstrap,
    roc_bootstrap.
  repeat match goal with
         | |- context [if String.eqb ?a ?b then _ else _] =>
             destruct (String.eqb a b) eqn:?
         end; cbn [orb]; try apply score_cell_generators.
  intros [= <- <-]. split; reflexivity.
Qed.

(** X6: when the loop over the requested scores returns, it has added one
    cell for each requested name among precision, recall, f1, brier and auc,
    in order and after the cells it was given, and nothing for any other
    name; in bootstrap mode it has asked for one generator per cell, and
    none otherwise. *)
Theorem score_loop_one_cell_per_score (scores : list string)
    (y : list Z) (p : list Q) (pb : list Z) (cells cells' : list Cell)
    (w w' : World) :
  score_loop sklearn os_random args scores y p pb cells w = (Return cells', w') ->
  (exists new, cells' = cells ++ new
               /\ length new = length (List.filter recognised scores))
  /\ generators w'
     = (generators w + length (List.filter recognised scores) * generators_per_cell args)%nat.
Proof.
  revert cells w. induction scores as [| score rest IH]; intros cells w.
  - intros [= <- <-]. split; [exists []; rewrite app_nil_r; split; reflexivity |].
    cbn. lia.
  - cbn [score_loop]. unfold mbind at 1. unfold IO_bind at 1.
    destruct (score_branch sklearn os_random args score y p pb w)
      as [[c |] w0] eqn:Eb; [| discriminate].
    pose proof (score_branch_outcome _ _ _ _ _ _ _ Eb) as Hout.
    intros Hrest. destruct (IH _ _ Hrest) as [(new & -> & Hlen) Hgen].
    cbn [List.filter]. destruct (recognised score).
    + destruct Hout as [[c0 ->] Hw0]. cbn [option_list]. split.
      * exists (c0 :: new). rewrite <- app_assoc. split; [reflexivity |].
        cbn. rewrite Hlen. reflexivity.
      * rewrite Hgen, Hw0. cbn [length]. lia.
    + destruct Hout as [-> ->]. cbn [option_list]. rewrite app_nil_r. split.
      * exists new. split; [reflexivity | exact Hlen].
      * exact Hgen.
Qed.

Lemma rank_line_row line score_lines score_lines' (w w' : World) :
  rank_line sklearn aggregate os_random args var_labels index_names index_acron
    line score_lines w = (Return score_lines', w') ->
  if scored aggregate args index_names line
  then exists row, score_lines' = score_lines ++ [row]
  else score_lines' = score_lines.
Proof.
  unfold scored, passes.
  destruct (considered args index_names line) eqn:Hc.
  - rewrite (rank_line_considered _ _ _ _ _ _ _ _ _ Hc). cbn [andb].
    destruct (Qle_bool (f1_min args) (f1_mean line)); cbn [andb];
      [| intros [= <- _]; reflexivity].
    unfold mbind at 1. unfold IO_bind at 1, os_system.
    destruct (len _ =? 0); cbn [negb]; [intros [= <- _]; reflexivity |].
    unfold mbind, IO_bind, pure, mret, IO_ret.
    destruct (dict_get _ _); [| discriminate].
    destruct (dict_get_all _ _); [| discriminate].
    destruct (score_loop _ _ _ _ _ _ _ _ _) as [[cs |] w0]; [| discriminate].
    intros [= <- _]. eexists. reflexivity.
  - rewrite (rank_line_not_considered _ _ _ _ _ _ _ _ _ _ Hc).
    intros [= <- _]. reflexivity.
Qed.

(** X7: when the scoring loop returns, the commands it has run are the
    aggregation commands of the lines that pass the guards and the test on
    [f1_min], in the order of the ranking file, and the score table is the
    table it started from followed by one row for each such line whose
    pooled predictions are not empty. *)
Theorem rank_lines_rows_and_commands (lines : list RankLine)
    (score_lines score_lines' : list ScoreLine) (w w' : World) :
  rank_lines sklearn aggregate os_random args var_labels index_names index_acron
    lines score_lines w = (Return score_lines', w') ->
  commands w'
  = commands w ++ map (aggregate_command args)
                      (List.filter (passes args index_names) lines)
  /\ exists rows,
       score_lines' = score_lines ++ rows
       /\ length rows
          = length (List.filter (scored aggregate args index_names) lines).
Proof.
  revert score_lines w. induction lines as [| line rest IH]; intros score_lines w.
  - intros [= <- <-]. split; [cbn; rewrite app_nil_r; reflexivity |].
    exists []. rewrite app_nil_r. split; reflexivity.
  - cbn [rank_lines]. unfold mbind at 1. unfold IO_bind at 1.
    pose proof (rank_line_commands sklearn aggregate os_random args var_labels
                  index_names index_acron line score_lines w) as Hcmd.
    destruct (rank_line sklearn aggregate os_random args var_labels index_names
                index_acron line score_lines w) as [[sl0 |] w0] eqn:El;
      [| discriminate].
    pose proof (rank_line_row _ _ _ _ _ El) as Hrow. cbn [snd] in Hcmd.
    intros Hrest. destruct (IH _ _ Hrest) as [Hcmds (rows & -> & Hlen)].
    cbn [List.filter]. fold (passes args index_names line) in Hcmd. split.
    + rewrite Hcmds, Hcmd. destruct (passes args index_names line);
        [cbn [map]; rewrite <- app_assoc |]; reflexivity.
    + destruct (scored aggregate args index_names line).
      * destruct Hrow as [row ->]. exists (row :: rows).
        rewrite <- app_assoc. split; [reflexivity |]. cbn. rewrite Hlen. reflexivity.
      * subst sl0. exists rows. split; [reflexivity | exact Hlen].
Qed.
End ScoringLoop.

(** * Further properties of [eval.py] *)

(** ** File names and fold identifiers *)

Lemma string_length_append (a b : string) :
  String.length (a +:+ b) = (String.length a + String.length b)%nat.
Proof. induction a as [| c a IH]; simpl; [reflexivity | rewrite IH; reflexivity]. Qed.

Lemma string_append_assoc (a b c : string) : (a +:+ b) +:+ c = a +:+ b +:+ c.
Proof.
  induction a as [| x a IH]; [reflexivity |].
  change (String x ((a +:+ b) +:+ c) = String x (a +:+ b +:+ c)).
  rewrite IH. reflexivity.
Qed.

Lemma substring_whole_prefix (a b : string) :
  String.substring 0 (String.length a) (a +:+ b) = a.
Proof.
  induction a as [| c a IH]; simpl.
  - destruct b; reflexivity.
  - rewrite IH. reflexivity.
Qed.

Lemma substring_skip_prefix (a b : string) (m : nat) :
  String.substring (String.length a) m (a +:+ b) = String.substring 0 m b.
Proof. induction a as [| c a IH]; simpl; [reflexivity | exact IH]. Qed.

Lemma prefix_first_char (c c' : ascii) (sub s : string) :
  c <> c' -> String.prefix (String c sub) (String c' s) = false.
Proof.
  intros Hne. cbn. destruct (Ascii.ascii_dec c c'); [contradiction | reflexivity].
Qed.

Lemma has_char_first (c c' : ascii) (s : string) :
  has_char c (String c' s) = false -> c <> c' /\ has_char c s = false.
Proof.
  cbn. intros Hno. apply orb_false_iff in Hno as [Hc Hs].
  split; [| exact Hs]. intros ->. rewrite Ascii.eqb_refl in Hc. discriminate.
Qed.

(** A string that starts with a character is not found before a text
    without that character is over. *)
Lemma find_from_after (c : ascii) (sub a b : string) (i : Z) :
  has_char c a = false ->
  find_from (String c sub) (a +:+ b) i
  = find_from (String c sub) b (i + Z.of_nat (String.length a)).
Proof.
  revert i. induction a as [| c' a IH]; intros i Hno.
  - cbn [String.append String.length Z.of_nat]. rewrite Z.add_0_r. reflexivity.
  - apply has_char_first in Hno as [Hne Hno].
    change (String c' a +:+ b) with (String c' (a +:+ b)).
    cbn [find_from]. rewrite (prefix_first_char _ _ _ _ Hne).
    rewrite (IH _ Hno). f_equal. cbn [String.length]. lia.
Qed.

Lemma find_from_absent (c : ascii) (sub a : string) (i : Z) :
  has_char c a = false -> find_from (String c sub) a i = -1.
Proof.
  revert i. induction a as [| c' a IH]; intros i Hno; [reflexivity |].
  apply has_char_first in Hno as [Hne Hno].
  cbn [find_from]. rewrite (prefix_first_char _ _ _ _ Hne). apply IH, Hno.
Qed.

Lemma prefix_append (a b : string) : String.prefix a (a +:+ b) = true.
Proof.
  induction a as [| c a IH]; simpl; [destruct b; reflexivity |].
  destruct (Ascii.ascii_dec c c); [exact IH | contradiction].
Qed.

Lemma find_at_start (a b : string) : find (a +:+ b) a = 0.
Proof.
  unfold find. pose proof (prefix_append a b) as Hp.
  destruct (a +:+ b); cbn [find_from]; rewrite Hp; reflexivity.
Qed.

(** A slice from the end of a first part to the end of a second part is
    the second part. *)
Lemma slice_middle (a b c : string) :
  slice (a +:+ b +:+ c) (Z.of_nat (String.length a))
        (Z.of_nat (String.length a) + Z.of_nat (String.length b)) = b.
Proof.
  unfold slice, clamp. rewrite !string_length_append.
  destruct (Z.ltb_spec (Z.of_nat (String.length a)) 0); [lia |].
  destruct (Z.ltb_spec (Z.of_nat (String.length a) + Z.of_nat (String.length b)) 0);
    [lia |].
  replace (Z.to_nat (Z.max 0 (Z.min _ (Z.of_nat (String.length a)))))
    with (String.length a) by lia.
  replace (Z.to_nat (_ - _)) with (String.length b) by lia.
  rewrite substring_skip_prefix. apply substring_whole_prefix.
Qed.

Lemma fold_id_of_name (id : string) :
  has_char "."%char id = false ->
  fold_id (testing_prefix +:+ id +:+ ".csv") = id.
Proof.
  intros Hno. unfold fold_id.
  assert (Hstart : find (testing_prefix +:+ id +:+ ".csv") testing_prefix = 0)
    by apply find_at_start.
  assert (Hstop : find (testing_prefix +:+ id +:+ ".csv") ".csv"
                  = 20 + Z.of_nat (String.length id)).
  { unfold find, testing_prefix. simpl. change ("" +:+ (id +:+ ".csv")) with (id +:+ ".csv").
    rewrite (find_from_after _ _ _ _ _ Hno). simpl. lia. }
  rewrite Hstart, Hstop. apply (slice_middle testing_prefix id ".csv").
Qed.

(** X8: for an identifier without a dot, the file
    [./data/testing-data-<id>.csv] gives back the identifier, and with it the
    parameter file [./data/<prefix>-params-<id>] and the training file
    [./data/training-data-completed-<id>.csv]; without a separator in the
    identifier the file matches the pattern of the folds. *)
Theorem fold_id_round_trip (module : Predictor) (id : string) :
  has_char "."%char id = false ->
  let testfile := testing_prefix +:+ id +:+ ".csv" in
  fold_id testfile = id
  /\ pfile_of module testfile = "./data/" +:+ prefix module +:+ "-params-" +:+ id
  /\ trainfile_of testfile = "./data/training-data-completed-" +:+ id +:+ ".csv"
  /\ (has_char "/"%char id = false -> is_testing_file testfile = true).
Proof.
  intros Hno testfile. pose proof (fold_id_of_name id Hno) as Hid.
  unfold pfile_of, trainfile_of. fold testfile in Hid. rewrite Hid.
  repeat split. intros Hsep. unfold is_testing_file, testfile.
  rewrite !string_length_append. cbn [String.length testing_prefix].
  replace (20 + (String.length id + 4) - 4)%nat
    with (String.length (testing_prefix +:+ id))
    by (rewrite string_length_append; cbn; lia).
  replace (String.length (testing_prefix +:+ id) - 20)%nat
    with (String.length id) by (rewrite string_length_append; cbn; lia).
  assert (Hpre : String.prefix testing_prefix (testing_prefix +:+ id +:+ ".csv") = true)
    by apply prefix_append.
  assert (Hsuf : String.substring (String.length (testing_prefix +:+ id)) 4
                   (testing_prefix +:+ id +:+ ".csv") = ".csv").
  { rewrite <- (string_append_assoc testing_prefix id ".csv").
    rewrite (substring_skip_prefix (testing_prefix +:+ id) ".csv" 4). reflexivity. }
  assert (Hmid : String.substring 20 (String.length id)
                   (testing_prefix +:+ id +:+ ".csv") = id).
  { change 20%nat with (String.length testing_prefix).
    rewrite (substring_skip_prefix testing_prefix (id +:+ ".csv")).
    apply substring_whole_prefix. }
  rewrite Hpre, Hsuf, Hmid.
  unfold contains, find. rewrite (find_from_absent _ _ _ _ Hsep).
  apply andb_true_iff. split; [| reflexivity].
  apply andb_true_iff. split; [| reflexivity].
  apply andb_true_iff. split; [apply Nat.leb_le; lia | reflexivity].
Qed.

(** ** The other averages, and the order of the folds *)

Section MoreAverages.
Variable fs : list string.
Variable module : Predictor.

Lemma roc_all_usable (folds : list string) count total_roc_auc :
  Forall (fun t => usable fs module t = true) folds ->
  foldl (roc_step fs module) (count, total_roc_auc) folds
  = (count + len folds,
     foldl Qplus total_roc_auc
       (map (fun t => eval_4 module t (trainfile_of t) (pfile_of module t)) folds)).
Proof.
  intros Hall. revert count total_roc_auc.
  induction Hall as [| t l Ht _ IH]; intros count total_roc_auc.
  - cbn. rewrite Z.add_0_r. reflexivity.
  - cbn [foldl map]. unfold roc_step at 2. rewrite Ht, IH.
    replace (count + 1 + len l) with (count + len (t :: l))
      by (unfold len; cbn [length]; lia).
    reflexivity.
Qed.

Lemma conf_mat_all_usable (folds : list string) count h f m c :
  Forall (fun t => usable fs module t = true) folds ->
  foldl (conf_mat_step fs module) (count, (h, f, m, c)) folds
  = (count + len folds,
     (foldl Z.add h
        (map (fun t => (eval_5 module t (trainfile_of t) (pfile_of module t)).1.1.1) folds),
      foldl Z.add f
        (map (fun t => (eval_5 module t (trainfile_of t) (pfile_of module t)).1.1.2) folds),
      foldl Z.add m
        (map (fun t => (eval_5 module t (trainfile_of t) (pfile_of module t)).1.2) folds),
      foldl Z.add c
        (map (fun t => (eval_5 module t (trainfile_of t) (pfile_of module t)).2) folds))).
Proof.
  intros Hall. revert count h f m c.
  induction Hall as [| t l Ht _ IH]; intros count h f m c.
  - cbn. rewrite Z.add_0_r. reflexivity.
  - cbn [foldl map]. unfold conf_mat_step at 2. rewrite Ht.
    destruct (eval_5 module t (trainfile_of t) (pfile_of module t))
      as [[[nh nf] nm] nc].
    rewrite IH. cbn [fst snd].
    replace (count + 1 + len l) with (count + len (t :: l))
      by (unfold len; cbn [length]; lia).
    reflexivity.
Qed.
Lemma roc_totals_usable (test_files : list string) :
  roc_totals fs module test_files
  = (len (List.filter (usable fs module) test_files),
     foldl Qplus 0%Q
       (map (fun t => eval_4 module t (trainfile_of t) (pfile_of module t))
            (List.filter (usable fs module) test_files))).
Proof.
  unfold roc_totals. rewrite (foldl_skip _ _ (roc_step_skip fs module)).
  rewrite (roc_all_usable _ _ _ (kept_folds_usable fs module test_files)).
  reflexivity.
Qed.

Lemma conf_mat_totals_usable (test_files : list string) :
  let results :=
    map (fun t => eval_5 module t (trainfile_of t) (pfile_of module t))
        (List.filter (usable fs module) test_files) in
  conf_mat_totals fs module test_files
  = (len (List.filter (usable fs module) test_files),
     (foldl Z.add 0 results.*1.*1.*1, foldl Z.add 0 results.*1.*1.*2,
      foldl Z.add 0 results.*1.*2, foldl Z.add 0 results.*2)).
Proof.
  intros results. unfold conf_mat_totals.
  rewrite (foldl_skip _ _ (conf_mat_step_skip fs module)).
  rewrite (conf_mat_all_usable _ _ _ _ _ _ (kept_folds_usable fs module test_files)).
  unfold results. rewrite <- !list_fmap_compose. reflexivity.
Qed.
End MoreAverages.

(** X9: the confusion counts and the areas under the ROC curve are summed
    over the folds whose three files exist, and with one such fold or more
    [avg_conf_mat] and [roc_plots] return the totals divided by their number
    as rationals: the confusion averages are not truncated to integers. *)
Theorem confusion_and_roc_over_usable_folds
    (fs : list string) (module : Predictor) (test_files : list string) :
  let folds := List.filter (usable fs module) test_files in
  let results_4 :=
    map (fun t => eval_4 module t (trainfile_of t) (pfile_of module t)) folds in
  let results_5 :=
    map (fun t => eval_5 module t (trainfile_of t) (pfile_of module t)) folds in
  let n := len folds in
  let totals := (foldl Z.add 0 results_5.*1.*1.*1, foldl Z.add 0 results_5.*1.*1.*2,
                 foldl Z.add 0 results_5.*1.*2, foldl Z.add 0 results_5.*2) in
  roc_totals fs module test_files = (n, foldl Qplus 0%Q results_4)
  /\ conf_mat_totals fs module test_files = (n, totals)
  /\ (test_files = glob_testing fs -> 1 <= n ->
      roc_plots fs module = Return (foldl Qplus 0%Q results_4 / inject_Z n)%Q
      /\ avg_conf_mat fs module
         = Return ((inject_Z totals.1.1.1 / inject_Z n)%Q,
                   (inject_Z totals.1.1.2 / inject_Z n)%Q,
                   (inject_Z totals.1.2 / inject_Z n)%Q,
                   (inject_Z totals.2 / inject_Z n)%Q)).
Proof.
  intros folds results_4 results_5 n totals.
  assert (Hroc : roc_totals fs module test_files = (n, foldl Qplus 0%Q results_4))
    by apply roc_totals_usable.
  assert (Hconf : conf_mat_totals fs module test_files = (n, totals))
    by apply conf_mat_totals_usable.
  split; [exact Hroc |]. split; [exact Hconf |].
  intros Hglob Hone. subst test_files.
  unfold roc_plots, avg_conf_mat. rewrite Hroc, Hconf. unfold divide.
  destruct (Z.eqb_spec n 0) as [Hz | _]; [lia |]. split; reflexivity.
Qed.

Lemma filter_permutation {A} (keep : A -> bool) (l l' : list A) :
  l ≡ₚ l' -> List.filter keep l ≡ₚ List.filter keep l'.
Proof.
  induction 1 as [| x l l' _ IH | x y l | l l' l'' _ IH1 _ IH2].
  - reflexivity.
  - cbn. destruct (keep x); [constructor |]; exact IH.
  - cbn. destruct (keep x), (keep y); try reflexivity. constructor.
  - etransitivity; eassumption.
Qed.

(** A left fold with an operation that is associative and commutative up to
    an equivalence does not depend on the order of the list. *)
Lemma foldl_permutation {A} (R : relation A) `{!Equivalence R}
    (op : A -> A -> A) `{!Proper (R ==> R ==> R) op} :
  (forall a b c, R (op (op a b) c) (op (op a c) b)) ->
  forall l l', l ≡ₚ l' -> forall a a', R a a' -> R (foldl op a l) (foldl op a' l').
Proof.
  intros Hswap l l' Hperm.
  induction Hperm as [| x l l' _ IH | x y l | l l' l'' _ IH1 _ IH2]; intros a a' Ha.
  - exact Ha.
  - cbn. apply IH. rewrite Ha. reflexivity.
  - cbn. assert (Hrefl : forall k b b', R b b' -> R (foldl op b k) (foldl op b' k)).
    { intros k. induction k as [| z k IHk]; intros b b' Hb; [exact Hb |].
      cbn. apply IHk. rewrite Hb. reflexivity. }
    apply Hrefl. rewrite Ha. apply Hswap.
  - etransitivity; [apply IH1, Ha | apply IH2; reflexivity].
Qed.

Lemma sum_permutation_Z (l l' : list Z) :
  l ≡ₚ l' -> foldl Z.add 0 l = foldl Z.add 0 l'.
Proof.
  intros Hperm. apply (foldl_permutation eq Z.add); [intros; lia | exact Hperm |].
  reflexivity.
Qed.

(** X10: the order in which the fold files are found does not change what
    the loops count in integers: for two orders of the same files every loop
    finds the same number of usable folds, and the four totals of the
    confusion matrix are the same.  The totals of floats are left aside:
    they are added in the order of the files. *)
Theorem totals_independent_of_order
    (fs : list string) (module : Predictor) (test_files test_files' : list string) :
  test_files ≡ₚ test_files' ->
  conf_mat_totals fs module test_files = conf_mat_totals fs module test_files'
  /\ (roc_totals fs module test_files).1 = (roc_totals fs module test_files').1
  /\ (cal_dis_totals fs module test_files).1.1
     = (cal_dis_totals fs module test_files').1.1
  /\ (report_totals fs module test_files).1.1.1
     = (report_totals fs module test_files').1.1.1.
Proof.
  intros Hperm.
  pose proof (filter_permutation (usable fs module) _ _ Hperm) as Hfolds.
  assert (Hlen : len (List.filter (usable fs module) test_files)
                 = len (List.filter (usable fs module) test_files'))
    by (unfold len; rewrite (Permutation_length Hfolds); reflexivity).
  pose proof (roc_totals_usable fs module test_files) as Hroc.
  pose proof (roc_totals_usable fs module test_files') as Hroc'.
  pose proof (conf_mat_totals_usable fs module test_files) as Hconf.
  pose proof (conf_mat_totals_usable fs module test_files') as Hconf'.
  cbv zeta in Hconf, Hconf'.
  unfold cal_dis_totals, report_totals.
  rewrite (foldl_skip _ _ (cal_dis_step_skip fs module) test_files),
    (foldl_skip _ _ (cal_dis_step_skip fs module) test_files'),
    (foldl_skip _ _ (report_step_skip fs module) test_files),
    (foldl_skip _ _ (report_step_skip fs module) test_files').
  rewrite !(cal_dis_all_usable fs module _ _ _ _ (kept_folds_usable fs module _)),
    !(report_all_usable fs module _ _ _ _ _ (kept_folds_usable fs module _)).
  rewrite Hroc, Hroc', Hconf, Hconf'. cbn [fst snd]. rewrite !Z.add_0_l, Hlen.
  split; [| repeat split].
  set (results := map (fun t => eval_5 module t (trainfile_of t) (pfile_of module t))
                      (List.filter (usable fs module) test_files)).
  set (results' := map (fun t => eval_5 module t (trainfile_of t) (pfile_of module t))
                       (List.filter (usable fs module) test_files')).
  assert (Hresults : results ≡ₚ results') by apply fmap_Permutation, Hfolds.
  clearbody results results'.
  rewrite (sum_permutation_Z results.*1.*1.*1 results'.*1.*1.*1),
    (sum_permutation_Z results.*1.*1.*2 results'.*1.*1.*2),
    (sum_permutation_Z results.*1.*2 results'.*1.*2),
    (sum_permutation_Z results.*2 results'.*2);
    [reflexivity | ..]; repeat apply fmap_Permutation; exact Hresults.
Qed.

(** ** The listings and the dispatch *)

Section ListingProperties.
Variable fs : list string.
Variable module : Predictor.
Variable miss : string -> string -> string -> list Z.

Lemma cal_plots_step_skip calls t :
  usable fs module t = false -> cal_plots_step fs module calls t = calls.
Proof. intros E. unfold cal_plots_step. rewrite E. reflexivity. Qed.

Lemma misses_step_skip count t :
  usable fs module t = false -> misses_step fs module miss count t = count.
Proof. intros E. unfold misses_step. rewrite E. reflexivity. Qed.

Lemma cal_plots_all_usable (folds : list string) (calls : list PlotCall) :
  Forall (fun t => usable fs module t = true) folds ->
  foldl (cal_plots_step fs module) calls folds
  = calls ++ map (fun t => {| plot_testfile := t;
                              plot_trainfile := trainfile_of t;
                              plot_pfile := pfile_of module t;
                              out_file := "./out/calstats-" +:+ fold_id t +:+ ".txt";
                              plot_file := "./out/calplot-" +:+ fold_id t +:+ ".pdf" |})
                  folds.
Proof.
  intros Hall. revert calls. induction Hall as [| t l Ht _ IH]; intros calls.
  - cbn. rewrite app_nil_r. reflexivity.
  - cbn [foldl map]. unfold cal_plots_step at 2. rewrite Ht, IH, <- app_assoc.
    reflexivity.
Qed.

Lemma misses_all_usable (folds : list string) (count : Z) :
  Forall (fun t => usable fs module t = true) folds ->
  foldl (misses_step fs module miss) count folds
  = foldl Z.add count
      (map (fun t => len (miss t (trainfile_of t) (pfile_of module t))) folds).
Proof.
  intros Hall. revert count. induction Hall as [| t l Ht _ IH]; intros count;
    [reflexivity |].
  cbn [foldl map]. unfold misses_step at 2. rewrite Ht. apply IH.
Qed.

Lemma sum_of_lengths_nonneg {A} (ls : list (list A)) (count : Z) :
  0 <= count -> 0 <= foldl Z.add count (map len ls).
Proof.
  revert count. induction ls as [| l ls IH]; intros count Hc; [exact Hc |].
  cbn [foldl map]. apply IH. unfold len. lia.
Qed.
End ListingProperties.

(** X11: [cal_plots] asks for one calibration plot per fold whose three
    files exist, in the order of the fold files, with the files of that fold
    and the two output names built from its identifier; [list_misses] adds
    up the misses of those folds alone and its total is never negative. *)
Theorem listings_over_usable_folds
    (fs : list string) (module : Predictor)
    (miss : string -> string -> string -> list Z) :
  let folds := List.filter (usable fs module) (glob_testing fs) in
  cal_plots fs module
  = map (fun t => {| plot_testfile := t;
                     plot_trainfile := trainfile_of t;
                     plot_pfile := pfile_of module t;
                     out_file := "./out/calstats-" +:+ fold_id t +:+ ".txt";
                     plot_file := "./out/calplot-" +:+ fold_id t +:+ ".pdf" |})
        folds
  /\ length (cal_plots fs module) = length folds
  /\ list_misses fs module miss
     = foldl Z.add 0
         (map (fun t => len (miss t (trainfile_of t) (pfile_of module t))) folds)
  /\ 0 <= list_misses fs module miss.
Proof.
  intros folds.
  assert (Hplots : cal_plots fs module
                   = map (fun t => {| plot_testfile := t;
                                      plot_trainfile := trainfile_of t;
                                      plot_pfile := pfile_of module t;
                                      out_file := "./out/calstats-" +:+ fold_id t +:+ ".txt";
                                      plot_file := "./out/calplot-" +:+ fold_id t +:+ ".pdf" |})
                         folds).
  { unfold cal_plots.
    rewrite (foldl_skip _ _ (cal_plots_step_skip fs module) (glob_testing fs)).
    rewrite (cal_plots_all_usable fs module _ _ (kept_folds_usable fs module _)).
    reflexivity. }
  assert (Hmiss : list_misses fs module miss
                  = foldl Z.add 0
                      (map (fun t => len (miss t (trainfile_of t) (pfile_of module t)))
                           folds)).
  { unfold list_misses.
    rewrite (foldl_skip _ _ (misses_step_skip fs module miss) (glob_testing fs)).
    apply misses_all_usable, kept_folds_usable. }
  repeat split; [exact Hplots | rewrite Hplots; apply length_map | exact Hmiss |].
  rewrite Hmiss.
  rewrite (list_fmap_compose (fun t => miss t (trainfile_of t) (pfile_of module t)) len).
  apply sum_of_lengths_nonneg. lia.
Qed.

Lemma glob_testing_make_out (fs : list string) :
  glob_testing (make_out fs) = glob_testing fs.
Proof.
  unfold make_out, glob_testing. destruct (exists_ fs "./out"); [reflexivity |].
  rewrite List.filter_app. cbn. apply app_nil_r.
Qed.

Lemma exists_make_out (fs : list string) (path : string) :
  String.eqb path "./out" = false ->
  exists_ (make_out fs) path = exists_ fs path.
Proof.
  intros Hne. unfold make_out. destruct (exists_ fs "./out"); [reflexivity |].
  unfold exists_, in_list. rewrite existsb_app. cbn. rewrite Hne.
  rewrite !orb_false_r. reflexivity.
Qed.

Lemma usable_make_out (fs : list string) (module : Predictor) (t : string) :
  is_testing_file t = true ->
  usable (make_out fs) module t = usable fs module t.
Proof.
  intros Ht. unfold usable.
  assert (Hne : String.eqb t "./out" = false).
  { destruct (String.eqb_spec t "./out") as [-> | _]; [| reflexivity].
    vm_compute in Ht. discriminate. }
  rewrite (exists_make_out fs t Hne).
  rewrite (exists_make_out fs (pfile_of module t)) by reflexivity.
  rewrite (exists_make_out fs (trainfile_of t)) by reflexivity.
  reflexivity.
Qed.

Lemma averages_without_folds (fs : list string) (module : Predictor) :
  List.filter (usable fs module) (glob_testing fs) = [] ->
  avg_cal_dis fs module = Raise ZeroDivisionError
  /\ avg_report fs module = Raise ZeroDivisionError
  /\ roc_plots fs module = Raise ZeroDivisionError
  /\ avg_conf_mat fs module = Raise ZeroDivisionError.
Proof.
  intros Hkept.
  unfold avg_cal_dis, avg_report, roc_plots, avg_conf_mat,
    cal_dis_totals, report_totals, roc_totals, conf_mat_totals.
  rewrite (foldl_skip _ _ (cal_dis_step_skip fs module) (glob_testing fs)),
    (foldl_skip _ _ (report_step_skip fs module) (glob_testing fs)),
    (foldl_skip _ _ (roc_step_skip fs module) (glob_testing fs)),
    (foldl_skip _ _ (conf_mat_step_skip fs module) (glob_testing fs)), Hkept.
  repeat split; reflexivity.
Qed.

Lemma averages_with_folds (fs : list string) (module : Predictor) :
  List.filter (usable fs module) (glob_testing fs) <> [] ->
  (exists a, avg_cal_dis fs module = Return a)
  /\ (exists a, avg_report fs module = Return a)
  /\ (exists a, roc_plots fs module = Return a)
  /\ (exists a, avg_conf_mat fs module = Return a).
Proof.
  intros Hsome.
  assert (Hcount : (len (List.filter (usable fs module) (glob_testing fs)) =? 0) = false).
  { apply Z.eqb_neq. unfold len.
    destruct (List.filter (usable fs module) (glob_testing fs));
      [contradiction | cbn; lia]. }
  unfold avg_cal_dis, avg_report, roc_plots, avg_conf_mat, cal_dis_totals, report_totals.
  rewrite (foldl_skip _ _ (cal_dis_step_skip fs module) (glob_testing fs)),
    (foldl_skip _ _ (report_step_skip fs module) (glob_testing fs)).
  rewrite (cal_dis_all_usable fs module _ _ _ _ (kept_folds_usable fs module _)),
    (report_all_usable fs module _ _ _ _ _ (kept_folds_usable fs module _)).
  rewrite (roc_totals_usable fs module (glob_testing fs)).
  pose proof (conf_mat_totals_usable fs module (glob_testing fs)) as Hconf.
  cbv zeta in Hconf. rewrite Hconf.
  unfold divide2, divide. rewrite !Z.add_0_l, Hcount.
  repeat split; eexists; reflexivity.
Qed.

Lemma names_outcome (target_names : list string) :
  if (length target_names <? 2)%nat
  then report_names target_names = Raise IndexError
       /\ conf_mat_names target_names = Raise IndexError
  else exists names, report_names target_names = Return names
                     /\ conf_mat_names target_names = Return names.
Proof.
  destruct target_names as [| first [| second rest]]; cbn [length Nat.ltb Nat.leb].
  - split; reflexivity.
  - split; reflexivity.
  - exists (first, second). split; reflexivity.
Qed.

Lemma no_fold_make_out (fs : list string) (module : Predictor) :
  forallb (fun t => negb (usable fs module t)) (glob_testing fs) = true
  <-> List.filter (usable (make_out fs) module) (glob_testing (make_out fs)) = [].
Proof.
  rewrite glob_testing_make_out.
  assert (Htest : Forall (fun t => is_testing_file t = true) (glob_testing fs)).
  { apply Forall_forall. intros t Ht. apply list_elem_of_In, filter_In in Ht. apply Ht. }
  induction Htest as [| t l Ht _ IH]; [split; reflexivity |].
  cbn [forallb List.filter]. rewrite (usable_make_out fs module t Ht).
  destruct (usable fs module t); cbn [negb andb].
  - split; discriminate.
  - exact IH.
Qed.

(** The next comparison of the method with a name, on both outcomes. *)
Ltac method_case method :=
  match goal with
  | |- context [String.eqb method ?name] =>
      destruct (String.eqb_spec method name) as [-> | _];
      cbn [String.eqb Ascii.eqb Bool.eqb orb andb negb mbind result_bind]
  end.

(** What [evaluate] does once the module is imported. *)
Lemma evaluate_outcome (fs : list string) (target_names : list string)
    (module : Predictor) (miss : string -> string -> string -> list Z)
    (method : string) :
  match failure fs module target_names method with
  | Some cls => evaluate fs target_names (Return (module, miss)) method = Raise cls
  | None => exists printed,
      evaluate fs target_names (Return (module, miss)) method = Return printed
  end.
Proof.
  unfold failure, evaluate. cbn [mbind result_bind].
  pose proof (no_fold_make_out fs module) as Hnone.
  pose proof (averages_without_folds (make_out fs) module) as Hzero.
  pose proof (averages_with_folds (make_out fs) module) as Hsome.
  pose proof (names_outcome target_names) as Hnames.
  unfold Notions.methods, Notions.naming_methods, in_list.
  cbn [existsb].
  destruct (forallb (fun t => negb (usable fs module t)) (glob_testing fs)) eqn:Efold.
  - destruct (Hzero (proj1 Hnone eq_refl)) as (E1 & E3 & E4 & E5).
    rewrite E1, E3, E4, E5.
    repeat method_case method; first [reflexivity | eexists; reflexivity].
  - destruct Hsome as ((a1 & E1) & (a3 & E3) & (a4 & E4) & (a5 & E5)).
    { intros Hkept. apply Hnone in Hkept. discriminate. }
    rewrite E1, E3, E4, E5.
    repeat method_case method;
      try (first [reflexivity | eexists; reflexivity]);
      (destruct (length target_names <? 2)%nat;
       [ destruct Hnames as [Hr Hc]; rewrite ?Hr, ?Hc; reflexivity
       | destruct Hnames as (names & Hr & Hc); rewrite ?Hr, ?Hc;
         eexists; reflexivity ]).
Qed.

(** X12: an exception of the import is the exception of [evaluate].  Once
    the module is imported, [evaluate] raises [Exception] exactly for a
    method that is none of caldis, calplot, report, roc, confusion and
    misses; [ZeroDivisionError] exactly for one of the four averaging methods
    when no fold has its three files; [IndexError] exactly for report or
    confusion when some fold has its files and the labels file gave fewer
    than two names; and nothing else.  Without a usable fold calplot and
    misses return, with no plot and a count of 0. *)
Theorem evaluate_failures (fs : list string) (target_names : list string)
    (imported : result (Predictor * (string -> string -> string -> list Z)))
    (method : string) :
  (forall cls, imported = Raise cls ->
     evaluate fs target_names imported method = Raise cls)
  /\ (forall module miss, imported = Return (module, miss) ->
      let no_fold :=
        Forall (fun t => usable fs module t = false) (glob_testing fs) in
      let outcome := evaluate fs target_names imported method in
      (outcome = Raise "Exception" <-> method ∉ Notions.methods)
      /\ (outcome = Raise ZeroDivisionError
          <-> method ∈ Notions.averaging_methods /\ no_fold)
      /\ (outcome = Raise IndexError
          <-> method ∈ Notions.naming_methods /\ ~ no_fold
              /\ (length target_names < 2)%nat)
      /\ (forall cls, outcome = Raise cls ->
            cls = "Exception" \/ cls = ZeroDivisionError \/ cls = IndexError)
      /\ (no_fold ->
          evaluate fs target_names imported "calplot" = Return (PrintedCalPlots [])
          /\ evaluate fs target_names imported "misses" = Return (PrintedMisses 0))).
Proof.
  split; [intros cls ->; reflexivity |].
  intros module miss -> no_fold outcome.
  assert (Hfold : forallb (fun t => negb (usable fs module t)) (glob_testing fs) = true
                  <-> no_fold).
  { unfold no_fold. rewrite forallb_forall, Forall_forall.
    split; intros Hall t Ht.
    - apply list_elem_of_In in Ht. apply negb_true_iff, Hall, Ht.
    - apply negb_true_iff, Hall, list_elem_of_In, Ht. }
  assert (Hmethods : in_list method Notions.methods = true <-> method ∈ Notions.methods)
    by apply in_list_elem_of.
  assert (Havg : in_list method ["caldis"; "report"; "roc"; "confusion"] = true
                 <-> method ∈ Notions.averaging_methods) by apply in_list_elem_of.
  assert (Hnaming : in_list method Notions.naming_methods = true
                    <-> method ∈ Notions.naming_methods) by apply in_list_elem_of.
  assert (Hsub1 : method ∈ Notions.averaging_methods -> method ∈ Notions.methods).
  { unfold Notions.averaging_methods, Notions.methods. rewrite !list_elem_of_In.
    cbn. tauto. }
  assert (Hsub2 : method ∈ Notions.naming_methods -> method ∈ Notions.averaging_methods).
  { unfold Notions.averaging_methods, Notions.naming_methods. rewrite !list_elem_of_In.
    cbn. tauto. }
  assert (Hlen : (length target_names <? 2)%nat = true <-> (length target_names < 2)%nat)
    by apply Nat.ltb_lt.
  assert (Hlast : no_fold ->
            evaluate fs target_names (Return (module, miss)) "calplot"
              = Return (PrintedCalPlots [])
            /\ evaluate fs target_names (Return (module, miss)) "misses"
               = Return (PrintedMisses 0)).
  { intros Hno.
    pose proof (proj1 (no_fold_make_out fs module) (proj2 Hfold Hno)) as Hkept.
    split.
    - unfold evaluate. cbn [mbind result_bind String.eqb Ascii.eqb Bool.eqb].
      f_equal. f_equal. unfold cal_plots.
      rewrite (foldl_skip _ _ (cal_plots_step_skip (make_out fs) module)
                 (glob_testing (make_out fs))), Hkept.
      reflexivity.
    - unfold evaluate. cbn [mbind result_bind String.eqb Ascii.eqb Bool.eqb].
      f_equal. f_equal. unfold list_misses.
      rewrite (foldl_skip _ _ (misses_step_skip (make_out fs) module miss)
                 (glob_testing (make_out fs))), Hkept.
      reflexivity. }
  pose proof (evaluate_outcome fs target_names module miss method) as Hout.
  fold outcome in Hout. unfold failure in Hout.
  destruct (in_list method Notions.methods) eqn:E1; cbn [negb] in Hout.
  2: { assert (Hnot : method ∉ Notions.methods).
       { intros Hin. apply Hmethods in Hin. discriminate. }
       rewrite Hout.
       split; [split; [intros _; exact Hnot | reflexivity] |].
       split; [split; [discriminate | intros [Hin _]; destruct (Hnot (Hsub1 Hin))] |].
       split; [split; [discriminate
                      | intros [Hin _]; destruct (Hnot (Hsub1 (Hsub2 Hin)))] |].
       split; [intros cls [= <-]; left; reflexivity | exact Hlast]. }
  assert (Hin : method ∈ Notions.methods) by (apply Hmethods; reflexivity).
  destruct (in_list method ["caldis"; "report"; "roc"; "confusion"]) eqn:E2;
    destruct (forallb (fun t => negb (usable fs module t)) (glob_testing fs)) eqn:E3;
    cbn [andb] in Hout.
  - (* an averaging method, no fold *)
    rewrite Hout.
    split; [split; [discriminate | intros Hnot; destruct (Hnot Hin)] |].
    split; [split; [intros _; split; [apply Havg; reflexivity | apply Hfold; reflexivity]
                   | reflexivity] |].
    split; [split; [discriminate
                   | intros (_ & Hsome & _); destruct Hsome; apply Hfold; reflexivity] |].
    split; [intros cls [= <-]; right; left; reflexivity | exact Hlast].
  - (* an averaging method, some fold *)
    assert (Hsome : ~ no_fold) by (intros Hno; apply Hfold in Hno; discriminate).
    destruct (in_list method Notions.naming_methods) eqn:E4;
      destruct (length target_names <? 2)%nat eqn:E5; cbn [andb] in Hout.
    + rewrite Hout.
      split; [split; [discriminate | intros Hnot; destruct (Hnot Hin)] |].
      split; [split; [discriminate | intros [_ Hno]; destruct (Hsome Hno)] |].
      split; [split; [intros _; split; [apply Hnaming; reflexivity |];
                      split; [exact Hsome | apply Hlen; reflexivity]
                     | reflexivity] |].
      split; [intros cls [= <-]; right; right; reflexivity | exact Hlast].
    + destruct Hout as [printed ->].
      split; [split; [discriminate | intros Hnot; destruct (Hnot Hin)] |].
      split; [split; [discriminate | intros [_ Hno]; destruct (Hsome Hno)] |].
      split; [split; [discriminate
                     | intros (_ & _ & Hfew); apply Hlen in Hfew; discriminate] |].
      split; [discriminate | exact Hlast].
    + destruct Hout as [printed ->].
      split; [split; [discriminate | intros Hnot; destruct (Hnot Hin)] |].
      split; [split; [discriminate | intros [_ Hno]; destruct (Hsome Hno)] |].
      split; [split; [discriminate
                     | intros (Hname & _); apply Hnaming in Hname; discriminate] |].
      split; [discriminate | exact Hlast].
    + destruct Hout as [printed ->].
      split; [split; [discriminate | intros Hnot; destruct (Hnot Hin)] |].
      split; [split; [discriminate | intros [_ Hno]; destruct (Hsome Hno)] |].
      split; [split; [discriminate
                     | intros (Hname & _); apply Hnaming in Hname; discriminate] |].
      split; [discriminate | exact Hlast].
  - (* calplot or misses, no fold *)
    assert (Hnotavg : method ∉ Notions.averaging_methods).
    { intros Ha. apply Havg in Ha. discriminate. }
    assert (E4 : in_list method Notions.naming_methods = false).
    { destruct (in_list method Notions.naming_methods) eqn:E; [| reflexivity].
      destruct (Hnotavg (Hsub2 (proj1 Hnaming eq_refl))). }
    rewrite E4 in Hout. cbn [andb] in Hout. destruct Hout as [printed ->].
    split; [split; [discriminate | intros Hnot; destruct (Hnot Hin)] |].
    split; [split; [discriminate | intros [Ha _]; destruct (Hnotavg Ha)] |].
    split; [split; [discriminate | intros (Hname & _); destruct (Hnotavg (Hsub2 Hname))] |].
    split; [discriminate | exact Hlast].
  - assert (Hnotavg : method ∉ Notions.averaging_methods).
    { intros Ha. apply Havg in Ha. discriminate. }
    assert (E4 : in_list method Notions.naming_methods = false).
    { destruct (in_list method Notions.naming_methods) eqn:E; [| reflexivity].
      destruct (Hnotavg (Hsub2 (proj1 Hnaming eq_refl))). }
    rewrite E4 in Hout. cbn [andb] in Hout. destruct Hout as [printed ->].
    split; [split; [discriminate | intros Hnot; destruct (Hnot Hin)] |].
    split; [split; [discriminate | intros [Ha _]; destruct (Hnotavg Ha)] |].
    split; [split; [discriminate | intros (Hname & _); destruct (Hnotavg (Hsub2 Hname))] |].
    split; [discriminate | exact Hlast].
Qed.

(** * The files that [utils/aggregated_scores.py] loads *)

Lemma string_append_nil_r (a : string) : a +:+ "" = a.
Proof.
  induction a as [| c a IH]; [reflexivity |].
  change (String c (a +:+ "") = String c a). rewrite IH. reflexivity.
Qed.

Lemma split_once_aux_shape (sep : ascii) (s cur : string) :
  if has_char sep s
  then exists before after, split_once_aux sep s cur = [cur +:+ before; after]
                            /\ has_char sep before = false
                            /\ s = before +:+ String sep after
  else split_once_aux sep s cur = [cur +:+ s].
Proof.
  revert cur. induction s as [| c s IH]; intros cur.
  - cbn. rewrite string_append_nil_r. reflexivity.
  - cbn [has_char split_once_aux]. rewrite (Ascii.eqb_sym sep c).
    destruct (Ascii.eqb_spec c sep) as [-> | Hne]; cbn [orb].
    + exists EmptyString, s. rewrite string_append_nil_r. repeat split.
    + specialize (IH (cur +:+ String c EmptyString)).
      destruct (has_char sep s).
      * destruct IH as (before & after & Hsplit & Hno & ->).
        exists (String c before), after. split; [| split].
        -- rewrite Hsplit, string_append_assoc. reflexivity.
        -- cbn. rewrite Hno. destruct (Ascii.eqb_spec sep c) as [-> | _];
             [contradiction | reflexivity].
        -- reflexivity.
      * rewrite IH, string_append_assoc. reflexivity.
Qed.

(** A line of the alias file gives an entry exactly when it has a space once
    stripped; the name is the text before the first space. *)
Lemma alias_entry_space (line : string) :
  (alias_entry line = None <-> has_char " "%char (strip line) = false)
  /\ (forall name label, alias_entry line = Some (name, label) ->
        strip line = name +:+ String " "%char label
        /\ has_char " "%char name = false).
Proof.
  unfold alias_entry, split_once.
  pose proof (split_once_aux_shape " "%char (strip line) EmptyString) as Hshape.
  destruct (has_char " "%char (strip line)).
  - destruct Hshape as (before & after & -> & Hno & Hline). split.
    + split; discriminate.
    + intros name label [= <- <-]. cbn. split; assumption.
  - rewrite Hshape. split; [split; reflexivity | discriminate].
Qed.

Lemma alias_line_entry (var_labels : gmap string string) (line : string) :
  alias_line var_labels line
  = match alias_entry line with
    | Some (name, label) => Return (<[name := label]> var_labels)
    | None => Raise IndexError
    end.
Proof.
  unfold alias_line, alias_entry, split_once.
  pose proof (split_once_aux_shape " "%char (strip line) EmptyString) as Hshape.
  destruct (has_char " "%char (strip line)).
  - destruct Hshape as (before & after & -> & _). reflexivity.
  - rewrite Hshape. reflexivity.
Qed.

Lemma find_last_entry {A} (keep : A -> bool) (l : list A) (x : A) :
  List.find keep (rev (x :: l))
  = match List.find keep (rev l) with
    | Some y => Some y
    | None => if keep x then Some x else None
    end.
Proof.
  cbn [rev]. induction (rev l) as [| y k IH]; [reflexivity |].
  cbn. destruct (keep y); [reflexivity | exact IH].
Qed.

(** X13: the alias file is loaded without error exactly when every line,
    once stripped, has a space; a line without one (a blank line too) stops
    the loading with [IndexError].  After loading, a name has the label that
    follows the first space on the last line that starts with that name, and
    names that the file does not mention keep what they had. *)
Theorem load_alias_last_line_wins (lines : list string)
    (var_labels : gmap string string) :
  (Forall (fun line => has_char " "%char (strip line) = true) lines ->
   exists loaded,
     load_alias lines var_labels = Return loaded
     /\ forall name,
          loaded !! name
          = match List.find (fun entry => String.eqb entry.1 name)
                    (rev (omap alias_entry lines)) with
            | Some entry => Some entry.2
            | None => var_labels !! name
            end)
  /\ (Exists (fun line => has_char " "%char (strip line) = false) lines ->
      load_alias lines var_labels = Raise IndexError).
Proof.
  split.
  - intros Hall. revert var_labels.
    induction Hall as [| line rest Hline _ IH]; intros var_labels.
    + exists var_labels. split; reflexivity.
    + cbn [load_alias]. rewrite alias_line_entry.
      destruct (alias_entry line) as [[name label] |] eqn:Eentry.
      * cbn [mbind result_bind].
        destruct (IH (<[name := label]> var_labels)) as (loaded & Hload & Hlook).
        exists loaded. split; [exact Hload |]. intros key.
        cbn [omap list_omap]. rewrite Eentry.
        change (list_omap _ _ alias_entry rest) with (omap alias_entry rest).
        rewrite find_last_entry, Hlook.
        destruct (List.find _ (rev (omap alias_entry rest))); [reflexivity |].
        cbn [fst snd]. destruct (String.eqb_spec name key) as [-> | Hne].
        -- apply lookup_insert_eq.
        -- apply lookup_insert_ne, Hne.
      * apply alias_entry_space in Eentry. congruence.
  - intros Hbad. revert var_labels.
    induction Hbad as [line rest Hline | line rest _ IH]; intros var_labels.
    + cbn [load_alias]. rewrite alias_line_entry.
      apply alias_entry_space in Hline. rewrite Hline. reflexivity.
    + cbn [load_alias]. rewrite alias_line_entry.
      destruct (alias_entry line) as [[name label] |]; [apply IH | reflexivity].
Qed.

Lemma options_line_fields (index : Index) (line : string) :
  options_line index line
  = match Notions.option_fields line with
    | name :: label :: acron :: _ =>
        Return {| AggregatedScores.index_names := AggregatedScores.index_names index ++ [name];
                  AggregatedScores.index_labels := <[name := label]> (AggregatedScores.index_labels index);
                  AggregatedScores.index_acron := <[name := acron]> (AggregatedScores.index_acron index) |}
    | _ => Raise IndexError
    end.
Proof.
  unfold options_line, Notions.option_fields.
  destruct (split (strip line) ","%char) as [| name [| label [| acron rest]]];
    reflexivity.
Qed.

Lemma load_options_invariant (lines : list string) (index loaded : Index) :
  load_options lines index = Return loaded ->
  (forall name, name ∈ AggregatedScores.index_names index ->
                is_Some (AggregatedScores.index_labels index !! name)
                /\ is_Some (AggregatedScores.index_acron index !! name)) ->
  AggregatedScores.index_names loaded
  = AggregatedScores.index_names index ++ map (fun line => List.hd "" (Notions.option_fields line)) lines
  /\ forall name, name ∈ AggregatedScores.index_names loaded ->
                  is_Some (AggregatedScores.index_labels loaded !! name)
                  /\ is_Some (AggregatedScores.index_acron loaded !! name).
Proof.
  revert index. induction lines as [| line rest IH]; intros index.
  - intros [= <-] Hinv. rewrite app_nil_r. split; [reflexivity | exact Hinv].
  - cbn [load_options]. rewrite options_line_fields.
    destruct (Notions.option_fields line) as [| name [| label [| acron more]]] eqn:Ef;
      try discriminate.
    cbn [mbind result_bind]. intros Hload Hinv.
    destruct (IH _ Hload) as [Hnames Hdom].
    + cbn [AggregatedScores.index_names AggregatedScores.index_labels AggregatedScores.index_acron]. intros key Hkey.
      apply elem_of_app in Hkey as [Hkey | Hkey].
      * destruct (Hinv key Hkey) as [Hl Ha].
        destruct (decide (name = key)) as [-> | Hne].
        -- rewrite !lookup_insert_eq. split; eexists; reflexivity.
        -- rewrite !lookup_insert_ne by exact Hne. split; assumption.
      * apply list_elem_of_singleton in Hkey as ->.
        rewrite !lookup_insert_eq. split; eexists; reflexivity.
    + split; [| exact Hdom]. rewrite Hnames.
      cbn [AggregatedScores.index_names map]. rewrite Ef, <- app_assoc. reflexivity.
Qed.

Lemma load_options_error (lines : list string) (index : Index) (cls : string) :
  load_options lines index = Raise cls ->
  cls = IndexError
  /\ Exists (fun line => (length (Notions.option_fields line) < 3)%nat) lines.
Proof.
  revert index. induction lines as [| line rest IH]; intros index; [discriminate |].
  cbn [load_options]. rewrite options_line_fields.
  destruct (Notions.option_fields line) as [| name [| label [| acron more]]] eqn:Ef;
    try (intros [= <-]; split; [reflexivity |]; left; rewrite Ef; cbn; lia).
  cbn [mbind result_bind]. intros Hload. destruct (IH _ Hload) as [-> Hbad].
  split; [reflexivity | right; exact Hbad].
Qed.

(** X14: when the options file is loaded, the index names are the first
    fields of its lines, in order, and every index name has a label and an
    acronym, so that looking up the acronym of an index name in the scoring
    loop cannot raise [KeyError]; the loading fails only with [IndexError],
    on a line with fewer than three fields. *)
Theorem load_options_names_have_acronyms (lines : list string) :
  (forall loaded, load_options lines no_index = Return loaded ->
     AggregatedScores.index_names loaded
     = map (fun line => List.hd "" (Notions.option_fields line)) lines
     /\ forall idx, in_list idx (AggregatedScores.index_names loaded) = true ->
                    exists acron, dict_get (AggregatedScores.index_acron loaded) idx = Return acron)
  /\ (forall cls, load_options lines no_index = Raise cls ->
        cls = IndexError
        /\ Exists (fun line => (length (Notions.option_fields line) < 3)%nat) lines).
Proof.
  split; [| intros cls; apply load_options_error].
  intros loaded Hload.
  destruct (load_options_invariant lines no_index loaded Hload) as [Hnames Hdom].
  { intros name Hname. inversion Hname. }
  split; [exact Hnames |].
  intros idx Hidx. apply in_list_elem_of in Hidx.
  destruct (Hdom idx Hidx) as [_ [acron Hacron]].
  exists acron. unfold dict_get. rewrite Hacron. reflexivity.
Qed.

(** ** The default of [-extra] *)

Lemma split_aux_piece (sep : ascii) (piece rest cur : string) :
  has_char sep piece = false ->
  split_aux sep (piece +:+ rest) cur = split_aux sep rest (cur +:+ piece).
Proof.
  revert cur. induction piece as [| c piece IH]; intros cur Hno.
  - rewrite string_append_nil_r. reflexivity.
  - apply has_char_first in Hno as [Hne Hno].
    change (String c piece +:+ rest) with (String c (piece +:+ rest)).
    cbn [split_aux]. destruct (Ascii.eqb_spec c sep) as [-> | _]; [contradiction |].
    rewrite (IH _ Hno), string_append_assoc. reflexivity.
Qed.

(** Splitting a path that was put together from pieces without separator
    gives the pieces back. *)
Lemma split_join (sep : ascii) (piece : string) (pieces : list string) (cur : string) :
  Forall (fun p => has_char sep p = false) (piece :: pieces) ->
  split_aux sep (Notions.join sep (piece :: pieces)) cur = (cur +:+ piece) :: pieces.
Proof.
  revert piece cur. induction pieces as [| next pieces IH]; intros piece cur Hall.
  - apply Forall_cons in Hall as [Hno _]. cbn [Notions.join].
    rewrite <- (string_append_nil_r piece) at 1.
    rewrite (split_aux_piece _ _ _ _ Hno). reflexivity.
  - apply Forall_cons in Hall as [Hno Hall].
    change (Notions.join sep (piece :: next :: pieces))
      with (piece +:+ String sep (Notions.join sep (next :: pieces))).
    rewrite (split_aux_piece _ _ _ _ Hno). cbn [split_aux].
    rewrite Ascii.eqb_refl. rewrite (IH _ _ Hall). reflexivity.
Qed.

(** X15: with the parser's default for [-extra], the list of extra tests is
    the single empty string, and a ranking line is stopped unless its model
    path has an empty piece: every line whose path is made of non-empty
    pieces joined by the separator is skipped, whatever its F1, and neither
    a command nor a score line results. *)
Theorem default_extra_tests_skip_clean_paths
    {G : Type} `{RandomState G} (sklearn : Sklearn)
    (aggregate : string -> list (Z * Q)) (os_random : nat -> G) (args : Args)
    (var_labels : gmap string string) (index_names : list string)
    (index_acron : gmap string string)
    (line : RankLine) (pieces : list string)
    (score_lines : list ScoreLine) (w : World) :
  extra_tests args = extra_tests default_args ->
  pieces <> [] ->
  Forall (fun p => p <> EmptyString /\ has_char "/"%char p = false) pieces ->
  mdl_str line = Notions.join "/"%char pieces ->
  extra_tests args = [EmptyString]
  /\ split (mdl_str line) "/"%char = pieces
  /\ considered args index_names line = false
  /\ rank_line sklearn aggregate os_random args var_labels index_names index_acron
       line score_lines w = (Return score_lines, w).
Proof.
  intros Hdefault Hne Hpieces Hpath.
  assert (Hextra : extra_tests args = [EmptyString]) by (rewrite Hdefault; reflexivity).
  assert (Hsplit : split (mdl_str line) "/"%char = pieces).
  { rewrite Hpath. destruct pieces as [| piece pieces]; [contradiction |].
    unfold split. rewrite split_join; [reflexivity |].
    eapply Forall_impl; [exact Hpieces |]. cbn. intros p Hp. apply Hp. }
  assert (Hc : considered args index_names line = false).
  { unfold considered. rewrite Hextra. unfold extra_missing. rewrite Hsplit.
    cbn [existsb andb orb].
    assert (Hno : in_list EmptyString pieces = false).
    { destruct (in_list EmptyString pieces) eqn:E; [| reflexivity].
      apply in_list_elem_of in E. rewrite Forall_forall in Hpieces.
      destruct (Hpieces _ E) as [Hp _]. contradiction. }
    rewrite Hno. cbn [negb orb andb]. apply andb_false_r. }
  repeat split; try assumption.
  apply rank_line_not_considered, Hc.
Qed.

(** * Properties of [job.py] *)

Import Job.

Section JobProperties.
Variable cfg : Config.
Variable get_last : World -> string -> result Z.
Variable report_lines : World -> string -> option (list string).

Lemma worker_runs (name : string) (count first : Z) (imeth : string) (w : World) :
  exists w',
    worker cfg name count first imeth w = (Return tt, w')
    /\ generators w' = generators w
    /\ (commands w' = commands w
        \/ exists options,
             impute_options cfg !! imeth = Some options
             /\ commands w'
                = commands w ++ [init_command cfg name count first imeth options]).
Proof.
  unfold worker. destruct (impute_options cfg !! imeth) as [options |].
  - eexists. split; [reflexivity |]. split; [reflexivity |].
    right. exists options. split; reflexivity.
  - exists w. split; [reflexivity |]. split; [reflexivity | left; reflexivity].
Qed.

(** The imputation loop within its rounds: how it can end, and what it has
    run by then. *)
Lemma impute_within_rounds (fuel : nat) (mdl_id imeth : string)
    (start nrest : Z) (w : World) :
  (rounds_left cfg imeth nrest <= fuel)%nat ->
  exists outcome w' primary fallback,
    impute cfg get_last fuel mdl_id imeth start (total_sets cfg - start) nrest w
      = (outcome, w')
    /\ commands w' = commands w ++ primary ++ fallback
    /\ Forall (init_request cfg mdl_id imeth) primary
    /\ Forall (init_request cfg mdl_id (impute_fallback cfg)) fallback
    /\ (length primary <= Z.to_nat (max_restarts cfg - nrest) + 1)%nat
    /\ (length fallback
        <= if can_fall_back cfg imeth then Z.to_nat (max_restarts cfg) + 1 else 0)%nat
    /\ match outcome with
       | Return None => False
       | Return (Some (Completed _)) =>
           exists n, get_last w' mdl_id = Return n /\ total_sets cfg - 1 <= n
       | Return (Some GivenUp) =>
           exists n, get_last w' mdl_id = Return n /\ n < total_sets cfg - 1
       | Raise cls => get_last w' mdl_id = Raise cls
       end.
Proof.
  revert imeth start nrest w.
  induction fuel as [| fuel IH]; intros imeth start nrest w Hfuel.
  { unfold rounds_left in Hfuel. lia. }
  cbn [impute]. unfold mbind at 1. unfold IO_bind at 1.
  destruct (worker_runs mdl_id (total_sets cfg - start) start imeth w)
    as (w1 & -> & _ & Hcmd).
  assert (Hfirst : exists run, commands w1 = commands w ++ run
                               /\ Forall (init_request cfg mdl_id imeth) run
                               /\ (length run <= 1)%nat).
  { destruct Hcmd as [Hcmd | (options & Hopt & Hcmd)].
    - exists []. rewrite app_nil_r. repeat split; [exact Hcmd | constructor | cbn; lia].
    - exists [init_command cfg mdl_id (total_sets cfg - start) start imeth options].
      repeat split; [exact Hcmd | | cbn; lia].
      constructor; [| constructor]. exists start, options. split; [exact Hopt | reflexivity]. }
  destruct Hfirst as (run & Hrun & Hreq & Hone). clear Hcmd.
  assert (Hstop : forall outcome,
            match outcome with
            | Return None => False
            | Return (Some (Completed _)) =>
                exists n, get_last w1 mdl_id = Return n /\ total_sets cfg - 1 <= n
            | Return (Some GivenUp) =>
                exists n, get_last w1 mdl_id = Return n /\ n < total_sets cfg - 1
            | Raise cls => get_last w1 mdl_id = Raise cls
            end ->
            exists primary fallback,
              commands w1 = commands w ++ primary ++ fallback
              /\ Forall (init_request cfg mdl_id imeth) primary
              /\ Forall (init_request cfg mdl_id (impute_fallback cfg)) fallback
              /\ (length primary <= Z.to_nat (max_restarts cfg - nrest) + 1)%nat
              /\ (length fallback
                  <= if can_fall_back cfg imeth
                     then Z.to_nat (max_restarts cfg) + 1 else 0)%nat
              /\ match outcome with
                 | Return None => False
                 | Return (Some (Completed _)) =>
                     exists n, get_last w1 mdl_id = Return n /\ total_sets cfg - 1 <= n
                 | Return (Some GivenUp) =>
                     exists n, get_last w1 mdl_id = Return n /\ n < total_sets cfg - 1
                 | Raise cls => get_last w1 mdl_id = Raise cls
                 end).
  { intros outcome Hend. exists run, []. rewrite app_nil_r.
    repeat split; try assumption; [constructor | lia |].
    destruct (can_fall_back cfg imeth); cbn; lia. }
  unfold mbind at 1. unfold IO_bind at 1.
  destruct (get_last w1 mdl_id) as [n | cls] eqn:Elast.
  2: { exists (Raise cls), w1. destruct (Hstop (Raise cls) eq_refl) as (p & f & Hrest).
       exists p, f. rewrite Elast. split; [reflexivity | exact Hrest]. }
  destruct (n <? total_sets cfg - 1) eqn:Eless.
  2: { apply Z.ltb_ge in Eless. exists (Return (Some (Completed nrest))), w1.
       destruct (Hstop (Return (Some (Completed nrest)))) as (p & f & Hrest);
         [exists n; split; [reflexivity | exact Eless] |].
       exists p, f. rewrite Elast. split; [reflexivity | exact Hrest]. }
  apply Z.ltb_lt in Eless.
  destruct (nrest <? max_restarts cfg) eqn:Erest.
  - apply Z.ltb_lt in Erest.
    destruct (IH imeth (n + 1) (nrest + 1) w1)
      as (outcome & w' & primary & fallback & Hloop & Hcmds & Hp & Hf & Hlp & Hlf & Hend).
    { unfold rounds_left in *. lia. }
    exists outcome, w', (run ++ primary), fallback.
    split; [exact Hloop |]. split; [rewrite Hcmds, Hrun, <- !app_assoc; reflexivity |].
    split; [apply Forall_app; split; assumption |]. split; [exact Hf |].
    split; [rewrite length_app; lia |]. split; assumption.
  - apply Z.ltb_ge in Erest.
    fold (can_fall_back cfg imeth).
    destruct (can_fall_back cfg imeth) eqn:Efall.
    + assert (Hlast : can_fall_back cfg (impute_fallback cfg) = false).
      { unfold can_fall_back. rewrite String.eqb_refl. apply andb_false_r. }
      destruct (IH (impute_fallback cfg) 0 0 w1)
        as (outcome & w' & primary & fallback & Hloop & Hcmds & Hp & Hf & Hlp & Hlf & Hend).
      { unfold rounds_left in *. rewrite Hlast. rewrite Efall in Hfuel. lia. }
      rewrite Z.sub_0_r in Hloop, Hlp. rewrite Hlast in Hlf.
      assert (fallback = []) as -> by (destruct fallback; [reflexivity | cbn in Hlf; lia]).
      rewrite app_nil_r in Hcmds.
      exists outcome, w', run, primary.
      split; [exact Hloop |]. split; [rewrite Hcmds, Hrun, <- app_assoc; reflexivity |].
      split; [exact Hreq |]. split; [exact Hp |].
      split; [lia |]. split; [exact Hlp | exact Hend].
    + exists (Return (Some GivenUp)), w1.
      destruct (Hstop (Return (Some GivenUp))) as (p & f & Hrest);
        [exists n; split; [reflexivity | exact Eless] |].
      exists p, f. rewrite Elast. split; [reflexivity | exact Hrest].
Qed.

(** The loop over the predictors: it fails exactly when a predictor has no
    options, and has run by then the two commands of each predictor that it
    has trained. *)
Lemma train_predictors_runs (mdl_id : string) (pred_names : list string) (w : World) :
  exists trained w',
    train_predictors cfg report_lines mdl_id pred_names w
      = (if forallb (has_options cfg) pred_names then Return tt else Raise KeyError, w')
    /\ commands w' = commands w ++ flat_map (training cfg mdl_id) trained
    /\ sublist trained.*1 pred_names
    /\ Forall (fun t => pred_options cfg !! t.1 = Some t.2) trained
    /\ (forall p, (forall v, has_report cfg report_lines mdl_id v p = true) ->
                  p ∉ trained.*1)
    /\ (forallb (has_options cfg) pred_names = true ->
        (forall v p, p ∈ pred_names -> has_report cfg report_lines mdl_id v p = false) ->
        trained.*1 = pred_names).
Proof.
  revert w. induction pred_names as [| p rest IH]; intros w.
  { exists [], w. cbn. rewrite app_nil_r.
    repeat split; [constructor | constructor | intros p _ Hin; inversion Hin]. }
  cbn [train_predictors forallb]. unfold mbind at 1. unfold IO_bind at 1.
  unfold train_predictor.
  unfold mbind at 1. unfold IO_bind at 1. unfold pure, dict_get.
  assert (Hp : has_options cfg p
               = match pred_options cfg !! p with Some _ => true | None => false end)
    by reflexivity.
  rewrite Hp. clear Hp.
  destruct (pred_options cfg !! p) as [opt |] eqn:Eopt.
  2: { exists [], w. cbn [andb flat_map fmap list_fmap]. rewrite app_nil_r.
       split; [reflexivity |]. split; [reflexivity |].
       split; [apply sublist_nil_l |]. split; [constructor |].
       split; [intros q _ Hin; inversion Hin | discriminate]. }
  cbn [andb]. unfold mbind at 1. unfold IO_bind at 1.
  destruct (report_lines w (report_file cfg mdl_id p)) as [[| l ls] |] eqn:Erep.
  2: { destruct (IH w) as (trained & w' & Hrun & Hcmds & Hsub & Hopt & Hskip & Hall).
       exists trained, w'. cbn [mret IO_ret]. rewrite Hrun.
       split; [reflexivity |]. split; [exact Hcmds |].
       split; [apply sublist_cons; exact Hsub |]. split; [exact Hopt |].
       split; [exact Hskip |].
       intros _ Hnone. specialize (Hnone w p (list_elem_of_here _ _)).
       unfold has_report in Hnone. rewrite Erep in Hnone. discriminate. }
  all: unfold mbind at 1; unfold IO_bind at 1; unfold os_system at 1 2;
    destruct (IH (after_command (eval_command cfg mdl_id p)
                    (after_command (train_command cfg mdl_id p opt) w)))
      as (trained & w' & Hrun & Hcmds & Hsub & Hopt & Hskip & Hall);
    exists ((p, opt) :: trained), w'; rewrite Hrun;
    (split; [reflexivity |]);
    (split; [rewrite Hcmds; cbn; rewrite <- !app_assoc; reflexivity |]);
    (split; [cbn; apply sublist_skip; exact Hsub |]);
    (split; [constructor; [exact Eopt | exact Hopt] |]);
    (split; [intros q Hq Hin; cbn in Hin; apply elem_of_cons in Hin as [-> | Hin];
             [specialize (Hq w); unfold has_report in Hq; rewrite Erep in Hq; discriminate
             | exact (Hskip q Hq Hin)] |]);
    intros Hopts Hnone; cbn; f_equal; apply Hall;
      [exact Hopts | intros v q Hq; apply Hnone; right; exact Hq].
Qed.

Lemma var_lines_outcome (var_dict : gmap string string) (vars : list string) :
  match var_lines var_dict vars with
  | Return lines =>
      Forall (fun v => is_Some (var_dict !! v)) vars /\ length lines = length vars
  | Raise cls => cls = KeyError /\ Exists (fun v => var_dict !! v = None) vars
  end.
Proof.
  induction vars as [| v rest IH]; [split; constructor |].
  cbn [var_lines]. unfold dict_get.
  destruct (var_dict !! v) as [type |] eqn:Etype.
  2: { split; [reflexivity | left; exact Etype]. }
  cbn [mbind result_bind].
  destruct (var_lines var_dict rest) as [lines | cls].
  - destruct IH as [Hall Hlen]. cbn [mbind result_bind]. split.
    + constructor; [rewrite Etype; eexists; reflexivity | exact Hall].
    + cbn. rewrite Hlen. reflexivity.
  - destruct IH as [-> Hbad]. split; [reflexivity | right; exact Hbad].
Qed.

Lemma create_var_file_outcome (var_dict : gmap string string) (out_var : string)
    (mdl_vars : list string) :
  match create_var_file var_dict out_var mdl_vars with
  | Return lines =>
      Forall (fun v => is_Some (var_dict !! v)) (out_var :: mdl_vars)
      /\ length lines = S (length mdl_vars)
  | Raise cls =>
      cls = KeyError /\ Exists (fun v => var_dict !! v = None) (out_var :: mdl_vars)
  end.
Proof.
  exact (var_lines_outcome var_dict (out_var :: mdl_vars)).
Qed.

(** The stages of [run_model]: the imputation commands, then the commands of
    the predictors. *)
Lemma run_model_runs (fuel : nat) (var_dict : gmap string string)
    (out_var mdl_id : string) (mdl_vars : list string) (w : World) :
  (2 * (Z.to_nat (max_restarts cfg) + 1) <= fuel)%nat ->
  exists outcome w' inits trained,
    run_model cfg get_last report_lines fuel var_dict out_var mdl_id mdl_vars w
      = (outcome, w')
    /\ commands w' = commands w ++ inits ++ flat_map (training cfg mdl_id) trained
    /\ Forall (init_request_any cfg mdl_id) inits
    /\ (length inits <= 2 * (Z.to_nat (max_restarts cfg) + 1))%nat
    /\ sublist trained.*1 (predictors cfg)
    /\ outcome <> Return None
    /\ (Exists (fun v => var_dict !! v = None) (out_var :: mdl_vars) ->
        outcome = Raise KeyError /\ w' = w)
    /\ (get_last w mdl_id = Return (total_sets cfg - 1) -> inits = [])
    /\ (outcome = Return (Some GivenUp) -> trained = [])
    /\ (trained <> [] ->
        exists v n, commands v = commands w ++ inits
                    /\ get_last v mdl_id = Return n /\ total_sets cfg - 1 <= n).
Proof.
  intros Hfuel. unfold run_model. unfold mbind at 1. unfold IO_bind at 1. unfold pure.
  pose proof (create_var_file_outcome var_dict out_var mdl_vars) as Hvar.
  destruct (create_var_file var_dict out_var mdl_vars) as [lines | cls].
  2: { destruct Hvar as [-> _]. exists (Raise KeyError), w, [], [].
       cbn [flat_map]. rewrite !app_nil_r.
       split; [reflexivity |]. split; [reflexivity |]. split; [constructor |].
       split; [cbn; lia |]. split; [apply sublist_nil_l |]. split; [discriminate |].
       split; [split; reflexivity |]. split; [reflexivity |].
       split; [reflexivity | congruence]. }
  destruct Hvar as [Hknown _].
  assert (Hunknown : forall (outcome : result (option Imputed)) (w' : World),
            Exists (fun v => var_dict !! v = None) (out_var :: mdl_vars) ->
            outcome = Raise KeyError /\ w' = w).
  { intros outcome w' Hbad. apply Exists_exists in Hbad as (v & Hv & Hnone).
    rewrite Forall_forall in Hknown. destruct (Hknown v Hv) as [type Htype].
    congruence. }
  unfold mbind at 1. unfold IO_bind at 1.
  destruct (get_last w mdl_id) as [n | cls] eqn:Elast.
  2: { exists (Raise cls), w, [], []. cbn [flat_map]. rewrite !app_nil_r.
       split; [reflexivity |]. split; [reflexivity |]. split; [constructor |].
       split; [cbn; lia |]. split; [apply sublist_nil_l |]. split; [discriminate |].
       split; [apply Hunknown |]. split; [reflexivity |].
       split; [reflexivity | congruence]. }
  destruct (n + 1 =? total_sets cfg) eqn:Eall.
  - apply Z.eqb_eq in Eall.
    unfold mbind at 1. unfold IO_bind at 1. cbn [mret IO_ret].
    unfold mbind at 1. unfold IO_bind at 1.
    destruct (train_predictors_runs mdl_id (predictors cfg) w)
      as (trained & w' & Hrun & Hcmds & Hsub & _).
    rewrite Hrun.
    exists (if forallb (has_options cfg) (predictors cfg)
            then Return (Some (Completed 0)) else Raise KeyError), w', [], trained.
    split; [destruct (forallb _ _); reflexivity |].
    split; [exact Hcmds |]. split; [constructor |]. split; [cbn; lia |].
    split; [exact Hsub |].
    split; [destruct (forallb _ _); discriminate |].
    split; [apply Hunknown |]. split; [reflexivity |].
    split; [destruct (forallb _ _); discriminate |].
    intros _. exists w, n. rewrite app_nil_r. repeat split; [exact Elast | lia].
  - apply Z.eqb_neq in Eall.
    assert (Hrounds : (rounds_left cfg (impute_method cfg) 0 <= fuel)%nat).
    { unfold rounds_left. rewrite Z.sub_0_r.
      destruct (can_fall_back cfg (impute_method cfg)); lia. }
    destruct (impute_within_rounds fuel mdl_id (impute_method cfg) (n + 1) 0 w Hrounds)
      as (outcome & w1 & primary & fallback & Hloop & Hcmds & Hp & Hf & Hlp & Hlf & Hend).
    rewrite Z.sub_0_r in Hlp.
    assert (Hinits : Forall (init_request_any cfg mdl_id) (primary ++ fallback)).
    { apply Forall_app. split; eapply Forall_impl; try eassumption;
        intros cmd Hcmd; [left | right]; exact Hcmd. }
    assert (Hlen : (length (primary ++ fallback)
                    <= 2 * (Z.to_nat (max_restarts cfg) + 1))%nat).
    { rewrite length_app. destruct (can_fall_back cfg (impute_method cfg)); lia. }
    assert (Hskip : Return n = Return (total_sets cfg - 1) ->
                    primary ++ fallback = []).
    { intros [= ->]. lia. }
    unfold mbind at 1. unfold IO_bind at 1. rewrite Hloop.
    destruct outcome as [[[nrest |] |] | cls]; [| | contradiction |].
    + unfold mbind at 1. unfold IO_bind at 1.
      destruct (train_predictors_runs mdl_id (predictors cfg) w1)
        as (trained & w' & Hrun & Hcmds' & Hsub & _).
      rewrite Hrun.
      exists (if forallb (has_options cfg) (predictors cfg)
              then Return (Some (Completed nrest)) else Raise KeyError),
        w', (primary ++ fallback), trained.
      split; [destruct (forallb _ _); reflexivity |].
      split; [rewrite Hcmds', Hcmds, <- !app_assoc; reflexivity |].
      split; [exact Hinits |]. split; [exact Hlen |]. split; [exact Hsub |].
      split; [destruct (forallb _ _); discriminate |].
      split; [apply Hunknown |]. split; [exact Hskip |].
      split; [destruct (forallb _ _); discriminate |].
      intros _. destruct Hend as (m & Hm & Hge). exists w1, m.
      split; [exact Hcmds |]. split; assumption.
    + exists (Return (Some GivenUp)), w1, (primary ++ fallback), [].
      cbn [flat_map]. rewrite app_nil_r.
      split; [reflexivity |]. split; [exact Hcmds |].
      split; [exact Hinits |]. split; [exact Hlen |]. split; [apply sublist_nil_l |].
      split; [discriminate |]. split; [apply Hunknown |]. split; [exact Hskip |].
      split; [reflexivity | congruence].
    + exists (Raise cls), w1, (primary ++ fallback), [].
      cbn [flat_map]. rewrite app_nil_r.
      split; [reflexivity |]. split; [exact Hcmds |].
      split; [exact Hinits |]. split; [exact Hlen |]. split; [apply sublist_nil_l |].
      split; [discriminate |]. split; [apply Hunknown |]. split; [exact Hskip |].
      split; [reflexivity | congruence].
Qed.
End JobProperties.

(** X17: the imputation loop of [run_model] always ends within
    [2 * (max_restarts + 1)] rounds, whatever the runs of [init.py] do: it
    is left with [get_last] at [total_sets - 1] or more, or the model is
    given up with [get_last] below that, or [get_last] itself fails; and it
    has run at most that many commands. *)
Theorem imputation_ends
    (cfg : Config) (get_last : World -> string -> result Z)
    (fuel : nat) (mdl_id : string) (start : Z) (w : World) :
  (2 * (Z.to_nat (max_restarts cfg) + 1) <= fuel)%nat ->
  exists outcome w',
    impute cfg get_last fuel mdl_id (impute_method cfg) start
      (total_sets cfg - start) 0 w = (outcome, w')
    /\ (length (commands w')
        <= length (commands w) + 2 * (Z.to_nat (max_restarts cfg) + 1))%nat
    /\ match outcome with
       | Return None => False
       | Return (Some (Completed _)) =>
           exists n, get_last w' mdl_id = Return n /\ total_sets cfg - 1 <= n
       | Return (Some GivenUp) =>
           exists n, get_last w' mdl_id = Return n /\ n < total_sets cfg - 1
       | Raise cls => get_last w' mdl_id = Raise cls
       end.
Proof.
  intros Hfuel.
  assert (Hrounds : (rounds_left cfg (impute_method cfg) 0
                     <= 2 * (Z.to_nat (max_restarts cfg) + 1))%nat).
  { unfold rounds_left. rewrite Z.sub_0_r.
    destruct (can_fall_back cfg (impute_method cfg)); lia. }
  destruct (impute_within_rounds cfg get_last fuel mdl_id (impute_method cfg) start 0 w)
    as (outcome & w' & primary & fallback & Hloop & Hcmds & _ & _ & Hlp & Hlf & Hend);
    [lia |].
  exists outcome, w'. split; [exact Hloop |]. split; [| exact Hend].
  rewrite Hcmds, !length_app. rewrite Z.sub_0_r in Hlp.
  destruct (can_fall_back cfg (impute_method cfg)); lia.
Qed.

(** X18: the commands that the imputation loop runs are commands of
    [init.py] for the model, first with the configured method and then, if
    at all, with the fallback method, at most [max_restarts + 1] of each;
    each asks for the sets from a first one to the last
    ([count = total_sets - first]); and the fallback method is used only
    when it is set and differs from the configured one. *)
Theorem imputation_requests
    (cfg : Config) (get_last : World -> string -> result Z)
    (fuel : nat) (mdl_id : string) (start : Z) (w : World) :
  (2 * (Z.to_nat (max_restarts cfg) + 1) <= fuel)%nat ->
  exists primary fallback,
    commands (impute cfg get_last fuel mdl_id (impute_method cfg) start
                (total_sets cfg - start) 0 w).2
    = commands w ++ primary ++ fallback
    /\ Forall (init_request cfg mdl_id (impute_method cfg)) primary
    /\ Forall (init_request cfg mdl_id (impute_fallback cfg)) fallback
    /\ (length primary <= Z.to_nat (max_restarts cfg) + 1)%nat
    /\ (length fallback <= Z.to_nat (max_restarts cfg) + 1)%nat
    /\ (impute_fallback cfg = EmptyString \/ impute_fallback cfg = impute_method cfg ->
        fallback = []).
Proof.
  intros Hfuel.
  assert (Hrounds : (rounds_left cfg (impute_method cfg) 0
                     <= 2 * (Z.to_nat (max_restarts cfg) + 1))%nat).
  { unfold rounds_left. rewrite Z.sub_0_r.
    destruct (can_fall_back cfg (impute_method cfg)); lia. }
  destruct (impute_within_rounds cfg get_last fuel mdl_id (impute_method cfg) start 0 w)
    as (outcome & w' & primary & fallback & Hloop & Hcmds & Hp & Hf & Hlp & Hlf & _);
    [lia |].
  rewrite Hloop. cbn [snd]. rewrite Z.sub_0_r in Hlp.
  exists primary, fallback. repeat split; try assumption.
  - destruct (can_fall_back cfg (impute_method cfg)); lia.
  - intros Hoff.
    assert (Hno : can_fall_back cfg (impute_method cfg) = false).
    { unfold can_fall_back. destruct Hoff as [-> | ->]; [reflexivity |].
      rewrite String.eqb_refl. apply andb_false_r. }
    rewrite Hno in Hlf. destruct fallback; [reflexivity | cbn in Hlf; lia].
Qed.

(** X19: the loop over the predictors raises [KeyError] exactly when a
    predictor has no entry in [pred_options], also one whose report is
    already there, and returns otherwise.  Until then it has run, for some
    of the predictors in their order, the command of [train.py] with the
    options of the predictor and then the command of [eval.py]; a predictor
    whose report is always there with a line is not among them, and when no
    predictor has such a report and all have options, all are trained. *)
Theorem train_predictors_outcome
    (cfg : Config) (report_lines : World -> string -> option (list string))
    (mdl_id : string) (pred_names : list string) (w : World) :
  exists trained,
    (train_predictors cfg report_lines mdl_id pred_names w).1
      = (if forallb (has_options cfg) pred_names then Return tt else Raise KeyError)
    /\ commands (train_predictors cfg report_lines mdl_id pred_names w).2
       = commands w ++ flat_map (training cfg mdl_id) trained
    /\ sublist trained.*1 pred_names
    /\ Forall (fun t => pred_options cfg !! t.1 = Some t.2) trained
    /\ (forall p, (forall v, has_report cfg report_lines mdl_id v p = true) ->
                  p ∉ trained.*1)
    /\ (forallb (has_options cfg) pred_names = true ->
        (forall v p, p ∈ pred_names -> has_report cfg report_lines mdl_id v p = false) ->
        trained.*1 = pred_names).
Proof.
  destruct (train_predictors_runs cfg report_lines mdl_id pred_names w)
    as (trained & w' & Hrun & Hrest).
  exists trained. rewrite Hrun. cbn [fst snd]. split; [reflexivity | exact Hrest].
Qed.

(** X20: with rounds enough, [run_model] ends, and what it has run is first
    commands of [init.py] for the model, at most [2 * (max_restarts + 1)],
    and then the commands of predictors of the configuration, in their
    order.  A variable that [var_dict] does not know stops it with
    [KeyError] before any command; when [get_last] first answers
    [total_sets - 1] no command of [init.py] is run; a model that is given
    up has no predictor trained; and predictors are trained only once
    [get_last] has answered [total_sets - 1] or more. *)
Theorem run_model_stages
    (cfg : Config) (get_last : World -> string -> result Z)
    (report_lines : World -> string -> option (list string))
    (fuel : nat) (var_dict : gmap string string)
    (out_var mdl_id : string) (mdl_vars : list string) (w : World) :
  (2 * (Z.to_nat (max_restarts cfg) + 1) <= fuel)%nat ->
  exists outcome w' inits trained,
    run_model cfg get_last report_lines fuel var_dict out_var mdl_id mdl_vars w
      = (outcome, w')
    /\ commands w' = commands w ++ inits ++ flat_map (training cfg mdl_id) trained
    /\ Forall (init_request_any cfg mdl_id) inits
    /\ (length inits <= 2 * (Z.to_nat (max_restarts cfg) + 1))%nat
    /\ sublist trained.*1 (predictors cfg)
    /\ outcome <> Return None
    /\ (Exists (fun v => var_dict !! v = None) (out_var :: mdl_vars) ->
        outcome = Raise KeyError /\ w' = w)
    /\ (get_last w mdl_id = Return (total_sets cfg - 1) -> inits = [])
    /\ (outcome = Return (Some GivenUp) -> trained = [])
    /\ (trained <> [] ->
        exists v n, commands v = commands w ++ inits
                    /\ get_last v mdl_id = Return n /\ total_sets cfg - 1 <= n).
Proof.
  apply run_model_runs.
Qed.

Lemma training_commands_length (cfg : Config) (mdl_id : string)
    (trained : list (string * string)) :
  length (flat_map (training cfg mdl_id) trained) = (2 * length trained)%nat.
Proof.
  induction trained as [| t trained IH]; [reflexivity |].
  cbn [flat_map training app length]. rewrite IH. lia.
Qed.

(** X21: with rounds enough for each model, the loop over the models of a
    job ends, having run at most
    [2 * (max_restarts + 1) + 2 * len(predictors)] commands for each model.
    When it returns, every model of the job has been gone through, those
    given up too; a model with a variable that [var_dict] does not know
    makes the job end with an exception. *)
Theorem job_within_bounds
    (cfg : Config) (get_last : World -> string -> result Z)
    (report_lines : World -> string -> option (list string))
    (fuel : nat) (var_dict : gmap string string) (out_var : string)
    (jobs : list (string * list string)) (w : World) :
  (2 * (Z.to_nat (max_restarts cfg) + 1) <= fuel)%nat ->
  exists outcome w',
    run_models cfg get_last report_lines fuel var_dict out_var jobs w = (outcome, w')
    /\ outcome <> Return None
    /\ (length (commands w')
        <= length (commands w) + length jobs * commands_per_model cfg)%nat
    /\ (forall imputed, outcome = Return (Some imputed) ->
          length imputed = length jobs)
    /\ (Exists (fun job => Exists (fun v => var_dict !! v = None) (out_var :: job.2)) jobs ->
        exists cls, outcome = Raise cls).
Proof.
  intros Hfuel. revert w. induction jobs as [| [id vars] rest IH]; intros w.
  { exists (Return (Some [])), w. split; [reflexivity |]. split; [discriminate |].
    split; [cbn; lia |]. split; [intros imputed [= <-]; reflexivity |].
    intros Hbad. inversion Hbad. }
  cbn [run_models]. unfold mbind at 1. unfold IO_bind at 1.
  destruct (run_model_runs cfg get_last report_lines fuel var_dict out_var id vars w Hfuel)
    as (outcome & w1 & inits & trained & Hrun & Hcmds & _ & Hlen & Hsub & Hsome
        & Hunknown & _).
  rewrite Hrun.
  assert (Hone : (length (commands w1) <= length (commands w) + commands_per_model cfg)%nat).
  { rewrite Hcmds, !length_app, training_commands_length.
    apply sublist_length in Hsub. rewrite length_fmap in Hsub.
    unfold commands_per_model. lia. }
  clear Hcmds Hlen Hsub. set (c := commands_per_model cfg) in *.
  destruct outcome as [[imputed |] | cls]; [| congruence |].
  - unfold mbind at 1. unfold IO_bind at 1.
    destruct (IH w1) as (outcome' & w' & Hrun' & Hsome' & Hbound & Hall & Hraise).
    rewrite Hrun'.
    destruct outcome' as [[others |] | cls]; [| congruence |].
    + exists (Return (Some (imputed :: others))), w'.
      split; [reflexivity |]. split; [discriminate |].
      split; [cbn [length]; lia |].
      split; [intros ? [= <-]; cbn [length]; f_equal; apply Hall; reflexivity |].
      intros Hbad. apply Exists_cons in Hbad as [Hbad | Hbad].
      * destruct (Hunknown Hbad) as [Hno _]. discriminate.
      * destruct (Hraise Hbad) as [cls Hcls]. discriminate.
    + exists (Raise cls), w'.
      split; [reflexivity |]. split; [discriminate |].
      split; [cbn [length]; lia |]. split; [discriminate |].
      intros _. exists cls. reflexivity.
  - exists (Raise cls), w1.
    split; [reflexivity |]. split; [discriminate |].
    split; [cbn [length]; lia |]. split; [discriminate |].
    intros _. exists cls. reflexivity.
Qed.

(** ** The configuration file *)

(** A line of the configuration file takes no options away, and leaves the
    predictors and the methods as they are unless it names them. *)
Lemma config_line_keeps (int_of_string : string -> result Z)
    (cfg cfg' : Config) (line : string) :
  config_line int_of_string cfg line = Return cfg' ->
  (forall p, is_Some (pred_options cfg !! p) -> is_Some (pred_options cfg' !! p))
  /\ (forall m, is_Some (impute_options cfg !! m) -> is_Some (impute_options cfg' !! m))
  /\ (config_key line <> "predictors" -> predictors cfg' = predictors cfg)
  /\ (config_key line <> "impute_method" -> impute_method cfg' = impute_method cfg)
  /\ (config_key line <> "impute_fallback" -> impute_fallback cfg' = impute_fallback cfg).
Proof.
  unfold config_line, config_key. cbv zeta.
  destruct (String.eqb (strip line) "").
  { intros [= <-]. repeat split; auto. }
  destruct (split_once (strip line) "="%char) as [| key [| value [| ? ?]]];
    try discriminate.
  cbn [List.hd].
  repeat match goal with
  | |- context [String.eqb key ?k] =>
      destruct (String.eqb_spec key k) as [-> | ?]; cbv iota
  | |- context [contains key ?k] => destruct (contains key k); cbv iota
  | |- context [int_of_string value] =>
      destruct (int_of_string value); cbn [mbind result_bind]
  | |- context [getitem ?l 1] => destruct (getitem l 1); cbn [mbind result_bind]
  end; try discriminate; intros [= <-]; cbn;
  (split; [| split; [| split; [| split]]]); try congruence; try (intros; assumption);
  intros q Hq; rewrite lookup_insert_is_Some;
  match goal with
  | |- ?k = q \/ _ => destruct (decide (k = q)); [left | right; split]; assumption
  end.
Qed.

Lemma load_config_keeps (int_of_string : string -> result Z)
    (lines : list string) (cfg cfg' : Config) :
  load_config int_of_string lines cfg = Return cfg' ->
  (forall p, is_Some (pred_options cfg !! p) -> is_Some (pred_options cfg' !! p))
  /\ (forall m, is_Some (impute_options cfg !! m) -> is_Some (impute_options cfg' !! m))
  /\ (Forall (fun line => config_key line <> "predictors") lines ->
      predictors cfg' = predictors cfg)
  /\ (Forall (fun line => config_key line <> "impute_method") lines ->
      impute_method cfg' = impute_method cfg)
  /\ (Forall (fun line => config_key line <> "impute_fallback") lines ->
      impute_fallback cfg' = impute_fallback cfg).
Proof.
  revert cfg. induction lines as [| line rest IH]; intros cfg.
  { intros [= <-]. repeat split; auto. }
  cbn [load_config].
  destruct (config_line int_of_string cfg line) as [cfg1 |] eqn:Eline; [| discriminate].
  cbn [mbind result_bind]. intros Hrest.
  destruct (config_line_keeps _ _ _ _ Eline) as (Hp & Hm & Hpreds & Hmeth & Hfall).
  destruct (IH _ Hrest) as (Hp' & Hm' & Hpreds' & Hmeth' & Hfall').
  split; [intros p Hsome; apply Hp', Hp, Hsome |].
  split; [intros m Hsome; apply Hm', Hm, Hsome |].
  split; [| split]; intros Hall; apply Forall_cons in Hall as [Hline Hall].
  - rewrite (Hpreds' Hall). apply Hpreds, Hline.
  - rewrite (Hmeth' Hall). apply Hmeth, Hline.
  - rewrite (Hfall' Hall). apply Hfall, Hline.
Qed.

(** X22: whatever a configuration file that is read without error sets, the
    options of the default predictors and of the default imputation methods
    stay: if no line has the key [predictors], the loop over the predictors
    never raises [KeyError], and if no line has the key [impute_method]
    (or [impute_fallback]) every run of [worker] with that method runs its
    command of [init.py]. *)
Theorem default_methods_have_options
    (int_of_string : string -> result Z) (lines : list string) (cfg : Config) :
  load_config int_of_string lines default_config = Return cfg ->
  (Forall (fun line => config_key line <> "predictors") lines ->
   forall report_lines mdl_id w,
     (train_predictors cfg report_lines mdl_id (predictors cfg) w).1 = Return tt)
  /\ (Forall (fun line => config_key line <> "impute_method") lines ->
      forall name count first w, exists options,
        worker cfg name count first (impute_method cfg) w
        = os_system (init_command cfg name count first (impute_method cfg) options) w)
  /\ (Forall (fun line => config_key line <> "impute_fallback") lines ->
      forall name count first w, exists options,
        worker cfg name count first (impute_fallback cfg) w
        = os_system (init_command cfg name count first (impute_fallback cfg) options) w).
Proof.
  intros Hload.
  destruct (load_config_keeps _ _ _ _ Hload) as (Hp & Hm & Hpreds & Hmeth & Hfall).
  split; [| split].
  - intros Hall report_lines mdl_id w.
    destruct (train_predictors_runs cfg report_lines mdl_id (predictors cfg) w)
      as (trained & w' & Hrun & _).
    rewrite Hrun, (Hpreds Hall). cbn [fst predictors default_config forallb].
    unfold has_options.
    destruct (Hp "lreg") as [? ->]; [eexists; reflexivity |].
    destruct (Hp "scikit_lreg") as [? ->]; [eexists; reflexivity |].
    reflexivity.
  - intros Hall name count first w. rewrite (Hmeth Hall). unfold worker.
    destruct (Hm "hmisc") as [options Hopt]; [eexists; reflexivity |].
    exists options. cbn [impute_method default_config]. rewrite Hopt. reflexivity.
  - intros Hall name count first w. rewrite (Hfall Hall). unfold worker.
    destruct (Hm "mice") as [options Hopt]; [eexists; reflexivity |].
    exists options. cbn [impute_fallback default_config]. rewrite Hopt. reflexivity.
Qed.

Lemma getitem_second {A} (l : list A) :
  getitem l 1 = match l !! 1%nat with
                | Some x => Return x
                | None => Raise IndexError
                end.
Proof.
  reflexivity.
Qed.

Lemma config_line_no_options (int_of_string : string -> result Z)
    (cfg cfg' : Config) (line p : string) :
  config_line int_of_string cfg line = Return cfg' ->
  options_given_to line <> Some p ->
  pred_options cfg !! p = None ->
  pred_options cfg' !! p = None.
Proof.
  unfold config_line, options_given_to, config_key. cbv zeta.
  destruct (String.eqb (strip line) "").
  { intros [= <-] _ Hnone. exact Hnone. }
  destruct (split_once (strip line) "="%char) as [| key [| value [| ? ?]]];
    try discriminate.
  cbn [List.hd]. rewrite !getitem_second.
  intros Hline Hother Hnone. revert Hline.
  repeat match goal with
  | |- context [String.eqb key ?k] => destruct (String.eqb key k)
  end;
  try (destruct (int_of_string value); cbn [mbind result_bind]);
  try discriminate; try (intros [= <-]; exact Hnone).
  all: destruct (contains key "pred_options").
  all: try (destruct (contains key "impute_options")).
  all: try (destruct (split key "."%char !! 1%nat) as [pred |];
            cbn [mbind result_bind]; [| discriminate]).
  all: intros [= <-]; cbn;
    first [exact Hnone | rewrite lookup_insert_ne; [exact Hnone | congruence]].
Qed.

Lemma load_config_no_options (int_of_string : string -> result Z)
    (lines : list string) (cfg cfg' : Config) (p : string) :
  load_config int_of_string lines cfg = Return cfg' ->
  Forall (fun line => options_given_to line <> Some p) lines ->
  pred_options cfg !! p = None ->
  pred_options cfg' !! p = None.
Proof.
  revert cfg. induction lines as [| line rest IH]; intros cfg.
  { intros [= <-] _ Hnone. exact Hnone. }
  cbn [load_config].
  destruct (config_line int_of_string cfg line) as [cfg1 |] eqn:Eline; [| discriminate].
  cbn [mbind result_bind]. intros Hrest Hall Hnone.
  apply Forall_cons in Hall as [Hline Hall].
  apply (IH _ Hrest Hall). exact (config_line_no_options _ _ _ _ _ Eline Hline Hnone).
Qed.

(** X23: a predictor that the configuration names, other than the two
    default ones, needs a line that gives its options: when no line of the
    file has a key with [pred_options] whose second piece between dots is
    the predictor, the loop over the predictors raises [KeyError]. *)
Theorem predictor_without_options_line
    (int_of_string : string -> result Z) (lines : list string) (cfg : Config)
    (p : string) :
  load_config int_of_string lines default_config = Return cfg ->
  p ∈ predictors cfg ->
  p <> "lreg" -> p <> "scikit_lreg" ->
  Forall (fun line => options_given_to line <> Some p) lines ->
  forall report_lines mdl_id w,
    (train_predictors cfg report_lines mdl_id (predictors cfg) w).1 = Raise KeyError.
Proof.
  intros Hload Hin Hlreg Hscikit Hall report_lines mdl_id w.
  assert (Hnone : pred_options cfg !! p = None).
  { apply (load_config_no_options _ _ _ _ _ Hload Hall).
    cbn [pred_options default_config].
    rewrite !lookup_insert_ne by congruence. apply lookup_empty. }
  destruct (train_predictors_runs cfg report_lines mdl_id (predictors cfg) w)
    as (trained & w' & Hrun & _).
  rewrite Hrun. cbn [fst].
  destruct (forallb (has_options cfg) (predictors cfg)) eqn:Eall; [| reflexivity].
  rewrite forallb_forall in Eall. apply list_elem_of_In in Hin.
  specialize (Eall p Hin). unfold has_options in Eall. rewrite Hnone in Eall.
  discriminate.
Qed.

(** ** The job file *)

Lemma rstrip_all_space (s : string) : all_space s = true -> rstrip s = EmptyString.
Proof.
  induction s as [| c s IH]; [reflexivity |].
  cbn [all_space rstrip]. intros Hall. apply andb_true_iff in Hall as [Hc Hs].
  rewrite (IH Hs), Hc. reflexivity.
Qed.

Lemma rstrip_append_space (s after : string) :
  all_space after = true -> rstrip (s +:+ after) = rstrip s.
Proof.
  intros Hall. induction s as [| c s IH].
  - change (EmptyString +:+ after) with after. rewrite (rstrip_all_space _ Hall).
    reflexivity.
  - change (String c s +:+ after) with (String c (s +:+ after)).
    cbn [rstrip]. rewrite IH. reflexivity.
Qed.

Lemma rstrip_no_space (s : string) : has_space s = false -> rstrip s = s.
Proof.
  induction s as [| c s IH]; [reflexivity |].
  cbn [has_space rstrip]. intros Hno. apply orb_false_iff in Hno as [Hc Hs].
  rewrite (IH Hs), Hc. destruct s; reflexivity.
Qed.

Lemma rstrip_append_kept (a b : string) :
  b <> EmptyString -> rstrip b = b -> rstrip (a +:+ b) = a +:+ b.
Proof.
  intros Hb Hkept. induction a as [| c a IH]; [exact Hkept |].
  change (String c a +:+ b) with (String c (a +:+ b)).
  cbn [rstrip]. rewrite IH.
  destruct (a +:+ b) eqn:Eab; [| reflexivity].
  destruct a; [| discriminate]. contradiction.
Qed.

Lemma lstrip_append_space (before s : string) :
  all_space before = true -> lstrip (before +:+ s) = lstrip s.
Proof.
  induction before as [| c before IH]; [reflexivity |].
  cbn [all_space]. intros Hall. apply andb_true_iff in Hall as [Hc Hs].
  change (String c before +:+ s) with (String c (before +:+ s)).
  cbn [lstrip]. rewrite Hc. exact (IH Hs).
Qed.

(** What [strip] leaves of a text between blanks, when the text starts and
    ends with other characters. *)
Lemma strip_surrounded (before body after : string) (c : ascii) (rest : string) :
  all_space before = true -> all_space after = true ->
  body = String c rest -> is_space c = false -> rstrip body = body ->
  strip (before +:+ body +:+ after) = body.
Proof.
  intros Hbefore Hafter Hbody Hc Hkept. unfold strip.
  rewrite <- string_append_assoc, (rstrip_append_space _ _ Hafter).
  rewrite (rstrip_append_kept before body); [| rewrite Hbody; discriminate | exact Hkept].
  rewrite (lstrip_append_space _ _ Hbefore), Hbody. cbn [lstrip]. rewrite Hc.
  reflexivity.
Qed.

Lemma has_space_append (a b : string) :
  has_space (a +:+ b) = has_space a || has_space b.
Proof.
  induction a as [| c a IH]; [reflexivity |].
  change (String c a +:+ b) with (String c (a +:+ b)).
  cbn [has_space]. rewrite IH, orb_assoc. reflexivity.
Qed.

Lemma has_space_join (pieces : list string) :
  Forall (fun v => has_space v = false) pieces ->
  has_space (join ","%char pieces) = false.
Proof.
  induction 1 as [| v rest Hv _ IH]; [reflexivity |].
  destruct rest as [| v' rest]; [exact Hv |].
  change (join ","%char (v :: v' :: rest))
    with (v +:+ String ","%char (join ","%char (v' :: rest))).
  rewrite has_space_append, Hv. cbn [has_space orb]. rewrite IH. reflexivity.
Qed.

Lemma has_space_has_char (s : string) :
  has_space s = false -> has_char " "%char s = false.
Proof.
  induction s as [| c s IH]; [reflexivity |].
  cbn [has_space has_char]. intros Hno. apply orb_false_iff in Hno as [Hc Hs].
  rewrite (IH Hs), orb_false_r.
  destruct (Ascii.eqb_spec " "%char c) as [<- | _]; [discriminate | reflexivity].
Qed.

(** X24: a line of the job file made of an identifier, a space and
    variables with commas between them is read back as the identifier and
    the variables, whatever blanks surround it (the end of the line too),
    when the identifier and the variables have no blank and no variable has
    a comma. *)
Theorem job_line_round_trip (before after id : string) (vars : list string) :
  all_space before = true -> all_space after = true ->
  id <> EmptyString -> has_space id = false ->
  Forall (fun v => has_space v = false) vars ->
  Forall (fun v => has_char ","%char v = false) vars ->
  join ","%char vars <> EmptyString ->
  job_line (before +:+ (id +:+ String " "%char (join ","%char vars)) +:+ after)
  = Return (Some (id, vars)).
Proof.
  intros Hbefore Hafter Hid Hno Hvars Hcomma Hsome.
  pose proof (has_space_join _ Hvars) as Hjoin.
  destruct id as [| c id']; [contradiction |].
  pose proof Hno as Hno'. cbn [has_space] in Hno'.
  apply orb_false_iff in Hno' as [Hc _].
  unfold job_line. cbv zeta.
  change (String c id' +:+ String " "%char (join ","%char vars))
    with (String c (id' +:+ String " "%char (join ","%char vars))).
  rewrite (strip_surrounded before _ after c
             (id' +:+ String " "%char (join ","%char vars)) Hbefore Hafter eq_refl Hc).
  2: { change (String c (id' +:+ String " "%char (join ","%char vars)))
         with (String c id' +:+ (String " "%char EmptyString +:+ join ","%char vars)).
       rewrite <- string_append_assoc.
       apply rstrip_append_kept; [exact Hsome | apply rstrip_no_space, Hjoin]. }
  cbn [String.eqb]. cbv iota.
  unfold split.
  change (String c (id' +:+ String " "%char (join ","%char vars)))
    with (join " "%char [String c id'; join ","%char vars]).
  rewrite split_join.
  2: { constructor; [apply has_space_has_char, Hno |].
       constructor; [apply has_space_has_char, Hjoin | constructor]. }
  change (EmptyString +:+ String c id') with (String c id').
  destruct vars as [| v vars]; [contradiction |].
  rewrite (split_join ","%char v vars EmptyString Hcomma). reflexivity.
Qed.

Lemma split_aux_length (sep : ascii) (s cur : string) :
  length (split_aux sep s cur) = S (count_char sep s).
Proof.
  revert cur. induction s as [| c s IH]; intros cur; [reflexivity |].
  cbn [split_aux count_char]. rewrite (Ascii.eqb_sym sep c).
  destruct (Ascii.eqb c sep); cbn [length]; rewrite IH; reflexivity.
Qed.

Lemma job_line_outcome (line : string) :
  if job_line_ok line
  then exists job, job_line line = Return job
                   /\ (job = None <-> strip line = EmptyString)
  else job_line line = Raise ValueError.
Proof.
  unfold job_line_ok, job_line. cbv zeta.
  destruct (String.eqb_spec (strip line) EmptyString) as [Hblank | Hline]; cbn [orb].
  { exists None. split; [reflexivity | split; auto]. }
  pose proof (split_aux_length " "%char (strip line) EmptyString) as Hlen.
  fold (split (strip line) " "%char) in Hlen.
  destruct (split (strip line) " "%char) as [| id [| vars [| more rest]]];
    cbn [length] in Hlen.
  - discriminate.
  - injection Hlen as <-. reflexivity.
  - injection Hlen as <-. cbn [Nat.eqb]. eexists. split; [reflexivity |].
    split; [discriminate | contradiction].
  - injection Hlen as <-. reflexivity.
Qed.

(** X25: the job file is read without error exactly when each of its lines,
    once stripped, is empty or has one space and no more; any other line
    stops the script with [ValueError].  The models read are as many as the
    lines that are not blank. *)
Theorem load_jobs_one_space (lines : list string) :
  if forallb job_line_ok lines
  then exists jobs,
         load_jobs lines = Return jobs
         /\ length jobs
            = length (List.filter (fun line => negb (String.eqb (strip line) EmptyString))
                        lines)
  else load_jobs lines = Raise ValueError.
Proof.
  induction lines as [| line rest IH]; [exists []; split; reflexivity |].
  cbn [forallb load_jobs List.filter].
  pose proof (job_line_outcome line) as Hline.
  destruct (job_line_ok line); cbn [andb].
  2: { rewrite Hline. reflexivity. }
  destruct Hline as (job & -> & Hblank). cbn [mbind result_bind].
  destruct (forallb job_line_ok rest).
  2: { rewrite IH. reflexivity. }
  destruct IH as (jobs & -> & Hlen). cbn [mbind result_bind].
  eexists. split; [reflexivity |].
  destruct job as [job |].
  - destruct (String.eqb_spec (strip line) EmptyString) as [Hnone | _].
    + apply Hblank in Hnone. discriminate.
    + cbn [negb length]. rewrite Hlen. reflexivity.
  - destruct (String.eqb_spec (strip line) EmptyString) as [_ | Hne].
    + exact Hlen.
    + destruct Hne. apply Hblank. reflexivity.
Qed.

(** * Instances of the properties with a hypothesis *)

Lemma brier_score_loss_range_witness :
  brier_score_loss [0; 1; 1] [0; 1; 0.5]%Q None None = Return (25 # 300)%Q
  /\ (0 <= 25 # 300 <= 1)%Q.
Proof.
  assert (Hrun : brier_score_loss [0; 1; 1] [0; 1; 0.5]%Q None None
                 = Return (25 # 300)%Q) by (vm_compute; reflexivity).
  split; [assumption |].
  apply (brier_score_loss_range [0; 1; 1] [0; 1; 0.5]%Q None (25 # 300)%Q Hrun).
Defined.

Lemma score_bootstrap_single_class_witness :
  (n_unique [1; 1; 1]%Z < 2)%nat
  /\ (1 <= length [0; 1; 0])%nat
  /\ score_bootstrap (fun a b => Return (Metrics.precision a b))
       [1; 1; 1] [0; 1; 0] five_percent 4 (tape_a 0)
     = Raise IndexError.
Proof.
  assert (Hone : (n_unique [1; 1; 1]%Z < 2)%nat) by (vm_compute; lia).
  assert (Hne : (1 <= length [0; 1; 0])%nat) by (cbn; lia).
  repeat (split; [assumption |]).
  apply (score_bootstrap_single_class (fun a b => Return (Metrics.precision a b))
           [1; 1; 1] [0; 1; 0] five_percent 4 (tape_a 0) Hone Hne).
Defined.

Lemma score_bootstrap_bounds_recorded_witness :
  (1 <= length [0; 1; 0])%nat
  /\ score_bootstrap (fun a b => Return (Metrics.precision a b))
       [0; 1; 1] [0; 1; 0] five_percent 4 (tape_a 0)
     = Return (0%Q, 1%Q)
  /\ exists scores,
       bootstrap_loop (fun a b => Return (Metrics.precision a b))
         [0; 1; 1] [0; 1; 0] (Z.to_nat 4) (tape_a 0) [] = Return scores
       /\ 0%Q ∈ scores /\ 1%Q ∈ scores
       /\ 1 <= len scores <= 4
       /\ Forall (from_two_classes (fun a b => Return (Metrics.precision a b))
                    [0; 1; 1] [0; 1; 0]) scores.
Proof.
  assert (Hne : (1 <= length [0; 1; 0])%nat) by (cbn; lia).
  assert (Hrun : score_bootstrap (fun a b => Return (Metrics.precision a b))
                   [0; 1; 1] [0; 1; 0] five_percent 4 (tape_a 0)
                 = Return (0%Q, 1%Q)) by (vm_compute; reflexivity).
  repeat (split; [assumption |]).
  apply (score_bootstrap_bounds_recorded (fun a b => Return (Metrics.precision a b))
           [0; 1; 1] [0; 1; 0] five_percent 4 (tape_a 0) 0%Q 1%Q Hne Hrun).
Defined.

Lemma find_index_among_names_witness :
  ["nnet"; "lreg"] <> []
  /\ find_index ["nnet"; "lreg"] "/models/lreg/12" "" = "lreg"
  /\ in_list (find_index ["nnet"; "lreg"] "/models/lreg/12" "") ["nnet"; "lreg"] = true.
Proof.
  assert (Hne : ["nnet"; "lreg"] <> []) by discriminate.
  split; [assumption |].
  apply (find_index_among_names ["nnet"; "lreg"] "/models/lreg/12" Hne).
Defined.

Lemma score_loop_one_cell_per_score_witness :
  score_loop Metrics.sklearn tape_a (brier_args true) ["brier"; "other"]
    [0; 1; 1] [0; 1; 0.5]%Q (binarize [0; 1; 0.5]%Q) [] start
  = (Return [Interval (25 # 300) (25 # 300) (25 # 300)],
     {| commands := []; generators := 1 |})
  /\ (exists new, [Interval (25 # 300) (25 # 300) (25 # 300)] = [] ++ new
                  /\ length new = length (List.filter recognised ["brier"; "other"]))
  /\ generators {| commands := []; generators := 1 |}
     = (generators start
        + length (List.filter recognised ["brier"; "other"])
          * generators_per_cell (brier_args true))%nat.
Proof.
  assert (Hrun : score_loop Metrics.sklearn tape_a (brier_args true) ["brier"; "other"]
                   [0; 1; 1] [0; 1; 0.5]%Q (binarize [0; 1; 0.5]%Q) [] start
                 = (Return [Interval (25 # 300) (25 # 300) (25 # 300)],
                    {| commands := []; generators := 1 |}))
    by (vm_compute; reflexivity).
  split; [assumption |].
  apply (score_loop_one_cell_per_score Metrics.sklearn tape_a (brier_args true)
           ["brier"; "other"] [0; 1; 1] [0; 1; 0.5]%Q (binarize [0; 1; 0.5]%Q)
           [] _ start _ Hrun).
Defined.

Lemma rank_lines_rows_and_commands_witness :
  rank_lines Metrics.sklearn three_rows tape_a (brier_args false)
    var_labels index_names index_acron [line_at_threshold] [] start
  = (Return [{| acronym := "NN"; variables := ["Age"; "Temperature"];
                cells := [Point (25 # 300)] |}],
     {| commands := ["python utils/aggregate.py -B ./ -N 12 -p nnet"];
        generators := 0 |})
  /\ ["python utils/aggregate.py -B ./ -N 12 -p nnet"]
     = commands start
       ++ map (aggregate_command (brier_args false))
            (List.filter (passes (brier_args false) index_names) [line_at_threshold])
  /\ exists rows,
       [{| acronym := "NN"; variables := ["Age"; "Temperature"];
           cells := [Point (25 # 300)] |}] = [] ++ rows
       /\ length rows
          = length (List.filter (scored three_rows (brier_args false) index_names)
                      [line_at_threshold]).
Proof.
  assert (Hrun : rank_lines Metrics.sklearn three_rows tape_a (brier_args false)
                   var_labels index_names index_acron [line_at_threshold] [] start
                 = (Return [{| acronym := "NN"; variables := ["Age"; "Temperature"];
                               cells := [Point (25 # 300)] |}],
                    {| commands := ["python utils/aggregate.py -B ./ -N 12 -p nnet"];
                       generators := 0 |}))
    by (vm_compute; reflexivity).
  split; [assumption |].
  apply (rank_lines_rows_and_commands Metrics.sklearn three_rows tape_a
           (brier_args false) var_labels index_names index_acron
           [line_at_threshold] [] _ start _ Hrun).
Defined.

Lemma fold_id_round_trip_witness :
  has_char "."%char "17" = false
  /\ fold_id "./data/testing-data-17.csv" = "17"
  /\ pfile_of nnet "./data/testing-data-17.csv" = "./data/nnet-params-17"
  /\ trainfile_of "./data/testing-data-17.csv"
     = "./data/training-data-completed-17.csv"
  /\ (has_char "/"%char "17" = false ->
      is_testing_file "./data/testing-data-17.csv" = true).
Proof.
  assert (Hno : has_char "."%char "17" = false) by reflexivity.
  split; [assumption |].
  apply (fold_id_round_trip nnet "17" Hno).
Defined.

Lemma totals_independent_of_order_witness :
  ["./data/testing-data-1.csv"; "./data/testing-data-3.csv"]
    ≡ₚ ["./data/testing-data-3.csv"; "./data/testing-data-1.csv"]
  /\ conf_mat_totals three_folds nnet
       ["./data/testing-data-1.csv"; "./data/testing-data-3.csv"]
     = conf_mat_totals three_folds nnet
         ["./data/testing-data-3.csv"; "./data/testing-data-1.csv"].
Proof.
  assert (Hperm : ["./data/testing-data-1.csv"; "./data/testing-data-3.csv"]
                    ≡ₚ ["./data/testing-data-3.csv"; "./data/testing-data-1.csv"])
    by apply perm_swap.
  split; [assumption |].
  apply (totals_independent_of_order three_folds nnet _ _ Hperm).
Defined.

Lemma default_extra_tests_skip_clean_paths_witness :
  extra_tests (brier_args false) = extra_tests default_args
  /\ ["models"; "12"] <> []
  /\ Forall (fun p => p <> EmptyString /\ has_char "/"%char p = false) ["models"; "12"]
  /\ mdl_str clean_line = Notions.join "/"%char ["models"; "12"]
  /\ considered (brier_args false) index_names clean_line = false
  /\ rank_line Metrics.sklearn three_rows tape_a (brier_args false)
       var_labels index_names index_acron clean_line [] start
     = (Return [], start).
Proof.
  assert (Hextra : extra_tests (brier_args false) = extra_tests default_args)
    by reflexivity.
  assert (Hne : ["models"; "12"] <> []) by discriminate.
  assert (Hpieces : Forall (fun p => p <> EmptyString /\ has_char "/"%char p = false)
                      ["models"; "12"])
    by (repeat constructor; discriminate).
  assert (Hpath : mdl_str clean_line = Notions.join "/"%char ["models"; "12"])
    by reflexivity.
  repeat (split; [assumption |]).
  apply (default_extra_tests_skip_clean_paths Metrics.sklearn three_rows tape_a
           (brier_args false) var_labels index_names index_acron clean_line
           ["models"; "12"] [] start Hextra Hne Hpieces Hpath).
Defined.

Lemma imputation_ends_witness :
  (2 * (Z.to_nat (max_restarts small_cfg) + 1) <= 4)%nat
  /\ exists outcome w',
       impute small_cfg one_set_each 4 "12" (impute_method small_cfg) 0
         (total_sets small_cfg - 0) 0 start = (outcome, w')
       /\ (length (commands w')
           <= length (commands start) + 2 * (Z.to_nat (max_restarts small_cfg) + 1))%nat
       /\ match outcome with
          | Return None => False
          | Return (Some (Completed _)) =>
              exists n, one_set_each w' "12" = Return n /\ total_sets small_cfg - 1 <= n
          | Return (Some GivenUp) =>
              exists n, one_set_each w' "12" = Return n /\ n < total_sets small_cfg - 1
          | Raise cls => one_set_each w' "12" = Raise cls
          end.
Proof.
  assert (Hfuel : (2 * (Z.to_nat (max_restarts small_cfg) + 1) <= 4)%nat)
    by (vm_compute; lia).
  split; [assumption |].
  apply (imputation_ends small_cfg one_set_each 4 "12" 0 start Hfuel).
Defined.

Lemma imputation_requests_witness :
  (2 * (Z.to_nat (max_restarts small_cfg) + 1) <= 4)%nat
  /\ exists primary fallback,
       commands (impute small_cfg one_set_each 4 "12" (impute_method small_cfg) 0
                   (total_sets small_cfg - 0) 0 start).2
       = commands start ++ primary ++ fallback
       /\ Forall (init_request small_cfg "12" (impute_method small_cfg)) primary
       /\ Forall (init_request small_cfg "12" (impute_fallback small_cfg)) fallback
       /\ (length primary <= Z.to_nat (max_restarts small_cfg) + 1)%nat
       /\ (length fallback <= Z.to_nat (max_restarts small_cfg) + 1)%nat
       /\ (impute_fallback small_cfg = EmptyString
           \/ impute_fallback small_cfg = impute_method small_cfg ->
           fallback = []).
Proof.
  assert (Hfuel : (2 * (Z.to_nat (max_restarts small_cfg) + 1) <= 4)%nat)
    by (vm_compute; lia).
  split; [assumption |].
  apply (imputation_requests small_cfg one_set_each 4 "12" 0 start Hfuel).
Defined.

Lemma run_model_stages_witness :
  (2 * (Z.to_nat (max_restarts small_cfg) + 1) <= 4)%nat
  /\ exists outcome w' inits trained,
       run_model small_cfg one_set_each no_reports 4 var_dict "OUT" "12" ["AGE"] start
         = (outcome, w')
       /\ commands w' = commands start ++ inits ++ flat_map (training small_cfg "12") trained
       /\ Forall (init_request_any small_cfg "12") inits
       /\ (length inits <= 2 * (Z.to_nat (max_restarts small_cfg) + 1))%nat
       /\ sublist trained.*1 (predictors small_cfg)
       /\ outcome <> Return None
       /\ (Exists (fun v => var_dict !! v = None) ["OUT"; "AGE"] ->
           outcome = Raise KeyError /\ w' = start)
       /\ (one_set_each start "12" = Return (total_sets small_cfg - 1) -> inits = [])
       /\ (outcome = Return (Some GivenUp) -> trained = [])
       /\ (trained <> [] ->
           exists v n, commands v = commands start ++ inits
                       /\ one_set_each v "12" = Return n
                       /\ total_sets small_cfg - 1 <= n).
Proof.
  assert (Hfuel : (2 * (Z.to_nat (max_restarts small_cfg) + 1) <= 4)%nat)
    by (vm_compute; lia).
  split; [assumption |].
  apply (run_model_stages small_cfg one_set_each no_reports 4 var_dict "OUT" "12"
           ["AGE"] start Hfuel).
Defined.

Lemma job_within_bounds_witness :
  (2 * (Z.to_nat (max_restarts small_cfg) + 1) <= 4)%nat
  /\ exists outcome w',
       run_models small_cfg one_set_each no_reports 4 var_dict "OUT"
         [("12", ["AGE"]); ("13", ["AGE"; "TEMP"])] start = (outcome, w')
       /\ outcome <> Return None
       /\ (length (commands w')
           <= length (commands start) + 2 * commands_per_model small_cfg)%nat
       /\ (forall imputed, outcome = Return (Some imputed) -> length imputed = 2%nat)
       /\ (Exists (fun job => Exists (fun v => var_dict !! v = None) ("OUT" :: job.2))
             [("12", ["AGE"]); ("13", ["AGE"; "TEMP"])] ->
           exists cls, outcome = Raise cls).
Proof.
  assert (Hfuel : (2 * (Z.to_nat (max_restarts small_cfg) + 1) <= 4)%nat)
    by (vm_compute; lia).
  split; [assumption |].
  apply (job_within_bounds small_cfg one_set_each no_reports 4 var_dict "OUT"
           [("12", ["AGE"]); ("13", ["AGE"; "TEMP"])] start Hfuel).
Defined.

Lemma default_methods_have_options_witness :
  load_config decimal cfg_lines default_config = Return cfg_loaded
  /\ (Forall (fun line => config_key line <> "predictors") cfg_lines ->
      forall report_lines mdl_id w,
        (train_predictors cfg_loaded report_lines mdl_id (predictors cfg_loaded) w).1
        = Return tt).
Proof.
  assert (Hload : load_config decimal cfg_lines default_config = Return cfg_loaded)
    by (vm_compute; reflexivity).
  split; [assumption |].
  apply (default_methods_have_options decimal cfg_lines cfg_loaded Hload).
Defined.

Lemma predictor_without_options_line_witness :
  load_config decimal cfg_lines_nnet default_config = Return cfg_loaded_nnet
  /\ "nnet" ∈ predictors cfg_loaded_nnet
  /\ "nnet" <> "lreg" /\ "nnet" <> "scikit_lreg"
  /\ Forall (fun line => options_given_to line <> Some "nnet") cfg_lines_nnet
  /\ forall report_lines mdl_id w,
       (train_predictors cfg_loaded_nnet report_lines mdl_id
          (predictors cfg_loaded_nnet) w).1
       = Raise KeyError.
Proof.
  assert (Hload : load_config decimal cfg_lines_nnet default_config
                  = Return cfg_loaded_nnet) by (vm_compute; reflexivity).
  assert (Hin : "nnet" ∈ predictors cfg_loaded_nnet) by (vm_compute; constructor).
  assert (Hlreg : "nnet" <> "lreg") by discriminate.
  assert (Hscikit : "nnet" <> "scikit_lreg") by discriminate.
  assert (Hall : Forall (fun line => options_given_to line <> Some "nnet") cfg_lines_nnet)
    by (repeat constructor; vm_compute; discriminate).
  repeat (split; [assumption |]).
  apply (predictor_without_options_line decimal cfg_lines_nnet cfg_loaded_nnet "nnet"
           Hload Hin Hlreg Hscikit Hall).
Defined.

Lemma job_line_round_trip_witness :
  all_space EmptyString = true /\ all_space line_feed = true
  /\ "12" <> EmptyString /\ has_space "12" = false
  /\ Forall (fun v => has_space v = false) ["AGE"; "TEMP"]
  /\ Forall (fun v => has_char ","%char v = false) ["AGE"; "TEMP"]
  /\ join ","%char ["AGE"; "TEMP"] <> EmptyString
  /\ job_line ("12 AGE,TEMP" +:+ line_feed) = Return (Some ("12", ["AGE"; "TEMP"])).
Proof.
  assert (Hbefore : all_space EmptyString = true) by reflexivity.
  assert (Hafter : all_space line_feed = true) by reflexivity.
  assert (Hid : "12" <> EmptyString) by discriminate.
  assert (Hno : has_space "12" = false) by reflexivity.
  assert (Hvars : Forall (fun v => has_space v = false) ["AGE"; "TEMP"])
    by (repeat constructor).
  assert (Hcomma : Forall (fun v => has_char ","%char v = false) ["AGE"; "TEMP"])
    by (repeat constructor).
  assert (Hsome : join ","%char ["AGE"; "TEMP"] <> EmptyString) by discriminate.
  repeat (split; [assumption |]).
  apply (job_line_round_trip EmptyString line_feed "12" ["AGE"; "TEMP"]
           Hbefore Hafter Hid Hno Hvars Hcomma Hsome).
Defined.
